(** * Tic-tac-toe engine: board state and depth-bounded alpha-beta search

    A shallow embedding of [TicTacToeGame] (src/tictactoe.py) and the
    properties of its specification.  Python integers are [Z], labels are
    strings, the board is a list of rows of [Move] records, and every
    method is a function of the game object; a method that assigns to a
    cell returns the successor object.  Exceptions are explicit results. *)

From Stdlib Require Import ZArith String Bool Lia.
From stdpp Require Import base tactics option list numbers strings gmap.

Local Open Scope Z_scope.

(** ** Exceptions *)

Inductive error : Type :=
  | IndexError
  | ZeroDivisionError
  | OverflowError
  | StopIteration
  | RecursionError.

Inductive result (A : Type) : Type :=
  | Ok (a : A)
  | Raise (e : error).

Arguments Ok {A} a.
Arguments Raise {A} e.

#[global] Instance result_ret : MRet result := fun A a => Ok a.

#[global] Instance result_bind : MBind result := fun A B f m =>
  match m with
  | Ok a => f a
  | Raise e => Raise e
  end.

(** ** Python sequences *)

Definition range (n : Z) : list Z := seqZ 0 n.

(** The position a subscript [i] denotes in a sequence of length [len]:
    a negative index counts from the end, anything outside [-len, len)
    raises. *)
Definition py_position (len : nat) (i : Z) : result nat :=
  let j := if i <? 0 then i + Z.of_nat len else i in
  if (0 <=? j) && (j <? Z.of_nat len) then Ok (Z.to_nat j) else Raise IndexError.

(** [l[i]] *)
Definition py_index {A} (l : list A) (i : Z) : result A :=
  k ← py_position (length l) i;
  match l !! k with
  | Some x => Ok x
  | None => Raise IndexError
  end.

(** [l[i] = x] *)
Definition py_setitem {A} (l : list A) (i : Z) (x : A) : result (list A) :=
  k ← py_position (length l) i; Ok (<[k := x]> l).

Definition enumerate {A} (l : list A) : list (Z * A) :=
  imap (fun i x => (Z.of_nat i, x)) l.

(** [zip] applied to the unpacked rows: the tuples stop at the shortest
    row. *)
Fixpoint zip_star {A} (rows : list (list A)) : list (list A) :=
  match rows with
  | [] => []
  | [r] => (fun x => [x]) <$> r
  | r :: rs => zip_with cons r (zip_star rs)
  end.

(** A list comprehension whose element expression may raise. *)
Fixpoint comprehension {A B} (f : A -> result B) (l : list A) : result (list B) :=
  match l with
  | [] => Ok []
  | x :: l' => y ← f x; ys ← comprehension f l'; Ok (y :: ys)
  end.

(** [all(f(x) for x in l)] and [any(f(x) for x in l)] stop at the first
    deciding element. *)
Fixpoint py_all {A} (f : A -> result bool) (l : list A) : result bool :=
  match l with
  | [] => Ok true
  | x :: l' => b ← f x; if b : bool then py_all f l' else Ok false
  end.

Fixpoint py_any {A} (f : A -> result bool) (l : list A) : result bool :=
  match l with
  | [] => Ok false
  | x :: l' => b ← f x; if b : bool then Ok true else py_any f l'
  end.

(** ** Python numbers: integers and the two float infinities *)

Inductive number : Type :=
  | NegInf
  | Int (z : Z)
  | PosInf.

Definition num_lt (a b : number) : bool :=
  match a, b with
  | NegInf, NegInf => false
  | NegInf, _ => true
  | Int _, NegInf => false
  | Int x, Int y => x <? y
  | Int _, PosInf => true
  | PosInf, _ => false
  end.

Definition num_le (a b : number) : bool := negb (num_lt b a).

(** [max(a, b)] keeps [a] unless [b > a]; [min(a, b)] keeps [a] unless
    [b < a]. *)
Definition py_max (a b : number) : number := if num_lt a b then b else a.
Definition py_min (a b : number) : number := if num_lt b a then b else a.

(** ** Data model *)

Record Player : Type := mkPlayer { player_label : string; color : string }.

Record Move : Type := mkMove { row : Z; col : Z; label : string }.

Definition BOARD_SIZE : Z := 3.

Definition DEFAULT_PLAYERS : list Player :=
  [mkPlayer "X" "blue"; mkPlayer "O" "green"].

Abbreviation coord := (Z * Z)%type (only parsing).

(** [_players] is [itertools.cycle(players)]: the sequence and the
    position of the element [next] yields. *)
Record TicTacToeGame : Type := mkGame {
  _players : list Player * nat;
  board_size : Z;
  current_player : Player;
  winner_combo : list coord;
  _current_moves : list (list Move);
  _has_winner : bool;
  _winning_combos : list (list coord)
}.

Definition set_current_moves (self : TicTacToeGame) (b : list (list Move)) : TicTacToeGame :=
  mkGame (_players self) (board_size self) (current_player self)
         (winner_combo self) b (_has_winner self) (_winning_combos self).

(** [self._current_moves[r][c]] *)
Definition cell (self : TicTacToeGame) (r c : Z) : result Move :=
  rw ← py_index (_current_moves self) r; py_index rw c.

(** [self._current_moves[r][c] = m]: the row object is updated in place. *)
Definition set_cell (self : TicTacToeGame) (r c : Z) (m : Move) : result TicTacToeGame :=
  rw ← py_index (_current_moves self) r;
  rw' ← py_setitem rw c m;
  b ← py_setitem (_current_moves self) r rw';
  Ok (set_current_moves self b).

(** ** Construction *)

Definition next_player (ps : list Player * nat) : result (Player * (list Player * nat)) :=
  match fst ps with
  | [] => Raise StopIteration
  | p0 :: _ =>
      Ok (nth (snd ps) (fst ps) p0,
          (fst ps, if S (snd ps) <? length (fst ps) then S (snd ps) else 0)%nat)
  end.

Definition setup_moves (n : Z) : list (list Move) :=
  (fun r : Z => (fun c : Z => mkMove r c "") <$> range n) <$> range n.

Definition _get_winning_combos (moves : list (list Move)) : result (list (list coord)) :=
  let rows : list (list coord) :=
    (fun rw : list Move => (fun move => (row move, col move)) <$> rw) <$> moves in
  let columns : list (list coord) := zip_star rows in
  first_diagonal ← comprehension (fun ir : Z * list coord => py_index ir.2 ir.1)
                                 (enumerate rows);
  second_diagonal ← comprehension (fun jc : Z * list coord => py_index jc.2 jc.1)
                                  (enumerate (reverse columns));
  Ok (rows ++ columns ++ [first_diagonal; second_diagonal]).

Definition _setup_board (self : TicTacToeGame) : result TicTacToeGame :=
  let moves := setup_moves (board_size self) in
  combos ← _get_winning_combos moves;
  Ok (mkGame (_players self) (board_size self) (current_player self)
             (winner_combo self) moves (_has_winner self) combos).

Definition init (players : list Player) (size : Z) : result TicTacToeGame :=
  '(p, ps) ← next_player (players, 0%nat);
  _setup_board (mkGame ps size p [] [] false []).

(** ** Board state operations *)

(** [is_valid_move]: the cell is read first, then the flag. *)
Definition is_valid_move (self : TicTacToeGame) (move : Move) : result bool :=
  m ← cell self (row move) (col move);
  let move_was_not_played := String.eqb (label m) "" in
  let no_winner := negb (_has_winner self) in
  Ok (no_winner && move_was_not_played).

Definition has_winner (self : TicTacToeGame) : bool := _has_winner self.

Definition toggle_player (self : TicTacToeGame) : result TicTacToeGame :=
  '(p, ps) ← next_player (_players self);
  Ok (mkGame ps (board_size self) p (winner_combo self)
             (_current_moves self) (_has_winner self) (_winning_combos self)).

(** [reset_game]: every slot of every row is overwritten with a fresh
    [Move(row, col)]; the flag and the stored combo are cleared. *)
Definition reset_game (self : TicTacToeGame) : TicTacToeGame :=
  let moves :=
    imap (fun (r : nat) (row_content : list Move) =>
            imap (fun (c : nat) (_ : Move) => mkMove (Z.of_nat r) (Z.of_nat c) "")
                 row_content)
         (_current_moves self) in
  mkGame (_players self) (board_size self) (current_player self)
         [] moves false (_winning_combos self).

(** [all(self._current_moves[n][m].label == mark for n, m in combo)] *)
Definition all_labelled (self : TicTacToeGame) (mark : string) (combo : list coord) : result bool :=
  py_all (fun nm : coord => m ← cell self nm.1 nm.2; Ok (String.eqb (label m) mark)) combo.

(** [any(self._current_moves[r][c].label == mark for r, c in combo)] *)
Definition any_labelled (self : TicTacToeGame) (mark : string) (combo : list coord) : result bool :=
  py_any (fun rc : coord => m ← cell self rc.1 rc.2; Ok (String.eqb (label m) mark)) combo.

(** The scan of [get_winner] over the winning combos. *)
Fixpoint scan_combos (self : TicTacToeGame) (combos : list (list coord))
  : result (option (string * list coord)) :=
  match combos with
  | [] => Ok None
  | combo :: rest =>
      x ← all_labelled self "X" combo;
      if x : bool then Ok (Some ("X"%string, combo)) else
      o ← all_labelled self "O" combo;
      if o : bool then Ok (Some ("Y"%string, combo)) else
      scan_combos self rest
  end.

(** [all(move.label for row in self._current_moves for move in row)]: a
    label is true when it is not the empty string. *)
Definition board_full (self : TicTacToeGame) : bool :=
  forallb (fun move => negb (String.eqb (label move) "")) (concat (_current_moves self)).

Definition get_winner (self : TicTacToeGame) : result (option string * list coord) :=
  w ← scan_combos self (_winning_combos self);
  match w with
  | Some (mark, combo) => Ok (Some mark, combo)
  | None => if board_full self then Ok (Some "TIE"%string, []) else Ok (None, [])
  end.

(** ** Loops *)

Fixpoint for_each {A S} (body : A -> S -> result S) (l : list A) (s : S) : result S :=
  match l with
  | [] => Ok s
  | x :: l' => s' ← body x s; for_each body l' s'
  end.

(** A loop whose body may [break]: the body returns the new state and
    whether it broke out. *)
Fixpoint for_break {A S} (body : A -> S -> result (S * bool)) (l : list A) (s : S) : result S :=
  match l with
  | [] => Ok s
  | x :: l' => sb ← body x s; if sb.2 : bool then Ok sb.1 else for_break body l' sb.1
  end.

(** ** Heuristic evaluation *)

Definition heuristic_combo (self : TicTacToeGame) (combo : list coord) (scores : Z * Z)
  : result (Z * Z) :=
  let '(player_score, opponent_score) := scores in
  player_in_combo ← any_labelled self "O" combo;
  opponent_in_combo ← any_labelled self "X" combo;
  if player_in_combo && negb opponent_in_combo then Ok (player_score + 1, opponent_score)
  else if opponent_in_combo && negb player_in_combo then Ok (player_score, opponent_score + 1)
  else Ok (player_score, opponent_score).

Definition heuristic_evaluation (self : TicTacToeGame) : result Z :=
  scores ← for_each (heuristic_combo self) (_winning_combos self) (0, 0);
  Ok (scores.1 - scores.2).

(** ** Floats

    A binary64 value is [m * 2^e] or an infinity.  Only the operations
    of the depth expression of [ai] are needed: true division of two
    integers (correctly rounded, ties to even, subnormals below
    [2^-1022]), multiplication by the constant 2, and [int]. *)

Inductive float : Type :=
  | Finite (m e : Z)
  | Infinity (negative : bool).

Definition round_half_even (num den : Z) : Z :=
  let q := num / den in
  let r := num mod den in
  if 2 * r <? den then q
  else if den <? 2 * r then q + 1
  else if Z.even q then q else q + 1.

(** The integer [d] with [2^d <= a / b < 2^(d+1)], for positive [a], [b]. *)
Definition quotient_log2 (a b : Z) : Z :=
  let d := Z.log2 a - Z.log2 b in
  if a * 2 ^ Z.log2 b <? b * 2 ^ Z.log2 a then d - 1 else d.

(** [a / b] on integers *)
Definition py_truediv (a b : Z) : result float :=
  if b =? 0 then Raise ZeroDivisionError
  else if a =? 0 then Ok (Finite 0 0)
  else
    let x := Z.abs a in
    let y := Z.abs b in
    let e := Z.max (quotient_log2 x y - 52) (-1074) in
    let m := round_half_even (x * 2 ^ Z.max 0 (- e)) (y * 2 ^ Z.max 0 e) in
    if (0 <? m) && (1024 <=? Z.log2 m + e) then Raise OverflowError
    else Ok (Finite (Z.sgn a * Z.sgn b * m) e).

(** [x * 2] on a float: exact, or an infinity. *)
Definition float_times_2 (x : float) : float :=
  match x with
  | Finite m e =>
      if negb (m =? 0) && (1024 <=? Z.log2 (Z.abs m) + e + 1)
      then Infinity (m <? 0)
      else Finite m (e + 1)
  | Infinity s => Infinity s
  end.

(** [int(x)]: truncation towards zero. *)
Definition py_int (x : float) : result Z :=
  match x with
  | Finite m e => Ok (if 0 <=? e then m * 2 ^ e else Z.quot m (2 ^ (- e)))
  | Infinity _ => Raise OverflowError
  end.

(** ** Search *)

(** The state the loops of [minimax] thread: the game object,
    [best_score], [alpha] and [beta]. *)
Definition search_state : Type := (TicTacToeGame * number * number * number)%type.

Definition winner_is (winner : option string) (s : string) : bool :=
  match winner with
  | Some w => String.eqb w s
  | None => false
  end.

(** The body of the inner loop of [minimax] at cell [(r, c)]; [child] is
    the recursive call at [depth + 1]. *)
Definition minimax_cell
    (child : TicTacToeGame -> number -> number -> result (number * TicTacToeGame))
    (is_maximizing : bool) (r c : Z) (st : search_state) : result (search_state * bool) :=
  let '(self, best_score, alpha, beta) := st in
  m ← cell self r c;
  if String.eqb (label m) "" then
    self ← set_cell self r c (mkMove r c (if is_maximizing then "O" else "X"));
    sc ← child self alpha beta;
    let '(score, self) := sc in
    self ← set_cell self r c (mkMove r c "");
    if is_maximizing then
      let best_score := py_max best_score score in
      let alpha := py_max alpha best_score in
      Ok ((self, best_score, alpha, beta), num_le beta alpha)
    else
      let best_score := py_min best_score score in
      let beta := py_min beta best_score in
      Ok ((self, best_score, alpha, beta), num_le beta alpha)
  else Ok (st, false).

(** [minimax]; the recursion is on [fuel], an exhausted fuel is reported
    as [RecursionError]. *)
Fixpoint minimax_fuel (fuel : nat) (self : TicTacToeGame) (is_maximizing : bool)
    (alpha beta : number) (max_depth depth : Z) {struct fuel}
  : result (number * TicTacToeGame) :=
  match fuel with
  | O => Raise RecursionError
  | S fuel' =>
      w ← get_winner self;
      let winner := w.1 in
      if (max_depth =? depth) || bool_decide (winner ≠ None) then
        if winner_is winner "X" then Ok (Int (-10 + depth), self)
        else if winner_is winner "O" then Ok (Int (10 - depth), self)
        else if winner_is winner "TIE" then Ok (Int 0, self)
        else h ← heuristic_evaluation self; Ok (Int h, self)
      else
        let child := fun s a b =>
          minimax_fuel fuel' s (negb is_maximizing) a b max_depth (depth + 1) in
        let rows := range (board_size self) in
        st ← for_each
               (fun r => for_break (minimax_cell child is_maximizing r) rows)
               rows
               (self, if is_maximizing then NegInf else PosInf, alpha, beta);
        let '(self, best_score, _, _) := st in
        Ok (best_score, self)
  end.

(** The number of cells still unplayed bounds the recursion. *)
Definition empty_cells (self : TicTacToeGame) : nat :=
  length (filter (fun move => label move = ""%string) (concat (_current_moves self))).

Definition minimax (self : TicTacToeGame) (is_maximizing : bool)
    (alpha beta : number) (max_depth depth : Z) : result (number * TicTacToeGame) :=
  minimax_fuel (S (empty_cells self)) self is_maximizing alpha beta max_depth depth.

(** [2 + int(((max_cells - cells_left) / max_cells) * 2)] *)
Definition ai_max_depth (max_cells cells_left : Z) : result Z :=
  q ← py_truediv (max_cells - cells_left) max_cells;
  n ← py_int (float_times_2 q);
  Ok (2 + n).

Definition ai_state : Type := (TicTacToeGame * number * option coord)%type.

(** The body of the inner loop of [ai] at cell [(r, c)]. *)
Definition ai_cell (max_cells cells_left r c : Z) (st : ai_state) : result ai_state :=
  let '(self, best_score, best_move) := st in
  m ← cell self r c;
  if String.eqb (label m) "" then
    self ← set_cell self r c (mkMove r c "O");
    max_depth ← ai_max_depth max_cells cells_left;
    sc ← minimax self false NegInf PosInf max_depth 0;
    let '(score, self) := sc in
    self ← set_cell self r c (mkMove r c "");
    if num_lt best_score score
    then Ok (self, score, Some (r, c))
    else Ok (self, best_score, best_move)
  else Ok st.

Definition ai (self : TicTacToeGame) (cells_left : Z) : result (option coord * TicTacToeGame) :=
  let max_cells := board_size self ^ 2 in
  let rows := range (board_size self) in
  st ← for_each (fun r => for_each (ai_cell max_cells cells_left r) rows) rows
                (self, NegInf, None);
  let '(self, _, best_move) := st in
  Ok (best_move, self).

(** ** The variant of src/test.py

    The same class without the depth bound: [get_winner] returns the
    label alone, [minimax] takes no [max_depth] and tests the label "Y",
    [ai] takes no argument.  The loops are the ones of src/tictactoe.py;
    the field [_winner], which the search does not read, is left out. *)
Module test_py.

Definition get_winner (self : TicTacToeGame) : result (option string) :=
  w ← scan_combos self (_winning_combos self);
  match w with
  | Some (mark, _) => Ok (Some mark)
  | None => if board_full self then Ok (Some "TIE"%string) else Ok None
  end.

Fixpoint minimax_fuel (fuel : nat) (self : TicTacToeGame) (is_maximizing : bool)
    (alpha beta : number) (depth : Z) {struct fuel}
  : result (number * TicTacToeGame) :=
  match fuel with
  | O => Raise RecursionError
  | S fuel' =>
      winner ← get_winner self;
      if winner_is winner "X" then Ok (Int (-10 + depth), self)
      else if winner_is winner "Y" then Ok (Int (10 - depth), self)
      else if winner_is winner "TIE" then Ok (Int 0, self)
      else
        let child := fun s a b => minimax_fuel fuel' s (negb is_maximizing) a b (depth + 1) in
        let rows := range (board_size self) in
        st ← for_each
               (fun r => for_break (minimax_cell child is_maximizing r) rows)
               rows
               (self, if is_maximizing then NegInf else PosInf, alpha, beta);
        let '(self, best_score, _, _) := st in
        Ok (best_score, self)
  end.

Definition minimax (self : TicTacToeGame) (is_maximizing : bool)
    (alpha beta : number) (depth : Z) : result (number * TicTacToeGame) :=
  minimax_fuel (S (empty_cells self)) self is_maximizing alpha beta depth.

Definition ai_cell (r c : Z) (st : ai_state) : result ai_state :=
  let '(self, best_score, best_move) := st in
  m ← cell self r c;
  if String.eqb (label m) "" then
    self ← set_cell self r c (mkMove r c "O");
    sc ← minimax self false NegInf PosInf 0;
    let '(score, self) := sc in
    self ← set_cell self r c (mkMove r c "");
    if num_lt best_score score
    then Ok (self, score, Some (r, c))
    else Ok (self, best_score, best_move)
  else Ok st.

Definition ai (self : TicTacToeGame) : result (option coord * TicTacToeGame) :=
  let rows := range (board_size self) in
  st ← for_each (fun r => for_each (ai_cell r) rows) rows (self, NegInf, None);
  let '(self, _, best_move) := st in
  Ok (best_move, self).

End test_py.

(** * Specification vocabulary *)

(** The rows, the columns and the two diagonals of an [n] x [n] grid, in
    the order [_get_winning_combos] lists them. *)
Definition grid_rows (n : Z) : list (list coord) :=
  (fun r : Z => (fun c : Z => (r, c)) <$> range n) <$> range n.

Definition grid_columns (n : Z) : list (list coord) :=
  (fun c : Z => (fun r : Z => (r, c)) <$> range n) <$> range n.

Definition grid_first_diagonal (n : Z) : list coord :=
  (fun i : Z => (i, i)) <$> range n.

Definition grid_second_diagonal (n : Z) : list coord :=
  (fun j : Z => (j, n - 1 - j)) <$> range n.

Definition grid_lines (n : Z) : list (list coord) :=
  grid_rows n ++ grid_columns n ++ [grid_first_diagonal n; grid_second_diagonal n].

(** Well-formed game objects.
    The constructor builds the board with [setup_moves] and the combos
    with [_get_winning_combos]; afterwards only the labels of the cells,
    the flag, the stored combo and the turn change.  A game object is
    well formed when it still has that geometry. *)

Definition clear_labels (moves : list (list Move)) : list (list Move) :=
  (fun rw : list Move => (fun m => mkMove (row m) (col m) "") <$> rw) <$> moves.

Record well_formed (self : TicTacToeGame) : Prop := {
  wf_board : clear_labels (_current_moves self) = setup_moves (board_size self);
  wf_combos : _get_winning_combos (setup_moves (board_size self)) = Ok (_winning_combos self)
}.

(** The label at a coordinate, for stating what the scans compute. *)
Definition label_at (self : TicTacToeGame) (rc : coord) : string :=
  match cell self rc.1 rc.2 with
  | Ok m => label m
  | Raise _ => ""
  end.

(** A combo is occupied by a mark when one of its cells carries it, and
    open for a mark when that mark occupies it and the other does not. *)
Definition occupies (self : TicTacToeGame) (mark : string) (combo : list coord) : bool :=
  existsb (fun rc => String.eqb (label_at self rc) mark) combo.

Definition open_for (self : TicTacToeGame) (mark other : string) (combo : list coord) : bool :=
  occupies self mark combo && negb (occupies self other combo).

(** A combo is filled by a mark when every cell of it carries the mark. *)
Definition filled_by (self : TicTacToeGame) (mark : string) (combo : list coord) : bool :=
  forallb (fun rc => String.eqb (label_at self rc) mark) combo.

(** The first combo, in list order, that one mark fills, with the label
    [get_winner] gives it. *)
Fixpoint first_filled (self : TicTacToeGame) (combos : list (list coord))
  : option (string * list coord) :=
  match combos with
  | [] => None
  | combo :: rest =>
      if filled_by self "X" combo then Some ("X"%string, combo)
      else if filled_by self "O" combo then Some ("Y"%string, combo)
      else first_filled self rest
  end.

(** Every coordinate of every combo lies on the board. *)
Definition combos_inside (self : TicTacToeGame) (combos : list (list coord)) : Prop :=
  forall combo rc, combo ∈ combos -> rc ∈ combo ->
    0 <= rc.1 < board_size self /\ 0 <= rc.2 < board_size self.

(** The cells [ai] may choose: inside the board and unplayed. *)
Definition candidate (self : TicTacToeGame) (rc : coord) : Prop :=
  0 <= rc.1 < board_size self /\ 0 <= rc.2 < board_size self /\
  label_at self rc = ""%string.

(** Row-major order: [rc] is scanned before the position [(r, c)]. *)
Definition scanned_before (r c : Z) (rc : coord) : Prop :=
  rc.1 < r \/ (rc.1 = r /\ rc.2 < c).

(** The score [ai] computes for a candidate: the mark "O" is placed and
    the position is searched with the full window at depth 0. *)
Definition candidate_score (self : TicTacToeGame) (max_depth : Z) (rc : coord)
  : result number :=
  placed ← set_cell self rc.1 rc.2 (mkMove rc.1 rc.2 "O");
  sc ← minimax placed false NegInf PosInf max_depth 0;
  Ok sc.1.

(** A running best score on the side of its initial value, and a score
    that is an integer. *)
Definition sane (is_maximizing : bool) (best : number) : Prop :=
  best ≠ (if is_maximizing then PosInf else NegInf).

Definition finite (n : number) : Prop := exists z, n = Int z.

(** What [heuristic_evaluation] counts: the combos open for "O" minus
    the combos open for "X". *)
Definition open_lines_balance (self : TicTacToeGame) : Z :=
  Z.of_nat (length (List.filter (open_for self "O" "X") (_winning_combos self)))
  - Z.of_nat (length (List.filter (open_for self "X" "O") (_winning_combos self))).

(** [rc0], scored [z], is the best candidate scanned before [(r, c)] and
    the first such one: no scanned candidate scores more, and every
    candidate scanned before [rc0] scores less. *)
Definition best_so_far (self : TicTacToeGame) (max_depth r c : Z) (rc0 : coord) (z : Z) : Prop :=
  candidate self rc0 /\
  scanned_before r c rc0 /\
  candidate_score self max_depth rc0 = Ok (Int z) /\
  forall rc, candidate self rc -> scanned_before r c rc ->
    exists z', candidate_score self max_depth rc = Ok (Int z') /\
               z' <= z /\
               (scanned_before rc0.1 rc0.2 rc -> z' < z).

(** The same over the whole board. *)
Definition first_best (self : TicTacToeGame) (max_depth : Z) (rc0 : coord) (z : Z) : Prop :=
  candidate self rc0 /\
  candidate_score self max_depth rc0 = Ok (Int z) /\
  forall rc, candidate self rc ->
    exists z', candidate_score self max_depth rc = Ok (Int z') /\
               z' <= z /\
               (scanned_before rc0.1 rc0.2 rc -> z' < z).

(** The state of the loops of [ai] when the scan stands at [(r, c)];
    [dres] is the value of the depth expression. *)
Definition ai_invariant (self : TicTacToeGame) (dres : result Z) (r c : Z) (st : ai_state) : Prop :=
  let '(g, best, mv) := st in
  g = self /\
  ((best = NegInf /\ mv = None /\
    forall rc, candidate self rc -> ~ scanned_before r c rc) \/
   (exists d rc0 z,
      dres = Ok d /\ best = Int z /\ mv = Some rc0 /\
      best_so_far self d r c rc0 z)).

(** ** Concrete positions

    A 3 x 3 game as the constructor builds it, with the given labels. *)
Definition game_of_labels (labels : list (list string)) : TicTacToeGame :=
  mkGame (DEFAULT_PLAYERS, 1%nat) 3 (mkPlayer "X" "blue") []
         (imap (fun (r : nat) (rw : list string) =>
                  imap (fun (c : nat) (s : string) => mkMove (Z.of_nat r) (Z.of_nat c) s) rw)
               labels)
         false (grid_lines 3).

Definition fresh_position : TicTacToeGame :=
  game_of_labels [[""; ""; ""]; [""; ""; ""]; [""; ""; ""]]%string.

(** Reached by X (0,0), O (1,1), X (0,2), O (0,1), X (1,0), each O move
    being the one [ai] returns: O to move with 4 cells left, and (2,1)
    completes the middle column. *)
Definition missed_win_position : TicTacToeGame :=
  game_of_labels [["X"; "O"; "X"]; ["X"; "O"; ""]; [""; ""; ""]]%string.

(** The same with "O" placed on (2,1): the middle column is all "O". *)
Definition o_line_position : TicTacToeGame :=
  game_of_labels [["X"; "O"; "X"]; ["X"; "O"; ""]; [""; "O"; ""]]%string.

(** The top row is all "X". *)
Definition x_line_position : TicTacToeGame :=
  game_of_labels [["X"; "X"; "X"]; ["O"; "O"; ""]; [""; ""; ""]]%string.

(** A full board with no line. *)
Definition tie_position : TicTacToeGame :=
  game_of_labels [["X"; "O"; "X"]; ["X"; "O"; "O"]; ["O"; "X"; "X"]]%string.

(** The position a subscript denotes on a board of side [n]. *)
Definition wrapped (n i : Z) : Z := if i <? 0 then i + n else i.

Definition on_board (n i : Z) : bool := (0 <=? i) && (i <? n).

(** * Further vocabulary *)

(** [k] calls of [toggle_player] in a row. *)
Fixpoint toggles (k : nat) (self : TicTacToeGame) : result TicTacToeGame :=
  match k with
  | O => Ok self
  | S k' => self' ← toggle_player self; toggles k' self'
  end.

(** The cycle of players stands at index [i]: the current player is
    [players[i]] and [next] will yield the one after it. *)
Definition in_turn (players : list Player) (i : nat) (self : TicTacToeGame) : Prop :=
  (i < length players)%nat /\
  players !! i = Some (current_player self) /\
  _players self = (players, (S i mod length players)%nat).

(** Two game objects that differ at most in the turn. *)
Definition same_but_turn (self self' : TicTacToeGame) : Prop :=
  board_size self' = board_size self /\
  _current_moves self' = _current_moves self /\
  _has_winner self' = _has_winner self /\
  winner_combo self' = winner_combo self /\
  _winning_combos self' = _winning_combos self.

(** The statement [self._current_moves[r][c] = Move(r, c, mark)] of
    [play], [_handle_ai_move] and the search, as a total function: the
    game is left as it is when the subscripts denote no cell. *)
Definition placed (self : TicTacToeGame) (rc : coord) (mark : string) : TicTacToeGame :=
  match set_cell self rc.1 rc.2 (mkMove rc.1 rc.2 mark) with
  | Ok g => g
  | Raise _ => self
  end.

(** The coordinates of an [n] x [n] board in the order the nested loops
    scan them. *)
Definition scan_order (n : Z) : list coord :=
  r ← range n; c ← range n; [(r, c)].

(** The unplayed cells in scan order. *)
Definition candidates (self : TicTacToeGame) : list coord :=
  filter (fun rc => label_at self rc = ""%string) (scan_order (board_size self)).

(** The greatest and the least element of a list of integers (0 for
    the empty list). *)
Definition list_max (l : list Z) : Z :=
  match l with
  | [] => 0
  | x :: l' => foldr Z.max x l'
  end.

Definition list_min (l : list Z) : Z :=
  match l with
  | [] => 0
  | x :: l' => foldr Z.min x l'
  end.

(** The search of [minimax] with the window and the [break] taken out:
    a terminal position has its terminal score, any other position the
    greatest (for the maximizing side) or least score of the positions
    one move away. *)
Fixpoint plain_value (fuel : nat) (self : TicTacToeGame) (is_maximizing : bool)
    (max_depth depth : Z) {struct fuel} : Z :=
  match fuel with
  | O => 0
  | S fuel' =>
      match get_winner self with
      | Ok (winner, _) =>
          if (max_depth =? depth) || bool_decide (winner ≠ None) then
            if winner_is winner "X" then -10 + depth
            else if winner_is winner "O" then 10 - depth
            else if winner_is winner "TIE" then 0
            else match heuristic_evaluation self with Ok h => h | Raise _ => 0 end
          else
            let mark := if is_maximizing then "O"%string else "X"%string in
            let scores :=
              (fun rc => plain_value fuel' (placed self rc mark) (negb is_maximizing)
                                     max_depth (depth + 1))
                <$> candidates self in
            if is_maximizing then list_max scores else list_min scores
      | Raise _ => 0
      end
  end.

Definition plain_minimax (self : TicTacToeGame) (is_maximizing : bool)
    (max_depth depth : Z) : Z :=
  plain_value (S (empty_cells self)) self is_maximizing max_depth depth.

(** What a search with the window [(alpha, beta)] tells about the true
    score [t] when it returns [v]: a value at or below [alpha] bounds
    [t] by [alpha], a value at or above [beta] bounds it by [beta], a
    value inside the window is exact. *)
Definition window_sound (alpha beta : number) (v t : Z) : Prop :=
  (num_le (Int v) alpha = true -> num_le (Int t) alpha = true) /\
  (num_le beta (Int v) = true -> num_le beta (Int t) = true) /\
  (num_lt alpha (Int v) = true -> num_lt (Int v) beta = true -> v = t).

(** The state of the loops of a maximizing node searched with the window
    [(alpha0, beta0)], when the scan stands at [(r, c)]; [V] gives the
    true score of the position behind each candidate and [(r0, c0)] is a
    known candidate.  Before a cut-off [alpha] is the greater of
    [alpha0] and the true scores seen, none of which reaches [beta0];
    after it some true score is known to reach [beta0]. *)
Definition max_cut (self : TicTacToeGame) (beta0 : number) (V : coord -> Z)
    (st : search_state) : Prop :=
  let '(g, best, alpha, beta) := st in
  g = self /\ beta = beta0 /\
  num_le beta0 alpha = true /\ finite best /\ num_le beta0 best = true /\
  exists rc, candidate self rc /\ num_le beta0 (Int (V rc)) = true.

Definition max_inv (self : TicTacToeGame) (alpha0 beta0 : number) (V : coord -> Z)
    (r0 c0 r c : Z) (st : search_state) : Prop :=
  let '(g, best, alpha, beta) := st in
  (g = self /\ beta = beta0 /\
   num_lt alpha beta0 = true /\ alpha = py_max alpha0 best /\ best ≠ PosInf /\
   (scanned_before r c (r0, c0) -> finite best) /\
   (forall rc, candidate self rc -> scanned_before r c rc ->
      num_le (Int (V rc)) alpha = true) /\
   (alpha = alpha0 \/ exists rc, candidate self rc /\ Int (V rc) = alpha))
  \/ max_cut self beta0 V st.

(** The same for a minimizing node, where [beta] moves. *)
Definition min_cut (self : TicTacToeGame) (alpha0 : number) (V : coord -> Z)
    (st : search_state) : Prop :=
  let '(g, best, alpha, beta) := st in
  g = self /\ alpha = alpha0 /\
  num_le beta alpha0 = true /\ finite best /\ num_le best alpha0 = true /\
  exists rc, candidate self rc /\ num_le (Int (V rc)) alpha0 = true.

Definition min_inv (self : TicTacToeGame) (alpha0 beta0 : number) (V : coord -> Z)
    (r0 c0 r c : Z) (st : search_state) : Prop :=
  let '(g, best, alpha, beta) := st in
  (g = self /\ alpha = alpha0 /\
   num_lt alpha0 beta = true /\ beta = py_min beta0 best /\ best ≠ NegInf /\
   (scanned_before r c (r0, c0) -> finite best) /\
   (forall rc, candidate self rc -> scanned_before r c rc ->
      num_le beta (Int (V rc)) = true) /\
   (beta = beta0 \/ exists rc, candidate self rc /\ Int (V rc) = beta))
  \/ min_cut self alpha0 V st.

(** The unpruned score for [minimax] of src/test.py, which has no depth
    bound and tests the label "Y". *)
Fixpoint test_py_plain_value (fuel : nat) (self : TicTacToeGame) (is_maximizing : bool)
    (depth : Z) {struct fuel} : Z :=
  match fuel with
  | O => 0
  | S fuel' =>
      match test_py.get_winner self with
      | Ok winner =>
          if winner_is winner "X" then -10 + depth
          else if winner_is winner "Y" then 10 - depth
          else if winner_is winner "TIE" then 0
          else
            let mark := if is_maximizing then "O"%string else "X"%string in
            let scores :=
              (fun rc => test_py_plain_value fuel' (placed self rc mark)
                           (negb is_maximizing) (depth + 1))
                <$> candidates self in
            if is_maximizing then list_max scores else list_min scores
      | Raise _ => 0
      end
  end.

Definition test_py_plain_minimax (self : TicTacToeGame) (is_maximizing : bool)
    (depth : Z) : Z :=
  test_py_plain_value (S (empty_cells self)) self is_maximizing depth.

(** * The window: [TicTacToeBoard]

    The state of the window class of src/tictactoe.py that the course
    of a game depends on: the two dictionaries that tie the buttons to
    the cells, the count of cells left, the game object, the text and
    colour of the display label, and the text and colours of every
    button.  Fonts, geometry and the menu carry no such state and are
    left out.  A handler is a function of the window object that
    returns the successor object; an exception of the engine, a missing
    dictionary key and the unpacking of [None] are explicit outcomes. *)
Module gui.

Inductive exception : Type :=
  | EngineError (e : error)
  | KeyError
  | TypeError.

Inductive outcome (A : Type) : Type :=
  | Done (a : A)
  | Thrown (e : exception).

Arguments Done {A} a.
Arguments Thrown {A} e.

#[global] Instance outcome_ret : MRet outcome := fun A a => Done a.

#[global] Instance outcome_bind : MBind outcome := fun A B f m =>
  match m with
  | Done a => f a
  | Thrown e => Thrown e
  end.

(** A call into the game object. *)
Definition engine {A} (m : result A) : outcome A :=
  match m with
  | Ok a => Done a
  | Raise e => Thrown (EngineError e)
  end.

(** [d[k]] on a dictionary *)
Definition getitem `{Countable K} {V} (d : gmap K V) (k : K) : outcome V :=
  match d !! k with
  | Some v => Done v
  | None => Thrown KeyError
  end.

(** A button object is named by the grid position at which
    [_create_board_grid] creates it. *)
Abbreviation widget := (Z * Z)%type (only parsing).

(** The options of a button that the handlers configure. *)
Record Button : Type := mkButton {
  text : string;
  fg : string;
  highlightbackground : string
}.

(** The display label; its colour is the toolkit's own until
    [_update_display] sets one. *)
Record Label : Type := mkLabel { label_text : string; label_fg : option string }.

Record TicTacToeBoard : Type := mkBoard {
  _cells : gmap widget coord;
  _cells_left : Z;
  _buttons : gmap coord widget;
  _game : TicTacToeGame;
  display : Label;
  widgets : gmap widget Button
}.

Definition set_cells_left (self : TicTacToeBoard) (n : Z) : TicTacToeBoard :=
  mkBoard (_cells self) n (_buttons self) (_game self) (display self) (widgets self).

Definition set_game (self : TicTacToeBoard) (game : TicTacToeGame) : TicTacToeBoard :=
  mkBoard (_cells self) (_cells_left self) (_buttons self) game (display self)
          (widgets self).

Definition set_display (self : TicTacToeBoard) (l : Label) : TicTacToeBoard :=
  mkBoard (_cells self) (_cells_left self) (_buttons self) (_game self) l (widgets self).

Definition set_widgets (self : TicTacToeBoard) (w : gmap widget Button) : TicTacToeBoard :=
  mkBoard (_cells self) (_cells_left self) (_buttons self) (_game self) (display self) w.

(** [self._game._has_winner = flag] *)
Definition set_has_winner (game : TicTacToeGame) (flag : bool) : TicTacToeGame :=
  mkGame (_players game) (board_size game) (current_player game) (winner_combo game)
         (_current_moves game) flag (_winning_combos game).

(** [button.config(text=s)], [button.config(fg=s)] and
    [button.config(highlightbackground=s)] *)
Definition config_text (s : string) (b : Button) : Button :=
  mkButton s (fg b) (highlightbackground b).

Definition config_fg (s : string) (b : Button) : Button :=
  mkButton (text b) s (highlightbackground b).

Definition config_highlightbackground (s : string) (b : Button) : Button :=
  mkButton (text b) (fg b) s.

(** The body of the loops of [_create_board_grid]: a button is created
    and entered into both dictionaries. *)
Definition create_button (self : TicTacToeBoard) (row col : Z) : TicTacToeBoard :=
  let button : widget := (row, col) in
  mkBoard (<[button := (row, col)]> (_cells self)) (_cells_left self)
          (<[(row, col) := button]> (_buttons self)) (_game self) (display self)
          (<[button := mkButton "" "black" "lightblue"]> (widgets self)).

Definition _create_board_grid (self : TicTacToeBoard) : TicTacToeBoard :=
  foldl (fun self row =>
           foldl (fun self col => create_button self row col)
                 self (range (board_size (_game self))))
        self (range (board_size (_game self))).

(** [TicTacToeBoard(game, board_size)] *)
Definition __init__ (game : TicTacToeGame) (board_size : Z) : TicTacToeBoard :=
  _create_board_grid (mkBoard ∅ (board_size ^ 2) ∅ game (mkLabel "Ready?" None) ∅).

Definition _update_button (self : TicTacToeBoard) (button : widget) (label color : string)
  : TicTacToeBoard :=
  set_widgets self (alter (config_fg color) button
                          (alter (config_text label) button (widgets self))).

Definition _update_display (self : TicTacToeBoard) (msg color : string) : TicTacToeBoard :=
  set_display self (mkLabel msg (Some color)).

Definition _highlight_cells (self : TicTacToeBoard) (winner_combo : list coord)
  : TicTacToeBoard :=
  set_widgets self
    (map_fold (fun (button : widget) (coordinates : coord) w =>
                 if bool_decide (coordinates ∈ winner_combo)
                 then alter (config_highlightbackground "red") button w
                 else w)
              (widgets self) (_cells self)).

(** The truth value of the first component of [get_winner]'s result,
    and its text in a formatted string. *)
Definition truth (winner : option string) : bool :=
  match winner with
  | Some w => negb (String.eqb w "")
  | None => false
  end.

Definition str (winner : option string) : string :=
  match winner with
  | Some w => w
  | None => "None"
  end.

Definition quote : string := String (Ascii.ascii_of_nat 34) EmptyString.

Definition _handle_game_end (self : TicTacToeBoard) (winner : option string)
    (winner_combo : list coord) : TicTacToeBoard :=
  if winner_is winner "TIE" then _update_display self "Tied game!" "red"
  else
    let self := set_game self (set_has_winner (_game self) true) in
    let self := _highlight_cells self winner_combo in
    let msg := "Player " +:+ quote +:+ str winner +:+ quote +:+ " won!" in
    let color := if winner_is winner "X" then "red"%string else "green"%string in
    _update_display self msg color.

Definition _handle_ai_move (self : TicTacToeBoard) : outcome TicTacToeBoard :=
  '(best_move, game) ← engine (ai (_game self) (_cells_left self));
  let self := set_game self game in
  match best_move with
  | None => Thrown TypeError
  | Some (row, col) =>
      let move := mkMove row col "O" in
      button ← getitem (_buttons self) (row, col);
      let self := _update_button self button
                    (player_label (current_player (_game self)))
                    (color (current_player (_game self))) in
      game ← engine (set_cell (_game self) row col move);
      let self := set_game self game in
      '(winner, winner_combo) ← engine (get_winner (_game self));
      if truth winner then Done (_handle_game_end self winner winner_combo)
      else
        game ← engine (toggle_player (_game self));
        let self := set_game self game in
        Done (_update_display self
                (player_label (current_player (_game self)) +:+ "'s turn") "black")
  end.

(** [play]: [clicked_btn] is the widget of the event. *)
Definition play (self : TicTacToeBoard) (clicked_btn : widget) : outcome TicTacToeBoard :=
  '(row, col) ← getitem (_cells self) clicked_btn;
  let move := mkMove row col (player_label (current_player (_game self))) in
  valid ← engine (is_valid_move (_game self) move);
  if negb valid then Done self
  else
    let self := _update_button self clicked_btn
                  (player_label (current_player (_game self)))
                  (color (current_player (_game self))) in
    game ← engine (set_cell (_game self) row col move);
    let self := set_game self game in
    '(winner, winner_combo) ← engine (get_winner (_game self));
    let self := set_cells_left self (_cells_left self - 1) in
    if truth winner then Done (_handle_game_end self winner winner_combo)
    else
      game ← engine (toggle_player (_game self));
      let self := set_game self game in
      let self := _update_display self
                    (player_label (current_player (_game self)) +:+ "'s turn") "black" in
      self ← _handle_ai_move self;
      Done (set_cells_left self (_cells_left self - 1)).

Definition reset_board (self : TicTacToeBoard) : outcome TicTacToeBoard :=
  let self := set_game self (reset_game (_game self)) in
  let self := _update_display self "Ready?" "black" in
  self ← (if String.eqb (player_label (current_player (_game self))) "O"
          then game ← engine (toggle_player (_game self)); Done (set_game self game)
          else Done self);
  let self := set_cells_left self (board_size (_game self) ^ 2) in
  Done (set_widgets self
          (map_fold (fun (button : widget) (_ : coord) w =>
                       alter (config_fg "black") button
                         (alter (config_text "") button
                            (alter (config_highlightbackground "lightblue") button w)))
                    (widgets self) (_cells self))).

(** [main] up to the event loop. *)
Definition main : outcome TicTacToeBoard :=
  let size := 3 in
  game ← engine (init DEFAULT_PLAYERS size);
  Done (__init__ game size).

(** What the event loop delivers to the window: a press on a button,
    or the menu entry "Play Again". *)
Inductive event : Type :=
  | ButtonPress (button : widget)
  | PlayAgain.

Definition handle (self : TicTacToeBoard) (e : event) : outcome TicTacToeBoard :=
  match e with
  | ButtonPress button => play self button
  | PlayAgain => reset_board self
  end.

Fixpoint mainloop (events : list event) (self : TicTacToeBoard) : outcome TicTacToeBoard :=
  match events with
  | [] => Done self
  | e :: events' => self' ← handle self e; mainloop events' self'
  end.

End gui.

(** ** Vocabulary for the window *)

(** The two dictionaries are inverse to each other and the buttons are
    those of the cells of the board. *)
Definition grid_bound (self : gui.TicTacToeBoard) : Prop :=
  (forall rc w, gui._buttons self !! rc = Some w <-> gui._cells self !! w = Some rc) /\
  (forall rc, is_Some (gui._buttons self !! rc) <->
              0 <= rc.1 < board_size (gui._game self) /\
              0 <= rc.2 < board_size (gui._game self)).

(** Every button shows the label of its cell. *)
Definition mirrors (self : gui.TicTacToeBoard) : Prop :=
  forall rc w, gui._buttons self !! rc = Some w ->
    exists b, gui.widgets self !! w = Some b /\
              gui.text b = label_at (gui._game self) rc.

(** The state of the window between two events: the game object is well
    formed with the two default players, the count of cells left is the
    number of unplayed cells, the buttons show the board, and as long as
    no winner is flagged no combo is filled and, if a cell is left, the
    player "X" is to move. *)
Record consistent (self : gui.TicTacToeBoard) : Prop := {
  cs_wf : well_formed (gui._game self);
  cs_size : 1 <= board_size (gui._game self);
  cs_players : exists i, in_turn DEFAULT_PLAYERS i (gui._game self);
  cs_cells_left : gui._cells_left self = Z.of_nat (empty_cells (gui._game self));
  cs_grid : grid_bound self;
  cs_mirrors : mirrors self;
  cs_no_line : _has_winner (gui._game self) = false ->
               first_filled (gui._game self) (_winning_combos (gui._game self)) = None;
  cs_turn : _has_winner (gui._game self) = false ->
            empty_cells (gui._game self) ≠ 0%nat ->
            in_turn DEFAULT_PLAYERS 0 (gui._game self)
}.

(** The game is over: a winner is flagged or no cell is left. *)
Definition game_over (self : gui.TicTacToeBoard) : Prop :=
  _has_winner (gui._game self) = true \/ empty_cells (gui._game self) = 0%nat.

(** An event the window can receive: a press is on one of its buttons. *)
Definition deliverable (self : gui.TicTacToeBoard) (e : gui.event) : Prop :=
  match e with
  | gui.ButtonPress button => is_Some (gui._cells self !! button)
  | gui.PlayAgain => True
  end.

(** Two game objects with the same board: they differ at most in the
    turn, the winner flag and the stored combo. *)
Definition same_board (self self' : TicTacToeGame) : Prop :=
  board_size self' = board_size self /\
  _current_moves self' = _current_moves self /\
  _winning_combos self' = _winning_combos self.

(** The part of [consistent] that does not speak of the turn. *)
Definition layout (self : gui.TicTacToeBoard) : Prop :=
  well_formed (gui._game self) /\ 1 <= board_size (gui._game self) /\
  grid_bound self /\ mirrors self.

(** The button as [_create_board_grid] makes it and [reset_board]
    leaves it. *)
Definition blank_button : gui.Button := gui.mkButton "" "black" "lightblue".

(** A move as the handlers make it: the button [w] takes the label and
    the colour of the player, the cell [rc] takes the mark. *)
Definition marked (self : gui.TicTacToeBoard) (w : Z * Z) (rc : coord) (mark col : string)
  : gui.TicTacToeBoard :=
  gui.set_game (gui._update_button self w mark col) (placed (gui._game self) rc mark).

(** The text of the display after a win: [f'Player "{winner}" won!']. *)
Definition won_message (winner : string) : string :=
  "Player " +:+ gui.quote +:+ winner +:+ gui.quote +:+ " won!".

(** The buttons of the cells of [combo] are red. *)
Definition highlighted (self : gui.TicTacToeBoard) (combo : list coord) : Prop :=
  forall rc w, rc ∈ combo -> gui._buttons self !! rc = Some w ->
    exists b, gui.widgets self !! w = Some b /\ gui.highlightbackground b = "red"%string.

(** ** Concrete windows

    The window [main] opens, and the same after a press on the middle
    button. *)
Definition opening_window : gui.TicTacToeBoard := gui.__init__ fresh_position 3.

Definition pressed_window : gui.TicTacToeBoard :=
  match gui.play opening_window (1, 1) with
  | gui.Done self => self
  | gui.Thrown _ => opening_window
  end.

(** The number of cells that carry [mark]. *)
Definition count_marks (self : TicTacToeGame) (mark : string) : nat :=
  length (filter (fun move => label move = mark) (concat (_current_moves self))).

(** The board of a game of "X" against "O" in which "X" moves first:
    every cell is unplayed or carries one of the two marks, and "X"
    has moved as often as "O" or once more. *)
Definition balanced (self : TicTacToeGame) : Prop :=
  (forall rc, 0 <= rc.1 < board_size self -> 0 <= rc.2 < board_size self ->
     label_at self rc = ""%string \/ label_at self rc = "X"%string \/
     label_at self rc = "O"%string) /\
  (count_marks self "O" <= count_marks self "X" <= count_marks self "O" + 1)%nat.

(** The window between two events: the board is balanced, and while
    the game is on both players have moved equally often. *)
Definition fair (self : gui.TicTacToeBoard) : Prop :=
  balanced (gui._game self) /\
  (~ game_over self ->
   count_marks (gui._game self) "X" = count_marks (gui._game self) "O").

(** * Properties *)

(** ** Sequences *)

Lemma range_seq (n : Z) : range n = Z.of_nat <$> seq 0 (Z.to_nat n).
Proof.
  unfold range, seqZ. apply list_fmap_ext. intros _ i _. lia.
Qed.

Lemma length_range (n : Z) : length (range n) = Z.to_nat n.
Proof. apply length_seqZ. Qed.

Lemma elem_of_range (n k : Z) : k ∈ range n ↔ 0 <= k < n.
Proof. unfold range. rewrite elem_of_seqZ. lia. Qed.

Lemma lookup_range (n : Z) (i : nat) :
  Z.of_nat i < n -> range n !! i = Some (Z.of_nat i).
Proof.
  intros H. unfold range. by rewrite lookup_seqZ_lt.
Qed.

Lemma py_position_in_range (len : nat) (i : Z) :
  0 <= i < Z.of_nat len -> py_position len i = Ok (Z.to_nat i).
Proof.
  intros H. unfold py_position.
  replace (i <? 0) with false by (symmetry; apply Z.ltb_ge; lia).
  replace (0 <=? i) with true by (symmetry; apply Z.leb_le; lia).
  replace (i <? Z.of_nat len) with true by (symmetry; apply Z.ltb_lt; lia).
  done.
Qed.

Lemma py_index_lookup {A} (l : list A) (i : nat) (x : A) :
  l !! i = Some x -> py_index l (Z.of_nat i) = Ok x.
Proof.
  intros H. unfold py_index.
  rewrite py_position_in_range by (apply lookup_lt_Some in H; lia).
  simpl. rewrite Nat2Z.id, H. done.
Qed.

Lemma py_setitem_insert {A} (l : list A) (i : nat) (x : A) :
  (i < length l)%nat -> py_setitem l (Z.of_nat i) x = Ok (<[i := x]> l).
Proof.
  intros H. unfold py_setitem.
  rewrite py_position_in_range by lia.
  simpl. rewrite Nat2Z.id. done.
Qed.

Lemma py_index_lookup_Z {A} (l : list A) (i : Z) (x : A) :
  0 <= i -> l !! Z.to_nat i = Some x -> py_index l i = Ok x.
Proof.
  intros Hi H. rewrite <- (Z2Nat.id i) by done. by apply py_index_lookup.
Qed.

Lemma py_setitem_insert_Z {A} (l : list A) (i : Z) (x : A) :
  0 <= i -> (Z.to_nat i < length l)%nat ->
  py_setitem l i x = Ok (<[Z.to_nat i := x]> l).
Proof.
  intros Hi H. rewrite <- (Z2Nat.id i) at 1 by done. by apply py_setitem_insert.
Qed.

Lemma zip_with_fmap_same {A B C D} (f : B -> C -> D) (g : A -> B) (h : A -> C) (l : list A) :
  zip_with f (g <$> l) (h <$> l) = (fun x => f (g x) (h x)) <$> l.
Proof. induction l as [|x l IH]; csimpl; [done|]. by rewrite IH. Qed.

(** Transposing a grid of coordinates. *)
Lemma zip_star_grid {A B C} (f : A -> B -> C) (rs : list A) (cs : list B) :
  rs ≠ [] ->
  zip_star ((fun r => (fun c => f r c) <$> cs) <$> rs)
  = (fun c => (fun r => f r c) <$> rs) <$> cs.
Proof.
  induction rs as [|r rs IH]; [done|]. intros _.
  destruct rs as [|r' rs].
  - simpl. rewrite <- list_fmap_compose. done.
  - change (zip_star ((fun r0 => (fun c => f r0 c) <$> cs) <$> r :: r' :: rs))
      with (zip_with cons ((fun c => f r c) <$> cs)
              (zip_star ((fun r0 => (fun c => f r0 c) <$> cs) <$> r' :: rs))).
    rewrite IH by done. rewrite zip_with_fmap_same. done.
Qed.

Lemma comprehension_imap {A B C} (f : B -> result C) (g : nat -> A -> B)
    (h : nat -> C) (l : list A) :
  (forall i x, l !! i = Some x -> f (g i x) = Ok (h i)) ->
  comprehension f (imap g l) = Ok (h <$> seq 0 (length l)).
Proof.
  revert g h. induction l as [|x l IH]; intros g h Hf; [done|].
  rewrite imap_cons. simpl.
  rewrite (Hf 0%nat x eq_refl). simpl.
  rewrite (IH (g ∘ S) (h ∘ S)) by (intros i y Hi; apply (Hf (S i) y Hi)).
  simpl. rewrite <- fmap_S_seq, <- list_fmap_compose. done.
Qed.

Lemma filter_witness {A} (P : A -> Prop) `{forall x, Decision (P x)} (l : list A) (x : A) :
  x ∈ l -> P x -> (1 <= length (filter P l))%nat.
Proof.
  intros Hx HP.
  assert (Hin : x ∈ filter P l) by (apply list_elem_of_filter; done).
  destruct (filter P l); [by apply not_elem_of_nil in Hin | simpl; lia].
Qed.

(** ** The winning combos of a fresh board *)

Lemma setup_moves_rows (n : Z) :
  (fun rw : list Move => (fun move => (row move, col move)) <$> rw) <$> setup_moves n
  = grid_rows n.
Proof.
  unfold setup_moves, grid_rows. rewrite <- list_fmap_compose.
  apply list_fmap_ext. intros _ r _. simpl.
  rewrite <- list_fmap_compose. done.
Qed.

Lemma zip_star_grid_rows (n : Z) : zip_star (grid_rows n) = grid_columns n.
Proof.
  unfold grid_rows, grid_columns.
  destruct (range n) as [|r0 rs] eqn:E; [done|].
  rewrite <- E. apply zip_star_grid. rewrite E. done.
Qed.

Lemma get_winning_combos_setup (n : Z) :
  _get_winning_combos (setup_moves n) = Ok (grid_lines n).
Proof.
  unfold _get_winning_combos. rewrite setup_moves_rows, zip_star_grid_rows.
  unfold enumerate.
  rewrite (comprehension_imap _ _ (fun i => (Z.of_nat i, Z.of_nat i)) (grid_rows n)).
  2:{ intros i rw Hi. simpl. apply py_index_lookup.
      unfold grid_rows in Hi. rewrite list_lookup_fmap in Hi.
      destruct (range n !! i) as [r|] eqn:Er; [|done]. simpl in Hi.
      injection Hi as <-.
      apply lookup_seqZ in Er as [-> Hlt].
      rewrite list_lookup_fmap, lookup_range by done. simpl. do 2 f_equal; lia. }
  simpl.
  rewrite (comprehension_imap _ _ (fun j => (Z.of_nat j, n - 1 - Z.of_nat j))
             (reverse (grid_columns n))).
  2:{ intros j cl Hj. simpl. apply py_index_lookup.
      assert (Hlen : length (grid_columns n) = Z.to_nat n)
        by (unfold grid_columns; rewrite length_fmap; apply length_range).
      assert (Hlt : (j < Z.to_nat n)%nat)
        by (apply lookup_lt_Some in Hj; rewrite length_reverse, Hlen in Hj; done).
      rewrite reverse_lookup in Hj by (rewrite Hlen; done).
      rewrite Hlen in Hj. unfold grid_columns in Hj.
      rewrite list_lookup_fmap, lookup_range in Hj by lia. simpl in Hj.
      injection Hj as <-.
      rewrite list_lookup_fmap, lookup_range by lia. simpl. do 2 f_equal; lia. }
  simpl. unfold grid_lines, grid_first_diagonal, grid_second_diagonal.
  rewrite length_reverse.
  assert (Hr : length (grid_rows n) = Z.to_nat n)
    by (unfold grid_rows; rewrite length_fmap; apply length_range).
  assert (Hc : length (grid_columns n) = Z.to_nat n)
    by (unfold grid_columns; rewrite length_fmap; apply length_range).
  rewrite Hr, Hc, range_seq, <- !list_fmap_compose. done.
Qed.

Lemma grid_lines_elem (n : Z) (line : list coord) :
  line ∈ grid_lines n ->
  (exists r, 0 <= r < n /\ line = (fun c : Z => (r, c)) <$> range n) \/
  (exists c, 0 <= c < n /\ line = (fun r : Z => (r, c)) <$> range n) \/
  line = grid_first_diagonal n \/
  line = grid_second_diagonal n.
Proof.
  unfold grid_lines, grid_rows, grid_columns.
  rewrite !elem_of_app, !list_elem_of_fmap, !elem_of_cons.
  intros [(r & -> & Hr)|[(c & -> & Hc)|[->|[->|H]]]].
  - left. exists r. by rewrite <- elem_of_range.
  - right; left. exists c. by rewrite <- elem_of_range.
  - auto.
  - auto.
  - by apply not_elem_of_nil in H.
Qed.

Lemma grid_lines_in_range (n : Z) (line : list coord) (r c : Z) :
  line ∈ grid_lines n -> (r, c) ∈ line -> 0 <= r < n /\ 0 <= c < n.
Proof.
  intros Hl Hrc.
  apply grid_lines_elem in Hl as [(r0 & Hr0 & ->)|[(c0 & Hc0 & ->)|[-> | ->]]];
    apply list_elem_of_fmap in Hrc as (k & Heq & Hk);
    injection Heq as -> ->; apply elem_of_range in Hk; lia.
Qed.

Lemma grid_lines_length (n : Z) (line : list coord) :
  line ∈ grid_lines n -> length line = Z.to_nat n.
Proof.
  intros Hl.
  apply grid_lines_elem in Hl as [(r0 & Hr0 & ->)|[(c0 & Hc0 & ->)|[-> | ->]]];
    unfold grid_first_diagonal, grid_second_diagonal;
    rewrite length_fmap; apply length_range.
Qed.

Lemma grid_lines_NoDup (n : Z) (line : list coord) :
  line ∈ grid_lines n -> NoDup line.
Proof.
  intros Hl.
  apply grid_lines_elem in Hl as [(r0 & Hr0 & ->)|[(c0 & Hc0 & ->)|[-> | ->]]];
    (apply NoDup_fmap_2; [intros x y [= ?]; done | apply NoDup_seqZ]).
Qed.

(** C4. For every board size [n >= 1] the winning-combo generator, run
    on the freshly set-up board, returns the [n] rows, then the [n]
    columns, then the two diagonals of the board, each row, column and
    diagonal listed in the order of the scan: exactly [2n + 2] lines,
    each of exactly [n] pairwise distinct coordinates, and every cell of
    the board lies on at least two of them. *)
Theorem winning_combos_geometry (n : Z) :
  1 <= n ->
  exists rows columns first_diagonal second_diagonal,
    _get_winning_combos (setup_moves n)
    = Ok (rows ++ columns ++ [first_diagonal; second_diagonal]) /\
    rows = (fun r : Z => (fun c : Z => (r, c)) <$> range n) <$> range n /\
    columns = (fun c : Z => (fun r : Z => (r, c)) <$> range n) <$> range n /\
    first_diagonal = (fun i : Z => (i, i)) <$> range n /\
    second_diagonal = (fun j : Z => (j, n - 1 - j)) <$> range n /\
    Z.of_nat (length rows) = n /\
    Z.of_nat (length columns) = n /\
    let combos := rows ++ columns ++ [first_diagonal; second_diagonal] in
    Z.of_nat (length combos) = 2 * n + 2 /\
    (forall line, line ∈ combos -> Z.of_nat (length line) = n /\ NoDup line) /\
    (forall r c, 0 <= r < n -> 0 <= c < n ->
       (2 <= length (filter (fun line : list coord => (r, c) ∈ line) combos))%nat).
Proof.
  intros Hn.
  exists (grid_rows n), (grid_columns n), (grid_first_diagonal n), (grid_second_diagonal n).
  split; [apply get_winning_combos_setup|].
  split; [done|]. split; [done|]. split; [done|]. split; [done|].
  split; [unfold grid_rows; rewrite length_fmap, length_range; lia|].
  split; [unfold grid_columns; rewrite length_fmap, length_range; lia|].
  intros combos. change combos with (grid_lines n). clear combos.
  split; [|split].
  - unfold grid_lines, grid_rows, grid_columns.
    rewrite !length_app, !length_fmap, length_range. simpl. lia.
  - intros line Hl. split; [|by apply (grid_lines_NoDup n)].
    rewrite (grid_lines_length n) by done. lia.
  - intros r c Hr Hc. unfold grid_lines.
    rewrite !filter_app, !length_app.
    assert (1 <= length (filter (fun line : list coord => (r, c) ∈ line) (grid_rows n)))%nat.
    { apply (filter_witness _ _ ((fun c0 : Z => (r, c0)) <$> range n)).
      - unfold grid_rows. apply list_elem_of_fmap. exists r.
        split; [done|]. by apply elem_of_range.
      - apply list_elem_of_fmap. exists c. split; [done|]. by apply elem_of_range. }
    assert (1 <= length (filter (fun line : list coord => (r, c) ∈ line) (grid_columns n)))%nat.
    { apply (filter_witness _ _ ((fun r0 : Z => (r0, c)) <$> range n)).
      - unfold grid_columns. apply list_elem_of_fmap. exists c.
        split; [done|]. by apply elem_of_range.
      - apply list_elem_of_fmap. exists r. split; [done|]. by apply elem_of_range. }
    lia.
Qed.

Lemma winning_combos_geometry_3 :
  1 <= 3 /\
  exists rows columns first_diagonal second_diagonal,
    _get_winning_combos (setup_moves 3)
    = Ok (rows ++ columns ++ [first_diagonal; second_diagonal]) /\
    rows = [[(0, 0); (0, 1); (0, 2)]; [(1, 0); (1, 1); (1, 2)]; [(2, 0); (2, 1); (2, 2)]] /\
    columns = [[(0, 0); (1, 0); (2, 0)]; [(0, 1); (1, 1); (2, 1)]; [(0, 2); (1, 2); (2, 2)]] /\
    first_diagonal = [(0, 0); (1, 1); (2, 2)] /\
    second_diagonal = [(0, 2); (1, 1); (2, 0)] /\
    Z.of_nat (length rows) = 3 /\
    Z.of_nat (length columns) = 3 /\
    let combos := rows ++ columns ++ [first_diagonal; second_diagonal] in
    Z.of_nat (length combos) = 2 * 3 + 2 /\
    (forall line, line ∈ combos -> Z.of_nat (length line) = 3 /\ NoDup line) /\
    (forall r c, 0 <= r < 3 -> 0 <= c < 3 ->
       (2 <= length (filter (fun line : list coord => (r, c) ∈ line) combos))%nat).
Proof.
  assert (H : 1 <= 3) by lia.
  split; [exact H|]. exact (winning_combos_geometry 3 H).
Defined.

(** ** Well-formed game objects *)

Lemma init_well_formed (players : list Player) (size : Z) (self : TicTacToeGame) :
  init players size = Ok self -> well_formed self /\ board_size self = size.
Proof.
  unfold init. destruct (next_player (players, 0%nat)) as [[p ps]|e]; [|done].
  simpl. unfold _setup_board. simpl.
  rewrite get_winning_combos_setup. simpl. intros [= <-]. simpl.
  split; [|done]. split; simpl.
  - unfold clear_labels, setup_moves. rewrite <- list_fmap_compose.
    apply list_fmap_ext. intros _ r _. simpl.
    rewrite <- list_fmap_compose. done.
  - apply get_winning_combos_setup.
Qed.

Lemma set_current_moves_id (self : TicTacToeGame) :
  set_current_moves self (_current_moves self) = self.
Proof. by destruct self. Qed.

Section WellFormed.
Context (self : TicTacToeGame) (Hwf : well_formed self).

Lemma wf_length : length (_current_moves self) = Z.to_nat (board_size self).
Proof.
  pose proof (f_equal length (wf_board _ Hwf)) as H.
  unfold clear_labels, setup_moves in H.
  by rewrite !length_fmap, length_range in H.
Qed.

Lemma wf_row (i : nat) (rw : list Move) :
  _current_moves self !! i = Some rw ->
  (fun m => mkMove (row m) (col m) "") <$> rw
  = (fun c : Z => mkMove (Z.of_nat i) c "") <$> range (board_size self).
Proof.
  intros Hi.
  pose proof (f_equal (fun b => b !! i) (wf_board _ Hwf)) as H. simpl in H.
  unfold clear_labels, setup_moves in H.
  rewrite !list_lookup_fmap, Hi in H. simpl in H.
  assert (Hlt : (i < Z.to_nat (board_size self))%nat)
    by (rewrite <- wf_length; by apply lookup_lt_Some in Hi).
  rewrite lookup_range in H by lia. simpl in H. by injection H.
Qed.

Lemma wf_row_length (i : nat) (rw : list Move) :
  _current_moves self !! i = Some rw -> length rw = Z.to_nat (board_size self).
Proof.
  intros Hi. pose proof (f_equal length (wf_row i rw Hi)) as H.
  by rewrite !length_fmap, length_range in H.
Qed.

Lemma wf_move (i j : nat) (rw : list Move) (m : Move) :
  _current_moves self !! i = Some rw -> rw !! j = Some m ->
  m = mkMove (Z.of_nat i) (Z.of_nat j) (label m).
Proof.
  intros Hi Hj.
  pose proof (f_equal (fun l => l !! j) (wf_row i rw Hi)) as H. simpl in H.
  rewrite !list_lookup_fmap, Hj in H. simpl in H.
  assert (Hlt : (j < Z.to_nat (board_size self))%nat)
    by (rewrite <- (wf_row_length i rw Hi); by apply lookup_lt_Some in Hj).
  rewrite lookup_range in H by lia. simpl in H.
  injection H as Hr Hc. destruct m; simpl in *. by subst.
Qed.

(** Inside the board every subscript succeeds. *)
Lemma wf_lookup (r c : Z) :
  0 <= r < board_size self -> 0 <= c < board_size self ->
  exists rw s,
    _current_moves self !! Z.to_nat r = Some rw /\
    rw !! Z.to_nat c = Some (mkMove r c s).
Proof.
  intros Hr Hc.
  destruct (_current_moves self !! Z.to_nat r) as [rw|] eqn:Hi.
  2:{ apply lookup_ge_None in Hi. rewrite wf_length in Hi. lia. }
  destruct (rw !! Z.to_nat c) as [m|] eqn:Hj.
  2:{ apply lookup_ge_None in Hj. rewrite (wf_row_length _ _ Hi) in Hj. lia. }
  exists rw, (label m). split; [done|].
  rewrite Hj. f_equal. rewrite (wf_move _ _ _ _ Hi Hj). simpl.
  rewrite !Z2Nat.id by lia. done.
Qed.

Lemma wf_cell (r c : Z) :
  0 <= r < board_size self -> 0 <= c < board_size self ->
  exists s, cell self r c = Ok (mkMove r c s).
Proof.
  intros Hr Hc. destruct (wf_lookup r c Hr Hc) as (rw & s & Hi & Hj).
  exists s. unfold cell.
  rewrite (py_index_lookup_Z _ _ _ (proj1 Hr) Hi). simpl.
  by rewrite (py_index_lookup_Z _ _ _ (proj1 Hc) Hj).
Qed.

Lemma wf_set_cell (r c : Z) (m : Move) :
  0 <= r < board_size self -> 0 <= c < board_size self ->
  exists rw,
    _current_moves self !! Z.to_nat r = Some rw /\
    set_cell self r c m
    = Ok (set_current_moves self
            (<[Z.to_nat r := <[Z.to_nat c := m]> rw]> (_current_moves self))).
Proof.
  intros Hr Hc. destruct (wf_lookup r c Hr Hc) as (rw & s & Hi & Hj).
  exists rw. split; [done|]. unfold set_cell.
  rewrite (py_index_lookup_Z _ _ _ (proj1 Hr) Hi). simpl.
  rewrite py_setitem_insert_Z; [|lia|by apply lookup_lt_Some in Hj]. simpl.
  rewrite py_setitem_insert_Z; [|lia|by apply lookup_lt_Some in Hi]. done.
Qed.
End WellFormed.

(** ** Placing and undoing a provisional move *)

Lemma length_filter_insert {A} (P : A -> Prop) `{forall x, Decision (P x)}
    (l : list A) (j : nat) (x y : A) :
  l !! j = Some y -> P y -> ~ P x ->
  (length (filter P (<[j := x]> l)) + 1 = length (filter P l))%nat.
Proof.
  revert j. induction l as [|z l IH]; intros j Hj Hy Hx; [done|].
  destruct j as [|j]; simpl in *.
  - injection Hj as ->. rewrite filter_cons_False, filter_cons_True by done. simpl. lia.
  - rewrite !filter_cons. destruct (decide (P z)); simpl; rewrite <- (IH j) by done; lia.
Qed.

Lemma length_filter_concat_insert {A} (P : A -> Prop) `{forall x, Decision (P x)}
    (b : list (list A)) (i : nat) (rw rw' : list A) :
  b !! i = Some rw ->
  (length (filter P (concat (<[i := rw']> b))) + length (filter P rw)
   = length (filter P (concat b)) + length (filter P rw'))%nat.
Proof.
  revert i. induction b as [|z b IH]; intros i Hi; [done|].
  destruct i as [|i]; simpl in *.
  - injection Hi as ->. rewrite !filter_app, !List.length_app. lia.
  - rewrite !filter_app, !List.length_app. specialize (IH i Hi). lia.
Qed.

Section Placement.
Context (self : TicTacToeGame) (Hwf : well_formed self).
Context (r c : Z).
Context (Hr : 0 <= r < board_size self) (Hc : 0 <= c < board_size self).

(** Writing a move that carries its own coordinates keeps the
    geometry. *)
Lemma place_well_formed (s : string) :
  exists self',
    set_cell self r c (mkMove r c s) = Ok self' /\
    well_formed self' /\
    board_size self' = board_size self /\
    _winning_combos self' = _winning_combos self.
Proof.
  destruct (wf_lookup self Hwf r c Hr Hc) as (rw & s0 & Hi & Hj).
  destruct (wf_set_cell self Hwf r c (mkMove r c s) Hr Hc) as (rw' & Hi' & ->).
  rewrite Hi in Hi'. injection Hi' as <-.
  eexists. split; [done|]. split; [|done].
  split; simpl; [|apply (wf_combos _ Hwf)].
  rewrite <- (wf_board _ Hwf). unfold clear_labels.
  rewrite !list_fmap_insert. simpl.
  rewrite (list_insert_id _ (Z.to_nat c)) by (by rewrite list_lookup_fmap, Hj).
  apply list_insert_id. by rewrite list_lookup_fmap, Hi.
Qed.

(** Undoing a placement on a cell that was empty restores the game
    object. *)
Lemma place_undo (s : string) (self' : TicTacToeGame) :
  cell self r c = Ok (mkMove r c "") ->
  set_cell self r c (mkMove r c s) = Ok self' ->
  set_cell self' r c (mkMove r c "") = Ok self.
Proof.
  intros Hcell Hset.
  destruct (wf_lookup self Hwf r c Hr Hc) as (rw & s0 & Hi & Hj).
  assert (s0 = ""%string) as ->.
  { unfold cell in Hcell.
    rewrite (py_index_lookup_Z _ _ _ (proj1 Hr) Hi) in Hcell. simpl in Hcell.
    rewrite (py_index_lookup_Z _ _ _ (proj1 Hc) Hj) in Hcell. by injection Hcell. }
  destruct (place_well_formed s) as (g & Hg & Hwf' & Hsz & _).
  rewrite Hset in Hg. injection Hg as <-.
  destruct (wf_set_cell self Hwf r c (mkMove r c s) Hr Hc) as (rw' & Hi' & Hs).
  rewrite Hi in Hi'. injection Hi' as <-.
  rewrite Hset in Hs. injection Hs as ->.
  rewrite <- Hsz in Hr, Hc.
  destruct (wf_set_cell _ Hwf' r c (mkMove r c "") Hr Hc) as (rw'' & Hi'' & ->).
  simpl in Hi''.
  rewrite list_lookup_insert_eq in Hi'' by (by apply lookup_lt_Some in Hi).
  injection Hi'' as <-. simpl.
  rewrite (list_insert_insert_eq rw), (list_insert_id rw _ _ Hj).
  rewrite list_insert_insert_eq, (list_insert_id _ _ _ Hi).
  by destruct self.
Qed.

(** A mark on an empty cell leaves one empty cell fewer. *)
Lemma place_empty_cells (s : string) (self' : TicTacToeGame) :
  s ≠ ""%string ->
  cell self r c = Ok (mkMove r c "") ->
  set_cell self r c (mkMove r c s) = Ok self' ->
  (empty_cells self' + 1 = empty_cells self)%nat.
Proof.
  intros Hs Hcell Hset.
  destruct (wf_lookup self Hwf r c Hr Hc) as (rw & s0 & Hi & Hj).
  assert (s0 = ""%string) as ->.
  { unfold cell in Hcell.
    rewrite (py_index_lookup_Z _ _ _ (proj1 Hr) Hi) in Hcell. simpl in Hcell.
    rewrite (py_index_lookup_Z _ _ _ (proj1 Hc) Hj) in Hcell. by injection Hcell. }
  destruct (wf_set_cell self Hwf r c (mkMove r c s) Hr Hc) as (rw' & Hi' & Hs').
  rewrite Hi in Hi'. injection Hi' as <-.
  rewrite Hset in Hs'. injection Hs' as ->.
  unfold empty_cells. simpl.
  pose proof (length_filter_concat_insert (fun move => label move = ""%string)
                _ _ _ (<[Z.to_nat c := mkMove r c s]> rw) Hi) as H1.
  pose proof (length_filter_insert (fun move => label move = ""%string)
                rw (Z.to_nat c) (mkMove r c s) _ Hj eq_refl Hs) as H2.
  lia.
Qed.
End Placement.


(** ** Reading the board *)

Lemma py_all_forallb {A} (f : A -> result bool) (p : A -> bool) (l : list A) :
  (forall x, x ∈ l -> f x = Ok (p x)) -> py_all f l = Ok (forallb p l).
Proof.
  induction l as [|x l IH]; intros Hf; [done|]. simpl.
  rewrite (Hf x) by left. simpl. destruct (p x); [|done].
  apply IH. intros y Hy. apply Hf. by right.
Qed.

Lemma py_any_existsb {A} (f : A -> result bool) (p : A -> bool) (l : list A) :
  (forall x, x ∈ l -> f x = Ok (p x)) -> py_any f l = Ok (existsb p l).
Proof.
  induction l as [|x l IH]; intros Hf; [done|]. simpl.
  rewrite (Hf x) by left. simpl. destruct (p x); [done|].
  apply IH. intros y Hy. apply Hf. by right.
Qed.

Lemma wf_combos_inside (self : TicTacToeGame) :
  well_formed self -> combos_inside self (_winning_combos self).
Proof.
  intros Hwf combo [r c] Hcombo Hrc. simpl.
  pose proof (wf_combos _ Hwf) as H. rewrite get_winning_combos_setup in H.
  injection H as H. rewrite <- H in Hcombo.
  by apply (grid_lines_in_range _ combo).
Qed.

Section Reading.
Context (self : TicTacToeGame) (Hwf : well_formed self).

Lemma read_label (rc : coord) (mark : string) :
  0 <= rc.1 < board_size self -> 0 <= rc.2 < board_size self ->
  (m ← cell self rc.1 rc.2; Ok (String.eqb (label m) mark))
  = Ok (String.eqb (label_at self rc) mark).
Proof.
  intros Hr Hc. unfold label_at.
  destruct (wf_cell self Hwf _ _ Hr Hc) as (s & ->). done.
Qed.

Lemma all_labelled_inside (mark : string) (combo : list coord) :
  (forall rc, rc ∈ combo -> 0 <= rc.1 < board_size self /\ 0 <= rc.2 < board_size self) ->
  all_labelled self mark combo = Ok (filled_by self mark combo).
Proof.
  intros Hin. apply py_all_forallb. intros rc Hrc.
  apply read_label; by apply Hin.
Qed.

Lemma any_labelled_inside (mark : string) (combo : list coord) :
  (forall rc, rc ∈ combo -> 0 <= rc.1 < board_size self /\ 0 <= rc.2 < board_size self) ->
  any_labelled self mark combo = Ok (occupies self mark combo).
Proof.
  intros Hin. apply py_any_existsb. intros rc Hrc.
  apply read_label; by apply Hin.
Qed.

Lemma scan_combos_inside (combos : list (list coord)) :
  combos_inside self combos ->
  scan_combos self combos = Ok (first_filled self combos).
Proof.
  induction combos as [|combo rest IH]; intros Hin; [done|]. simpl.
  rewrite !all_labelled_inside by (intros rc Hrc; apply (Hin combo); [left|done]).
  simpl. destruct (filled_by self "X" combo); [done|].
  simpl. destruct (filled_by self "O" combo); [done|].
  apply IH. intros combo' rc Hc Hrc. apply (Hin combo'); [by right|done].
Qed.

(** [get_winner] on a well-formed game: the first filled combo, else the
    tie test. *)
Lemma get_winner_well_formed :
  get_winner self
  = Ok match first_filled self (_winning_combos self) with
       | Some (mark, combo) => (Some mark, combo)
       | None => if board_full self then (Some "TIE"%string, []) else (None, [])
       end.
Proof.
  unfold get_winner.
  rewrite scan_combos_inside by (by apply wf_combos_inside). simpl.
  destruct (first_filled self (_winning_combos self)) as [[mark combo]|]; [done|].
  by destruct (board_full self).
Qed.

Lemma heuristic_combo_inside (combo : list coord) (p q : Z) :
  (forall rc, rc ∈ combo -> 0 <= rc.1 < board_size self /\ 0 <= rc.2 < board_size self) ->
  heuristic_combo self combo (p, q)
  = Ok (p + Z.b2z (open_for self "O" "X" combo), q + Z.b2z (open_for self "X" "O" combo)).
Proof.
  intros Hin. unfold heuristic_combo, open_for.
  rewrite !any_labelled_inside by done. simpl.
  destruct (occupies self "O" combo), (occupies self "X" combo); simpl;
    do 2 f_equal; lia.
Qed.

Lemma heuristic_loop_inside (combos : list (list coord)) (p q : Z) :
  combos_inside self combos ->
  for_each (heuristic_combo self) combos (p, q)
  = Ok (p + Z.of_nat (length (List.filter (open_for self "O" "X") combos)),
        q + Z.of_nat (length (List.filter (open_for self "X" "O") combos))).
Proof.
  revert p q. induction combos as [|combo rest IH]; intros p q Hin.
  - simpl. do 2 f_equal; lia.
  - assert (Hrest : combos_inside self rest)
      by (intros combo' rc Hc Hrc; apply (Hin combo'); [by right|done]).
    cbn [for_each List.filter].
    rewrite heuristic_combo_inside by (intros rc Hrc; apply (Hin combo); [left|done]).
    cbn [mbind result_bind]. rewrite IH by done.
    destruct (open_for self "O" "X" combo), (open_for self "X" "O" combo);
      do 2 f_equal; cbn [length Z.b2z]; lia.
Qed.
End Reading.

(** ** Loops over a range *)

Lemma for_each_seqZ {St} (Inv : Z -> St -> Prop) (E : error -> Prop)
    (body : Z -> St -> result St) (k : nat) (a : Z) (s : St) :
  Inv a s ->
  (forall i s, a <= i < a + Z.of_nat k -> Inv i s ->
     match body i s with Ok s' => Inv (i + 1) s' | Raise e => E e end) ->
  match for_each body (seqZ a (Z.of_nat k)) s with
  | Ok s' => Inv (a + Z.of_nat k) s'
  | Raise e => E e
  end.
Proof.
  revert a s. induction k as [|k IH]; intros a s Hs Hbody.
  - simpl. by rewrite Z.add_0_r.
  - rewrite seqZ_cons by lia. simpl.
    pose proof (Hbody a s ltac:(lia) Hs) as H.
    destruct (body a s) as [s'|e]; [|done]. simpl.
    replace (Z.pred (Z.of_nat (S k))) with (Z.of_nat k) by lia.
    replace (a + Z.of_nat (S k)) with (Z.succ a + Z.of_nat k) by lia.
    apply IH; [by replace (Z.succ a) with (a + 1) by lia|].
    intros i s0 Hi. apply Hbody. lia.
Qed.

Lemma for_each_range {St} (Inv : Z -> St -> Prop) (E : error -> Prop)
    (body : Z -> St -> result St) (n : Z) (s : St) :
  Inv 0 s ->
  (forall i s, 0 <= i < n -> Inv i s ->
     match body i s with Ok s' => Inv (i + 1) s' | Raise e => E e end) ->
  match for_each body (range n) s with
  | Ok s' => Inv (Z.max 0 n) s'
  | Raise e => E e
  end.
Proof.
  intros Hs Hbody. unfold range.
  destruct (Z.le_gt_cases n 0) as [Hn|Hn].
  - rewrite seqZ_nil by done. simpl. by replace (Z.max 0 n) with 0 by lia.
  - pose proof (for_each_seqZ Inv E body (Z.to_nat n) 0 s Hs) as H.
    rewrite Z2Nat.id in H by lia. replace (Z.max 0 n) with (0 + n) by lia.
    apply H. intros i s0 Hi. apply Hbody. lia.
Qed.

Lemma for_break_seqZ {St} (Inv : Z -> St -> Prop) (Brk : St -> Prop) (E : error -> Prop)
    (body : Z -> St -> result (St * bool)) (k : nat) (a : Z) (s : St) :
  Inv a s ->
  (forall i s, a <= i < a + Z.of_nat k -> Inv i s ->
     match body i s with
     | Ok sb => if sb.2 : bool then Brk sb.1 else Inv (i + 1) sb.1
     | Raise e => E e
     end) ->
  match for_break body (seqZ a (Z.of_nat k)) s with
  | Ok s' => Inv (a + Z.of_nat k) s' \/ Brk s'
  | Raise e => E e
  end.
Proof.
  revert a s. induction k as [|k IH]; intros a s Hs Hbody.
  - simpl. left. by rewrite Z.add_0_r.
  - rewrite seqZ_cons by lia. simpl.
    pose proof (Hbody a s ltac:(lia) Hs) as H.
    destruct (body a s) as [[s' b]|e]; [|done]. simpl in *.
    destruct b; [by right|].
    replace (Z.pred (Z.of_nat (S k))) with (Z.of_nat k) by lia.
    replace (a + Z.of_nat (S k)) with (Z.succ a + Z.of_nat k) by lia.
    apply IH; [by replace (Z.succ a) with (a + 1) by lia|].
    intros i s0 Hi. apply Hbody. lia.
Qed.

Lemma for_break_range {St} (Inv : Z -> St -> Prop) (Brk : St -> Prop) (E : error -> Prop)
    (body : Z -> St -> result (St * bool)) (n : Z) (s : St) :
  Inv 0 s ->
  (forall i s, 0 <= i < n -> Inv i s ->
     match body i s with
     | Ok sb => if sb.2 : bool then Brk sb.1 else Inv (i + 1) sb.1
     | Raise e => E e
     end) ->
  match for_break body (range n) s with
  | Ok s' => Inv (Z.max 0 n) s' \/ Brk s'
  | Raise e => E e
  end.
Proof.
  intros Hs Hbody. unfold range.
  destruct (Z.le_gt_cases n 0) as [Hn|Hn].
  - rewrite seqZ_nil by done. simpl. left. by replace (Z.max 0 n) with 0 by lia.
  - pose proof (for_break_seqZ Inv Brk E body (Z.to_nat n) 0 s Hs) as H.
    rewrite Z2Nat.id in H by lia. replace (Z.max 0 n) with (0 + n) by lia.
    apply H. intros i s0 Hi. apply Hbody. lia.
Qed.

(** ** An unplayed cell exists unless the board is full *)

Lemma forallb_false {A} (p : A -> bool) (l : list A) :
  forallb p l = false -> exists x, x ∈ l /\ p x = false.
Proof.
  induction l as [|x l IH]; [done|]. simpl.
  destruct (p x) eqn:E; simpl.
  - intros H. destruct (IH H) as (y & Hy & Hpy). exists y. split; [by right|done].
  - intros _. exists x. split; [left|done].
Qed.

Lemma board_not_full (self : TicTacToeGame) :
  well_formed self -> board_full self = false ->
  exists r c, candidate self (r, c).
Proof.
  intros Hwf Hfull. unfold board_full in Hfull.
  apply forallb_false in Hfull as (m & Hm & Hlab).
  apply negb_false_iff, String.eqb_eq in Hlab.
  apply list_elem_of_In, in_concat in Hm as (rw & Hrw & Hmrw).
  apply list_elem_of_In in Hrw, Hmrw.
  apply list_elem_of_lookup in Hrw as (i & Hi).
  apply list_elem_of_lookup in Hmrw as (j & Hj).
  pose proof (wf_move self Hwf i j rw m Hi Hj) as Hmove.
  pose proof (lookup_lt_Some _ _ _ Hi) as Hilt. rewrite (wf_length self Hwf) in Hilt.
  pose proof (lookup_lt_Some _ _ _ Hj) as Hjlt.
  rewrite (wf_row_length self Hwf i rw Hi) in Hjlt.
  exists (Z.of_nat i), (Z.of_nat j). unfold candidate, label_at, cell. simpl.
  split; [lia|]. split; [lia|].
  rewrite (py_index_lookup _ _ _ Hi). simpl.
  by rewrite (py_index_lookup _ _ _ Hj).
Qed.

Lemma candidate_cell (self : TicTacToeGame) (r c : Z) :
  well_formed self -> candidate self (r, c) -> cell self r c = Ok (mkMove r c "").
Proof.
  intros Hwf (Hr & Hc & Hl). simpl in *.
  destruct (wf_cell self Hwf r c Hr Hc) as (s & Hs).
  unfold label_at in Hl. simpl in Hl. rewrite Hs in Hl. simpl in Hl. by subst.
Qed.

Lemma not_candidate_cell (self : TicTacToeGame) (r c : Z) :
  well_formed self ->
  0 <= r < board_size self -> 0 <= c < board_size self ->
  ~ candidate self (r, c) ->
  exists s, cell self r c = Ok (mkMove r c s) /\ String.eqb s "" = false.
Proof.
  intros Hwf Hr Hc Hn.
  destruct (wf_cell self Hwf r c Hr Hc) as (s & Hs).
  exists s. split; [done|]. apply String.eqb_neq. intros ->.
  apply Hn. unfold candidate, label_at. simpl. by rewrite Hs.
Qed.

(** ** The search returns an integer score and restores the board *)

Lemma heuristic_evaluation_value (self : TicTacToeGame) :
  well_formed self -> heuristic_evaluation self = Ok (open_lines_balance self).
Proof.
  intros Hwf. unfold heuristic_evaluation, open_lines_balance.
  rewrite (heuristic_loop_inside self Hwf) by (by apply wf_combos_inside).
  done.
Qed.

Lemma py_max_finite (best : number) (z : Z) :
  best ≠ PosInf -> finite (py_max best (Int z)).
Proof.
  unfold py_max, finite. destruct best as [|y|]; simpl; [eauto| |done].
  destruct (y <? z); eauto.
Qed.

Lemma py_min_finite (best : number) (z : Z) :
  best ≠ NegInf -> finite (py_min best (Int z)).
Proof.
  unfold py_min, finite. destruct best as [|y|]; simpl; [done| |eauto].
  destruct (z <? y); eauto.
Qed.

Lemma finite_sane (is_maximizing : bool) (best : number) :
  finite best -> sane is_maximizing best.
Proof. intros [z ->]. unfold sane. by destruct is_maximizing. Qed.

Lemma minimax_cell_step
    (child : TicTacToeGame -> number -> number -> result (number * TicTacToeGame))
    (self : TicTacToeGame) (is_maximizing : bool) (r c : Z) (best alpha beta : number) :
  well_formed self ->
  0 <= r < board_size self -> 0 <= c < board_size self ->
  (forall placed, well_formed placed ->
     (empty_cells placed + 1 = empty_cells self)%nat ->
     forall a b, exists z, child placed a b = Ok (Int z, placed)) ->
  sane is_maximizing best ->
  exists best' alpha' beta' brk,
    minimax_cell child is_maximizing r c (self, best, alpha, beta)
    = Ok ((self, best', alpha', beta'), brk) /\
    sane is_maximizing best' /\
    (finite best -> finite best') /\
    (candidate self (r, c) -> finite best') /\
    (brk = true -> finite best').
Proof.
  intros Hwf Hr Hc Hchild Hsane. unfold minimax_cell.
  destruct (wf_cell self Hwf r c Hr Hc) as (s & Hcell). rewrite Hcell. simpl.
  destruct (String.eqb s "") eqn:Es.
  - apply String.eqb_eq in Es. subst s.
    set (mark := if is_maximizing then "O"%string else "X"%string).
    assert (Hmark : mark ≠ ""%string) by (unfold mark; by destruct is_maximizing).
    destruct (place_well_formed self Hwf r c Hr Hc mark) as (placed & Hset & Hwf' & _ & _).
    rewrite Hset. simpl.
    pose proof (place_empty_cells self Hwf r c Hr Hc mark placed Hmark Hcell Hset) as Hcount.
    destruct (Hchild placed Hwf' Hcount alpha beta) as (z & ->). simpl.
    rewrite (place_undo self Hwf r c Hr Hc mark placed Hcell Hset). simpl.
    destruct is_maximizing.
    + assert (Hfin : finite (py_max best (Int z))) by (by apply py_max_finite).
      do 4 eexists. split; [done|]. split; [by apply finite_sane|]. done.
    + assert (Hfin : finite (py_min best (Int z))) by (by apply py_min_finite).
      do 4 eexists. split; [done|]. split; [by apply finite_sane|]. done.
  - exists best, alpha, beta, false. split; [done|]. split; [done|].
    split; [done|]. split; [|done].
    intros (_ & _ & Hl). unfold label_at in Hl. simpl in Hl. rewrite Hcell in Hl.
    simpl in Hl. subst s. done.
Qed.

Lemma minimax_fuel_total (fuel : nat) :
  forall self, well_formed self -> (empty_cells self < fuel)%nat ->
  forall is_maximizing alpha beta max_depth depth,
  exists z,
    minimax_fuel fuel self is_maximizing alpha beta max_depth depth = Ok (Int z, self).
Proof.
  induction fuel as [|fuel IH]; intros self Hwf Hlt im alpha beta md d; [lia|].
  cbn [minimax_fuel]. rewrite (get_winner_well_formed self Hwf).
  cbn [mbind result_bind].
  pose proof (heuristic_evaluation_value self Hwf) as Hh.
  destruct (first_filled self (_winning_combos self)) as [[mark combo]|] eqn:Ef.
  { (* a combo is filled *)
    cbn [fst]. rewrite bool_decide_eq_true_2, orb_true_r by done.
    destruct (winner_is (Some mark) "X"); [eauto|].
    destruct (winner_is (Some mark) "O"); [eauto|].
    destruct (winner_is (Some mark) "TIE"); [eauto|].
    rewrite Hh. simpl. eauto. }
  destruct (board_full self) eqn:Efull.
  { (* a tie *)
    cbn [fst]. rewrite bool_decide_eq_true_2, orb_true_r by done. simpl. eauto. }
  cbn [fst]. rewrite bool_decide_eq_false_2, orb_false_r by (intros H; by apply H).
  destruct (md =? d).
  { (* cut off by the depth bound *) simpl. rewrite Hh. simpl. eauto. }
  destruct (board_not_full self Hwf Efull) as (r0 & c0 & Hcand).
  set (child := fun s a b => minimax_fuel fuel s (negb im) a b md (d + 1)).
  assert (Hchild : forall placed, well_formed placed ->
            (empty_cells placed + 1 = empty_cells self)%nat ->
            forall a b, exists z, child placed a b = Ok (Int z, placed)).
  { intros placed Hwf' Hcount a b. apply IH; [done|lia]. }
  set (InvC := fun (r c : Z) (st : search_state) =>
         let '(g, best, _, _) := st in
         g = self /\ sane im best /\ (scanned_before r c (r0, c0) -> finite best)).
  set (Brk := fun (st : search_state) =>
         let '(g, best, _, _) := st in g = self /\ finite best).
  assert (Hinit : InvC 0 0 (self, if im then NegInf else PosInf, alpha, beta)).
  { unfold InvC, sane, scanned_before. simpl.
    destruct Hcand as ((? & ?) & (? & ?) & _). simpl in *.
    split; [done|]. split; [by destruct im|]. lia. }
  assert (Hcell : forall r, 0 <= r < board_size self ->
            forall c st, 0 <= c < board_size self -> InvC r c st ->
            match minimax_cell child im r c st with
            | Ok sb => if sb.2 : bool then Brk sb.1 else InvC r (c + 1) sb.1
            | Raise e => False
            end).
  { intros r Hr c [[[g best] a] b] Hc (-> & Hsane & Hfin).
    destruct (minimax_cell_step child self im r c best a b Hwf Hr Hc Hchild Hsane)
      as (best' & a' & b' & brk & -> & Hsane' & Hkeep & Hnew & Hbrk).
    simpl. destruct brk; [by split; [|apply Hbrk]|].
    split; [done|]. split; [done|]. unfold scanned_before in *. simpl in *.
    intros [H|[-> H]]; [apply Hkeep, Hfin; by left|].
    destruct (decide (c0 = c)) as [->|]; [by apply Hnew|].
    apply Hkeep, Hfin. right. lia. }
  assert (Hrow : forall r st, 0 <= r < board_size self -> InvC r 0 st ->
            match for_break (minimax_cell child im r) (range (board_size self)) st with
            | Ok s' => InvC (r + 1) 0 s'
            | Raise e => False
            end).
  { intros r st Hr Hinv.
    pose proof (for_break_range (InvC r) Brk (fun _ => False)
                  (minimax_cell child im r) (board_size self) st Hinv (Hcell r Hr)) as Hfb.
    destruct (for_break (minimax_cell child im r) (range (board_size self)) st)
      as [[[[g best] a] b]|e]; [|done].
    destruct Hfb as [(-> & Hsane & Hfin)|(-> & Hfin)].
    - split; [done|]. split; [done|]. unfold scanned_before in *. simpl in *.
      destruct Hcand as (_ & (? & ?) & _). simpl in *.
      intros [Hv|[_ Hv]]; [|lia]. apply Hfin. lia.
    - split; [done|]. split; [by apply finite_sane|]. done. }
  pose proof (for_each_range (fun r => InvC r 0) (fun _ => False)
                (fun r => for_break (minimax_cell child im r) (range (board_size self)))
                (board_size self) _ Hinit Hrow) as Hloop.
  destruct (for_each _ _ _) as [[[[g best] a] b]|e]; [|done].
  destruct Hloop as (-> & _ & Hfin).
  destruct Hfin as [z ->]; [|simpl; eauto].
  unfold scanned_before. simpl. destruct Hcand as ((? & ?) & _). simpl in *. lia.
Qed.

Lemma minimax_total (self : TicTacToeGame) (is_maximizing : bool)
    (alpha beta : number) (max_depth depth : Z) :
  well_formed self ->
  exists z, minimax self is_maximizing alpha beta max_depth depth = Ok (Int z, self).
Proof. intros Hwf. unfold minimax. apply minimax_fuel_total; [done|lia]. Qed.

(** ** The scan of [ai] *)

Lemma scanned_before_succ (r c : Z) (rc : coord) :
  scanned_before r (c + 1) rc <-> scanned_before r c rc \/ rc = (r, c).
Proof.
  destruct rc as [r' c']. unfold scanned_before. simpl. split.
  - intros [H|[-> H]]; [by left; left|].
    destruct (decide (c' = c)) as [->|]; [by right|]. left. right. lia.
  - intros [[H|[-> H]]|[= -> ->]]; lia.
Qed.

Lemma scanned_before_next_row (self : TicTacToeGame) (r : Z) (rc : coord) :
  candidate self rc ->
  scanned_before (r + 1) 0 rc <-> scanned_before r (Z.max 0 (board_size self)) rc.
Proof.
  destruct rc as [r' c']. unfold candidate, scanned_before. simpl. lia.
Qed.

Section Scan.
Context (self : TicTacToeGame) (Hwf : well_formed self) (cells_left : Z).
Context (dres : result Z).
Context (Hdres : ai_max_depth (board_size self ^ 2) cells_left = dres).

Lemma ai_invariant_skip (r c : Z) (st : ai_state) :
  ~ candidate self (r, c) ->
  ai_invariant self dres r c st -> ai_invariant self dres r (c + 1) st.
Proof.
  intros Hn. destruct st as [[g best] mv]. intros (-> & Hcases). split; [done|].
  destruct Hcases as [(-> & -> & Hnone)|(d & rc0 & z & Hd & -> & -> & Hbest)].
  - left. split; [done|]. split; [done|]. intros rc Hrc Hs.
    apply scanned_before_succ in Hs as [Hs| ->]; [by apply (Hnone rc)|done].
  - right. exists d, rc0, z. split; [done|]. split; [done|]. split; [done|].
    destruct Hbest as (Hc0 & Hs0 & Hz & Hall).
    split; [done|]. split; [apply scanned_before_succ; by left|]. split; [done|].
    intros rc Hrc Hs. apply scanned_before_succ in Hs as [Hs| ->]; [by apply Hall|done].
Qed.

Lemma ai_invariant_next_row (r : Z) (st : ai_state) :
  ai_invariant self dres r (Z.max 0 (board_size self)) st ->
  ai_invariant self dres (r + 1) 0 st.
Proof.
  destruct st as [[g best] mv]. intros (-> & Hcases). split; [done|].
  destruct Hcases as [(-> & -> & Hnone)|(d & rc0 & z & Hd & -> & -> & Hbest)].
  - left. split; [done|]. split; [done|]. intros rc Hrc Hs.
    apply (Hnone rc Hrc). by apply (scanned_before_next_row self r rc Hrc).
  - right. exists d, rc0, z. split; [done|]. split; [done|]. split; [done|].
    destruct Hbest as (Hc0 & Hs0 & Hz & Hall).
    split; [done|].
    split; [by apply (scanned_before_next_row self r rc0 Hc0)|]. split; [done|].
    intros rc Hrc Hs. apply Hall; [done|].
    by apply (scanned_before_next_row self r rc Hrc).
Qed.

Lemma ai_cell_step (r c : Z) (st : ai_state) :
  0 <= r < board_size self -> 0 <= c < board_size self ->
  ai_invariant self dres r c st ->
  match ai_cell (board_size self ^ 2) cells_left r c st with
  | Ok st' => ai_invariant self dres r (c + 1) st'
  | Raise e => dres = Raise e /\ exists rc, candidate self rc
  end.
Proof.
  intros Hr Hc Hinv.
  destruct (wf_cell self Hwf r c Hr Hc) as (s & Hcell).
  destruct (String.eqb s "") eqn:Es.
  2:{ (* a played cell is skipped *)
    assert (Hn : ~ candidate self (r, c)).
    { intros (_ & _ & Hl). unfold label_at in Hl. simpl in Hl.
      rewrite Hcell in Hl. simpl in Hl. subst s. done. }
    pose proof (ai_invariant_skip r c st Hn Hinv) as Hskip.
    destruct st as [[g best] mv]. destruct Hinv as (-> & _).
    unfold ai_cell. rewrite Hcell. simpl. rewrite Es. done. }
  apply String.eqb_eq in Es. subst s.
  assert (Hcand : candidate self (r, c)).
  { unfold candidate, label_at. simpl. by rewrite Hcell. }
  destruct st as [[g best] mv]. destruct Hinv as (-> & Hcases).
  unfold ai_cell. rewrite Hcell. simpl.
  destruct (place_well_formed self Hwf r c Hr Hc "O") as (placed & Hset & Hwf' & _ & _).
  rewrite Hset. simpl. rewrite Hdres.
  destruct dres as [d|e] eqn:Ed; [|by split; [|exists (r, c)]]. simpl.
  destruct (minimax_total placed false NegInf PosInf d 0 Hwf') as (z & Hmm).
  rewrite Hmm. simpl.
  rewrite (place_undo self Hwf r c Hr Hc "O" placed Hcell Hset). simpl.
  assert (Hscore : candidate_score self d (r, c) = Ok (Int z)).
  { unfold candidate_score. simpl. rewrite Hset. simpl. by rewrite Hmm. }
  destruct Hcases as [(-> & -> & Hnone)|(d' & rc0 & z0 & Hd & -> & -> & Hbest)].
  - (* the first candidate *)
    simpl. split; [done|]. right. exists d, (r, c), z.
    split; [done|]. split; [done|]. split; [done|].
    split; [done|]. split; [apply scanned_before_succ; by right|]. split; [done|].
    intros rc Hrc Hs. apply scanned_before_succ in Hs as [Hs| ->].
    + by destruct (Hnone rc Hrc).
    + exists z. split; [done|]. split; [lia|]. unfold scanned_before. simpl. lia.
  - injection Hd as <-.
    destruct Hbest as (Hc0 & Hs0 & Hz & Hall). simpl.
    destruct (Z.ltb_spec z0 z) as [Hlt|Hge].
    + (* a strictly better candidate replaces the best one *)
      split; [done|]. right. exists d, (r, c), z.
      split; [done|]. split; [done|]. split; [done|].
      split; [done|]. split; [apply scanned_before_succ; by right|]. split; [done|].
      intros rc Hrc Hs. apply scanned_before_succ in Hs as [Hs| ->].
      * destruct (Hall rc Hrc Hs) as (z' & Hz' & Hle & _).
        exists z'. split; [done|]. lia.
      * exists z. split; [done|]. split; [lia|]. unfold scanned_before. simpl. lia.
    + (* otherwise the best one is kept *)
      split; [done|]. right. exists d, rc0, z0.
      split; [done|]. split; [done|]. split; [done|].
      split; [done|]. split; [apply scanned_before_succ; by left|]. split; [done|].
      intros rc Hrc Hs. apply scanned_before_succ in Hs as [Hs| ->]; [by apply Hall|].
      exists z. split; [done|]. split; [lia|].
      destruct rc0 as [r0 c0]. unfold scanned_before in *. simpl in *. lia.
Qed.

Lemma ai_loops (st : ai_state) :
  ai_invariant self dres 0 0 st ->
  match for_each (fun r => for_each (ai_cell (board_size self ^ 2) cells_left r)
                             (range (board_size self)))
                 (range (board_size self)) st with
  | Ok st' => ai_invariant self dres (Z.max 0 (board_size self)) 0 st'
  | Raise e => dres = Raise e /\ exists rc, candidate self rc
  end.
Proof.
  intros Hinit.
  apply (for_each_range (fun r => ai_invariant self dres r 0)
           (fun e => dres = Raise e /\ exists rc, candidate self rc));
    [done|].
  intros r st0 Hr Hinv.
  pose proof (for_each_range (ai_invariant self dres r)
                (fun e => dres = Raise e /\ exists rc, candidate self rc)
                (ai_cell (board_size self ^ 2) cells_left r) (board_size self) st0 Hinv
                (fun c st1 Hc => ai_cell_step r c st1 Hr Hc)) as Hrow.
  destruct (for_each _ _ st0) as [st1|e]; [|done].
  by apply ai_invariant_next_row.
Qed.

(** The outcome of [ai]: it raises only when the depth expression does
    and a candidate exists;
    otherwise it hands back the game object it was given, with no move
    when there is no candidate and the first best candidate when there
    is one. *)
Lemma ai_outcome :
  match ai self cells_left with
  | Ok (mv, g) =>
      g = self /\
      ((mv = None /\ forall rc, ~ candidate self rc) \/
       (exists d rc0 z, dres = Ok d /\ mv = Some rc0 /\ first_best self d rc0 z))
  | Raise e => dres = Raise e /\ exists rc, candidate self rc
  end.
Proof.
  unfold ai.
  assert (Hinit : ai_invariant self dres 0 0 (self, NegInf, None)).
  { split; [done|]. left. split; [done|]. split; [done|].
    intros [r c] (Hr & Hc & _). unfold scanned_before. simpl in *. lia. }
  pose proof (ai_loops _ Hinit) as Hloops.
  destruct (for_each _ _ _) as [[[g best] mv]|e]; [|done]. simpl.
  destruct Hloops as (-> & Hcases). split; [done|].
  assert (Hall : forall rc, candidate self rc ->
            scanned_before (Z.max 0 (board_size self)) 0 rc).
  { intros [r c] (Hr & Hc & _). unfold scanned_before. simpl in *. lia. }
  destruct Hcases as [(-> & -> & Hnone)|(d & rc0 & z & Hd & -> & -> & Hbest)].
  - left. split; [done|]. intros rc Hrc. apply (Hnone rc Hrc). by apply Hall.
  - right. exists d, rc0, z. split; [done|]. split; [done|].
    destruct Hbest as (Hc0 & Hs0 & Hz & Hbest).
    split; [done|]. split; [done|]. intros rc Hrc. apply Hbest; [done|]. by apply Hall.
Qed.
End Scan.

(** ** Concrete positions *)

Lemma init_fresh_position : init DEFAULT_PLAYERS BOARD_SIZE = Ok fresh_position.
Proof. reflexivity. Qed.

Lemma game_of_labels_well_formed (a b c d e f g h i : string) :
  well_formed (game_of_labels [[a; b; c]; [d; e; f]; [g; h; i]]).
Proof. split; reflexivity. Qed.

(** The position [missed_win_position] is reached in play against [ai]. *)
Lemma missed_win_position_reached :
  exists g1 g2 g3 g4,
    set_cell fresh_position 0 0 (mkMove 0 0 "X") = Ok g1 /\
    ai g1 8 = Ok (Some (1, 1), g1) /\
    set_cell g1 1 1 (mkMove 1 1 "O") = Ok g2 /\
    set_cell g2 0 2 (mkMove 0 2 "X") = Ok g3 /\
    ai g3 6 = Ok (Some (0, 1), g3) /\
    set_cell g3 0 1 (mkMove 0 1 "O") = Ok g4 /\
    set_cell g4 1 0 (mkMove 1 0 "X") = Ok missed_win_position.
Proof. do 4 eexists. repeat split; vm_compute; reflexivity. Qed.

(** With a win on (2,1) at hand, [ai] answers (2,0). *)
Lemma ai_misses_win :
  ai missed_win_position 4 = Ok (Some (2, 0), missed_win_position) /\
  set_cell missed_win_position 2 1 (mkMove 2 1 "O") = Ok o_line_position /\
  filled_by o_line_position "O" [(0, 1); (1, 1); (2, 1)] = true.
Proof. repeat split; vm_compute; reflexivity. Qed.

(** ** Terminal scores of [minimax] *)

Lemma minimax_terminal (self : TicTacToeGame) (is_maximizing : bool)
    (alpha beta : number) (max_depth depth : Z) (winner : option string)
    (combo : list coord) :
  get_winner self = Ok (winner, combo) ->
  max_depth = depth \/ winner ≠ None ->
  minimax self is_maximizing alpha beta max_depth depth
  = if winner_is winner "X" then Ok (Int (-10 + depth), self)
    else if winner_is winner "O" then Ok (Int (10 - depth), self)
    else if winner_is winner "TIE" then Ok (Int 0, self)
    else h ← heuristic_evaluation self; Ok (Int h, self).
Proof.
  intros Hw Hstop. unfold minimax. cbn [minimax_fuel]. rewrite Hw.
  cbn [mbind result_bind fst].
  destruct Hstop as [->|Hstop].
  - by rewrite Z.eqb_refl.
  - by rewrite (bool_decide_eq_true_2 _ Hstop), orb_true_r.
Qed.

(** A win of "X" scores [-10 + depth], a tie 0, and an undecided
    position at the depth bound the heuristic value. *)
Lemma minimax_terminal_X (self : TicTacToeGame) (is_maximizing : bool)
    (alpha beta : number) (max_depth depth : Z) (combo : list coord) :
  get_winner self = Ok (Some "X"%string, combo) ->
  minimax self is_maximizing alpha beta max_depth depth = Ok (Int (-10 + depth), self).
Proof. intros Hw. rewrite (minimax_terminal _ _ _ _ _ _ _ _ Hw); [done|by right]. Qed.

Lemma minimax_terminal_tie (self : TicTacToeGame) (is_maximizing : bool)
    (alpha beta : number) (max_depth depth : Z) (combo : list coord) :
  get_winner self = Ok (Some "TIE"%string, combo) ->
  minimax self is_maximizing alpha beta max_depth depth = Ok (Int 0, self).
Proof. intros Hw. rewrite (minimax_terminal _ _ _ _ _ _ _ _ Hw); [done|by right]. Qed.

Lemma minimax_cut_off (self : TicTacToeGame) (is_maximizing : bool)
    (alpha beta : number) (depth : Z) (combo : list coord) :
  get_winner self = Ok (None, combo) ->
  minimax self is_maximizing alpha beta depth depth
  = h ← heuristic_evaluation self; Ok (Int h, self).
Proof. intros Hw. rewrite (minimax_terminal _ _ _ _ _ _ _ _ Hw); [done|by left]. Qed.

(** A win of "O" reaches [minimax] under the label "Y", which none of
    its three tests matches: the position is scored by the heuristic. *)
Lemma minimax_terminal_Y (self : TicTacToeGame) (is_maximizing : bool)
    (alpha beta : number) (max_depth depth : Z) (combo : list coord) :
  get_winner self = Ok (Some "Y"%string, combo) ->
  minimax self is_maximizing alpha beta max_depth depth
  = h ← heuristic_evaluation self; Ok (Int h, self).
Proof. intros Hw. rewrite (minimax_terminal _ _ _ _ _ _ _ _ Hw); [done|by right]. Qed.

(** In src/test.py the label "Y" is the one [minimax] tests: a win of
    "O" scores [10 - depth] there, and with it [ai] takes the win that
    [ai] of src/tictactoe.py passes over on [missed_win_position]. *)
Lemma test_py_minimax_scores_O_win (self : TicTacToeGame) (is_maximizing : bool)
    (alpha beta : number) (depth : Z) :
  test_py.get_winner self = Ok (Some "Y"%string) ->
  test_py.minimax self is_maximizing alpha beta depth = Ok (Int (10 - depth), self).
Proof.
  intros Hw. unfold test_py.minimax. cbn [test_py.minimax_fuel]. by rewrite Hw.
Qed.

Lemma test_py_ai_takes_win :
  test_py.get_winner o_line_position = Ok (Some "Y"%string) /\
  test_py.ai missed_win_position = Ok (Some (2, 1), missed_win_position).
Proof. split; vm_compute; reflexivity. Qed.

(** C1. On the position [o_line_position], whose middle column is all
    "O", [get_winner] reports the label "Y" and [minimax], called at
    depth 0 with bound 3 as [ai] does, returns the heuristic value 0
    where a win of "O" at depth 0 is to score [10 - 0]. *)
Theorem minimax_O_win_scored_by_heuristic :
  get_winner o_line_position = Ok (Some "Y"%string, [(0, 1); (1, 1); (2, 1)]) /\
  heuristic_evaluation o_line_position = Ok 0 /\
  minimax o_line_position false NegInf PosInf 3 0 = Ok (Int 0, o_line_position) /\
  Int 0 ≠ Int (10 - 0).
Proof. repeat split; try (vm_compute; reflexivity). discriminate. Qed.

(** ** The outcome function *)

Lemma scan_combos_never_O (self : TicTacToeGame) (combos : list (list coord))
    (combo : list coord) :
  scan_combos self combos ≠ Ok (Some ("O"%string, combo)).
Proof.
  induction combos as [|c rest IH]; [done|]. simpl.
  destruct (all_labelled self "X" c) as [[]|]; [done| |done]. simpl.
  destruct (all_labelled self "O" c) as [[]|]; [done| |done]. simpl. done.
Qed.

(** C2. [get_winner] never reports a win under the label "O": on
    [o_line_position], whose middle column is all "O", it returns the
    label "Y" with that column. *)
Theorem get_winner_reports_Y_for_O :
  (forall self combo, get_winner self ≠ Ok (Some "O"%string, combo)) /\
  filled_by o_line_position "O" [(0, 1); (1, 1); (2, 1)] = true /\
  get_winner o_line_position = Ok (Some "Y"%string, [(0, 1); (1, 1); (2, 1)]).
Proof.
  split; [|split; vm_compute; reflexivity].
  intros self combo. unfold get_winner.
  pose proof (scan_combos_never_O self (_winning_combos self) combo) as Hscan.
  destruct (scan_combos self (_winning_combos self)) as [[[mark c]|]|e]; simpl.
  - intros [= -> ->]. done.
  - by destruct (board_full self).
  - done.
Qed.

(** The rest of the outcome function is as specified: a combo filled by
    "X" is reported for "X" with that combo, and with no filled combo
    the outcome is a tie exactly when no cell is unplayed. *)
Lemma get_winner_X_tie_in_progress (self : TicTacToeGame) :
  well_formed self ->
  (forall combo, get_winner self = Ok (Some "X"%string, combo) ->
     combo ∈ _winning_combos self /\ filled_by self "X" combo = true) /\
  (first_filled self (_winning_combos self) = None ->
     get_winner self = Ok (if board_full self then Some "TIE"%string else None, [])).
Proof.
  intros Hwf. rewrite (get_winner_well_formed self Hwf). split.
  - intros combo.
    assert (Hff : forall combos mark,
              first_filled self combos = Some (mark, combo) ->
              combo ∈ combos /\
              (mark = "X"%string -> filled_by self "X" combo = true)).
    { induction combos as [|c rest IH]; [done|]. intros mark. simpl.
      destruct (filled_by self "X" c) eqn:Ex; [intros [= <- <-]; split; [left|done]|].
      destruct (filled_by self "O" c) eqn:Eo; [intros [= <- <-]; split; [left|done]|].
      intros H. destruct (IH mark H). split; [by right|done]. }
    destruct (first_filled self (_winning_combos self)) as [[mark c]|] eqn:Ef.
    + intros [= -> ->]. destruct (Hff _ _ Ef). auto.
    + by destruct (board_full self).
  - intros ->. by destruct (board_full self).
Qed.

(** ** Move selection *)

(** C3. On a well-formed game, whatever [cells_left] is, a call of [ai]
    that returns hands back the game object unchanged, and [ai] does
    return whenever its depth expression has a value; every call of
    [minimax], with any window, depth and bound (hence on every pruning
    path), returns the game object it was given. *)
Theorem ai_restores_board (self : TicTacToeGame) (cells_left : Z) :
  well_formed self ->
  (forall mv g, ai self cells_left = Ok (mv, g) -> g = self) /\
  (forall d, ai_max_depth (board_size self ^ 2) cells_left = Ok d ->
     exists mv, ai self cells_left = Ok (mv, self)) /\
  (forall is_maximizing alpha beta max_depth depth,
     exists z, minimax self is_maximizing alpha beta max_depth depth = Ok (Int z, self)).
Proof.
  intros Hwf. pose proof (ai_outcome self Hwf cells_left _ eq_refl) as Hout.
  split; [|split].
  - intros mv g Hai. rewrite Hai in Hout. by destruct Hout.
  - intros d Hd. destruct (ai self cells_left) as [[mv g]|e].
    + destruct Hout as (-> & _). by exists mv.
    + destruct Hout as (Hout & _). congruence.
  - intros. by apply minimax_total.
Qed.

Lemma ai_restores_board_witness :
  well_formed missed_win_position /\
  (forall mv g, ai missed_win_position 4 = Ok (mv, g) -> g = missed_win_position) /\
  (forall d, ai_max_depth (board_size missed_win_position ^ 2) 4 = Ok d ->
     exists mv, ai missed_win_position 4 = Ok (mv, missed_win_position)) /\
  (forall is_maximizing alpha beta max_depth depth,
     exists z, minimax missed_win_position is_maximizing alpha beta max_depth depth
               = Ok (Int z, missed_win_position)).
Proof.
  split; [split; reflexivity|].
  apply (ai_restores_board missed_win_position 4). split; reflexivity.
Defined.

(** The claim of C5 fails for a [cells_left] that makes the quotient of
    the depth expression too large for a float: on a well-formed board
    with unplayed cells the division raises [OverflowError], after the
    first candidate has been placed, and [ai] returns no cell. *)
Lemma ai_every_cells_left_counterexample :
  well_formed missed_win_position /\
  (exists rc, candidate missed_win_position rc) /\
  ai_max_depth (board_size missed_win_position ^ 2) (- 2 ^ 1100) = Raise OverflowError /\
  ai missed_win_position (- 2 ^ 1100) = Raise OverflowError.
Proof.
  split; [split; reflexivity|]. split.
  - exists (1, 2). unfold candidate. simpl. split; [lia|]. split; [lia|]. reflexivity.
  - split; vm_compute; reflexivity.
Qed.

(** C5, amended. On a well-formed game with an unplayed cell, for every
    [cells_left]: when the depth expression has a value [d], [ai]
    returns an unplayed cell whose score (the value of [minimax] at
    bound [d] on the board with "O" placed there) is the greatest among
    the unplayed cells, every unplayed cell before it in row-major order
    scoring strictly less, and the game object comes back unchanged, so
    a repeated call returns the same cell; when the depth expression
    raises, [ai] raises the same exception and returns no cell. *)
Theorem ai_returns_first_best (self : TicTacToeGame) (cells_left : Z) :
  well_formed self ->
  (exists rc, candidate self rc) ->
  match ai_max_depth (board_size self ^ 2) cells_left with
  | Ok d =>
      exists rc0 z,
        ai self cells_left = Ok (Some rc0, self) /\
        first_best self d rc0 z /\
        (forall mv g, ai self cells_left = Ok (mv, g) -> ai g cells_left = Ok (mv, g))
  | Raise e => ai self cells_left = Raise e
  end.
Proof.
  intros Hwf (rc & Hrc). pose proof (ai_outcome self Hwf cells_left _ eq_refl) as Hout.
  destruct (ai self cells_left) as [[mv g]|e] eqn:Hai.
  - destruct Hout as (-> & [(-> & Hnone)|(d' & rc0 & z & Hd' & -> & Hbest)]).
    + by destruct (Hnone rc).
    + rewrite Hd'. exists rc0, z. split; [done|]. split; [done|].
      intros mv g [= <- <-]. done.
  - destruct Hout as (-> & _). done.
Qed.

Lemma ai_returns_first_best_witness :
  well_formed missed_win_position /\
  (exists rc, candidate missed_win_position rc) /\
  ai_max_depth (board_size missed_win_position ^ 2) 4 = Ok 3 /\
  exists rc0 z,
    ai missed_win_position 4 = Ok (Some rc0, missed_win_position) /\
    first_best missed_win_position 3 rc0 z /\
    (forall mv g, ai missed_win_position 4 = Ok (mv, g) -> ai g 4 = Ok (mv, g)).
Proof.
  assert (Hwf : well_formed missed_win_position) by (split; reflexivity).
  assert (Hd : ai_max_depth (board_size missed_win_position ^ 2) 4 = Ok 3)
    by reflexivity.
  assert (Hc : exists rc, candidate missed_win_position rc).
  { exists (1, 2). unfold candidate. simpl. split; [lia|]. split; [lia|]. reflexivity. }
  split; [done|]. split; [done|]. split; [done|].
  pose proof (ai_returns_first_best missed_win_position 4 Hwf Hc) as H.
  rewrite Hd in H. exact H.
Defined.

Lemma no_candidate_when_full (self : TicTacToeGame) (rc : coord) :
  well_formed self -> empty_cells self = 0%nat -> ~ candidate self rc.
Proof.
  intros Hwf Hzero Hrc. destruct rc as [r c].
  pose proof Hrc as (Hr & Hc & Hl). simpl in Hr, Hc.
  destruct (wf_lookup self Hwf r c Hr Hc) as (rw & s & Hi & Hj).
  pose proof (candidate_cell self r c Hwf Hrc) as Hcell.
  unfold cell in Hcell.
  rewrite (py_index_lookup_Z _ _ _ (proj1 Hr) Hi) in Hcell. simpl in Hcell.
  rewrite (py_index_lookup_Z _ _ _ (proj1 Hc) Hj) in Hcell.
  injection Hcell as ->.
  assert (Hin : mkMove r c "" ∈ concat (_current_moves self)).
  { apply list_elem_of_In, in_concat. exists rw.
    split; apply list_elem_of_In, list_elem_of_lookup; eauto. }
  pose proof (filter_witness (fun move => label move = ""%string) _ _ Hin eq_refl) as H.
  unfold empty_cells in Hzero. lia.
Qed.

(** C10. On a well-formed game with no unplayed cell, for every
    [cells_left], [ai] returns [None] and raises nothing; the game
    object is unchanged. *)
Theorem ai_full_board_returns_None (self : TicTacToeGame) (cells_left : Z) :
  well_formed self ->
  empty_cells self = 0%nat ->
  ai self cells_left = Ok (None, self).
Proof.
  intros Hwf Hzero. pose proof (ai_outcome self Hwf cells_left _ eq_refl) as Hout.
  assert (Hnone : forall rc, ~ candidate self rc)
    by (intros rc; by apply no_candidate_when_full).
  destruct (ai self cells_left) as [[mv g]|e].
  - destruct Hout as (-> & [(-> & _)|(d & rc0 & z & _ & _ & Hbest)]); [done|].
    destruct Hbest as (Hc0 & _). by destruct (Hnone rc0).
  - destruct Hout as (_ & rc & Hrc). by destruct (Hnone rc).
Qed.

Lemma ai_full_board_returns_None_witness :
  well_formed tie_position /\
  empty_cells tie_position = 0%nat /\
  ai tie_position 0 = Ok (None, tie_position).
Proof.
  assert (Hwf : well_formed tie_position) by (split; reflexivity).
  split; [done|]. split; [reflexivity|].
  apply (ai_full_board_returns_None tie_position 0 Hwf). reflexivity.
Defined.

(** ** The heuristic *)

(** C7. On a well-formed game [heuristic_evaluation] returns the number
    of winning combos with an "O" cell and no "X" cell minus the number
    of winning combos with an "X" cell and no "O" cell; a combo with
    both marks or with neither adds nothing to either count.  The
    method only reads the board: its embedding has no successor state. *)
Theorem heuristic_evaluation_open_lines (self : TicTacToeGame) :
  well_formed self ->
  heuristic_evaluation self
  = Ok (Z.of_nat (length (List.filter
                            (fun combo => occupies self "O" combo
                                          && negb (occupies self "X" combo))
                            (_winning_combos self)))
        - Z.of_nat (length (List.filter
                              (fun combo => occupies self "X" combo
                                            && negb (occupies self "O" combo))
                              (_winning_combos self)))).
Proof. intros Hwf. by rewrite heuristic_evaluation_value. Qed.

Lemma heuristic_evaluation_open_lines_witness :
  well_formed missed_win_position /\
  heuristic_evaluation missed_win_position
  = Ok (Z.of_nat (length (List.filter
                            (fun combo => occupies missed_win_position "O" combo
                                          && negb (occupies missed_win_position "X" combo))
                            (_winning_combos missed_win_position)))
        - Z.of_nat (length (List.filter
                              (fun combo => occupies missed_win_position "X" combo
                                            && negb (occupies missed_win_position "O" combo))
                              (_winning_combos missed_win_position)))).
Proof.
  assert (Hwf : well_formed missed_win_position) by (split; reflexivity).
  split; [done|]. apply (heuristic_evaluation_open_lines missed_win_position Hwf).
Defined.

Lemma heuristic_evaluation_missed_win_position :
  heuristic_evaluation missed_win_position = Ok (-1).
Proof. reflexivity. Qed.

(** ** Move validation *)

Lemma py_index_wrapped {A} (l : list A) (i : Z) :
  py_index l i
  = if on_board (Z.of_nat (length l)) (wrapped (Z.of_nat (length l)) i)
    then match l !! Z.to_nat (wrapped (Z.of_nat (length l)) i) with
         | Some x => Ok x
         | None => Raise IndexError
         end
    else Raise IndexError.
Proof.
  unfold py_index, py_position, on_board, wrapped.
  by destruct (_ && _).
Qed.

Lemma cell_wrapped (self : TicTacToeGame) (r c : Z) :
  well_formed self ->
  cell self r c
  = if on_board (board_size self) (wrapped (board_size self) r)
       && on_board (board_size self) (wrapped (board_size self) c)
    then cell self (wrapped (board_size self) r) (wrapped (board_size self) c)
    else Raise IndexError.
Proof.
  intros Hwf.
  destruct (Z.le_gt_cases (board_size self) 0) as [Hn|Hn].
  { (* no cell at all *)
    assert (Hlen : length (_current_moves self) = 0%nat)
      by (rewrite (wf_length self Hwf); lia).
    assert (Hoff : on_board (board_size self) (wrapped (board_size self) r) = false)
      by (unfold on_board; destruct (Z.leb_spec 0 (wrapped (board_size self) r));
          simpl; [apply Z.ltb_ge; lia|done]).
    rewrite Hoff. simpl. unfold cell. rewrite py_index_wrapped, Hlen.
    change (Z.of_nat 0) with 0. unfold on_board.
    destruct (Z.leb_spec 0 (wrapped 0 r)); [|done].
    destruct (Z.ltb_spec (wrapped 0 r) 0); [lia|done]. }
  assert (Hlen : Z.of_nat (length (_current_moves self)) = board_size self)
    by (rewrite (wf_length self Hwf); lia).
  unfold cell at 1. rewrite py_index_wrapped, Hlen.
  destruct (on_board (board_size self) (wrapped (board_size self) r)) eqn:Er; [|done].
  assert (Hr : 0 <= wrapped (board_size self) r < board_size self)
    by (unfold on_board in Er; apply andb_true_iff in Er as [?%Z.leb_le ?%Z.ltb_lt]; lia).
  destruct (wf_lookup self Hwf _ 0 Hr ltac:(lia)) as (rw & s & Hi & _).
  rewrite Hi. simpl.
  assert (Hrw : Z.of_nat (length rw) = board_size self)
    by (rewrite (wf_row_length self Hwf _ _ Hi); lia).
  rewrite py_index_wrapped, Hrw.
  destruct (on_board (board_size self) (wrapped (board_size self) c)) eqn:Ec; [|done].
  assert (Hc : 0 <= wrapped (board_size self) c < board_size self)
    by (unfold on_board in Ec; apply andb_true_iff in Ec as [?%Z.leb_le ?%Z.ltb_lt]; lia).
  unfold cell. rewrite (py_index_lookup_Z _ _ _ (proj1 Hr) Hi). simpl.
  destruct (rw !! Z.to_nat (wrapped (board_size self) c)) as [m|] eqn:Hj.
  - by rewrite (py_index_lookup_Z _ _ _ (proj1 Hc) Hj).
  - apply lookup_ge_None in Hj. lia.
Qed.

(** The claim of C8 fails on the fresh board: the row index 3 faults,
    the row index -1 reads the last row and the move is reported legal;
    and on a board whose top row is all "X", with the flag not set, a
    move on an unplayed cell is reported legal. *)
Lemma is_valid_move_counterexample :
  is_valid_move fresh_position (mkMove 3 0 "X") = Raise IndexError /\
  is_valid_move fresh_position (mkMove (-1) 0 "X") = Ok true /\
  get_winner x_line_position = Ok (Some "X"%string, [(0, 0); (0, 1); (0, 2)]) /\
  is_valid_move x_line_position (mkMove 2 2 "O") = Ok true.
Proof. repeat split; reflexivity. Qed.

(** C8, amended. On a well-formed game, [is_valid_move] reads the cell
    the subscripts denote, a negative subscript counting from the end,
    and raises [IndexError] when a subscript denotes no cell; otherwise
    it returns true exactly when that cell is unplayed and the
    [_has_winner] flag is not set.  For coordinates in
    [[0, board_size)] the cell is the targeted one. *)
Theorem is_valid_move_flag_and_cell (self : TicTacToeGame) (move : Move) :
  well_formed self ->
  let n := board_size self in
  let r := wrapped n (row move) in
  let c := wrapped n (col move) in
  is_valid_move self move
  = (if on_board n r && on_board n c
     then Ok (negb (_has_winner self) && String.eqb (label_at self (r, c)) "")
     else Raise IndexError) /\
  (0 <= row move < n -> 0 <= col move < n -> r = row move /\ c = col move).
Proof.
  intros Hwf n r c. split.
  - unfold is_valid_move. rewrite (cell_wrapped self _ _ Hwf). fold n r c.
    destruct (on_board n r && on_board n c) eqn:E; [|done].
    apply andb_true_iff in E as [Er Ec].
    unfold on_board in Er, Ec.
    apply andb_true_iff in Er as [?%Z.leb_le ?%Z.ltb_lt].
    apply andb_true_iff in Ec as [?%Z.leb_le ?%Z.ltb_lt].
    destruct (wf_cell self Hwf r c ltac:(lia) ltac:(lia)) as (s & Hs).
    unfold label_at. simpl. rewrite Hs. done.
  - intros Hr Hc. unfold r, c, wrapped.
    destruct (Z.ltb_spec (row move) 0), (Z.ltb_spec (col move) 0); lia.
Qed.

Lemma is_valid_move_flag_and_cell_witness :
  well_formed missed_win_position /\
  is_valid_move missed_win_position (mkMove 1 2 "O") = Ok true /\
  is_valid_move missed_win_position (mkMove 1 1 "O") = Ok false.
Proof.
  assert (Hwf : well_formed missed_win_position) by (split; reflexivity).
  split; [done|].
  pose proof (is_valid_move_flag_and_cell missed_win_position (mkMove 1 2 "O") Hwf) as [H1 _].
  pose proof (is_valid_move_flag_and_cell missed_win_position (mkMove 1 1 "O") Hwf) as [H2 _].
  split; [exact H1 | exact H2].
Defined.

(** ** Reset *)

Lemma reset_game_labels (self : TicTacToeGame) (m : Move) :
  m ∈ concat (_current_moves (reset_game self)) -> label m = ""%string.
Proof.
  simpl. intros Hm.
  apply list_elem_of_In, in_concat in Hm as (rw & Hrw & Hm).
  apply list_elem_of_In, list_elem_of_lookup in Hrw as (i & Hi).
  apply list_elem_of_In, list_elem_of_lookup in Hm as (j & Hj).
  rewrite list_lookup_imap in Hi.
  destruct (_current_moves self !! i) as [rw0|]; [|done]. simpl in Hi.
  injection Hi as <-. rewrite list_lookup_imap in Hj.
  destruct (rw0 !! j) as [m0|]; [|done]. simpl in Hj. by injection Hj as <-.
Qed.

Lemma reset_game_moves (self : TicTacToeGame) :
  well_formed self ->
  _current_moves (reset_game self) = setup_moves (board_size self).
Proof.
  intros Hwf. simpl. apply list_eq. intros i.
  rewrite list_lookup_imap. unfold setup_moves. rewrite list_lookup_fmap.
  destruct (_current_moves self !! i) as [rw|] eqn:Hi; simpl.
  - pose proof (lookup_lt_Some _ _ _ Hi) as Hlt. rewrite (wf_length self Hwf) in Hlt.
    rewrite lookup_range by lia. simpl. f_equal.
    apply list_eq. intros j. rewrite list_lookup_imap, list_lookup_fmap.
    destruct (rw !! j) as [m|] eqn:Hj; simpl.
    + pose proof (lookup_lt_Some _ _ _ Hj) as Hjlt.
      rewrite (wf_row_length self Hwf i rw Hi) in Hjlt.
      by rewrite lookup_range by lia.
    + apply lookup_ge_None in Hj. rewrite (wf_row_length self Hwf i rw Hi) in Hj.
      symmetry. apply fmap_None, lookup_ge_None. rewrite length_range. lia.
  - apply lookup_ge_None in Hi. rewrite (wf_length self Hwf) in Hi.
    symmetry. apply fmap_None, lookup_ge_None. rewrite length_range. lia.
Qed.

Lemma reset_game_well_formed (self : TicTacToeGame) :
  well_formed self -> well_formed (reset_game self).
Proof.
  intros Hwf. split.
  - rewrite (reset_game_moves self Hwf). simpl.
    unfold clear_labels, setup_moves. rewrite <- list_fmap_compose.
    apply list_fmap_ext. intros _ r _. simpl. by rewrite <- list_fmap_compose.
  - apply (wf_combos _ Hwf).
Qed.

Lemma py_index_elem {A} (l : list A) (i : Z) (x : A) : py_index l i = Ok x -> x ∈ l.
Proof.
  unfold py_index. destruct (py_position (length l) i) as [k|]; [|done]. simpl.
  destruct (l !! k) eqn:Hk; [|done]. intros [= <-].
  apply list_elem_of_lookup. eauto.
Qed.

Lemma label_at_all_empty (self : TicTacToeGame) (rc : coord) :
  (forall m, m ∈ concat (_current_moves self) -> label m = ""%string) ->
  label_at self rc = ""%string.
Proof.
  intros Hall. unfold label_at, cell.
  destruct (py_index (_current_moves self) rc.1) as [rw|] eqn:Hi; [|done]. simpl.
  destruct (py_index rw rc.2) as [m|] eqn:Hj; [|done].
  apply Hall, list_elem_of_In, in_concat. exists rw.
  split; apply list_elem_of_In; by eapply py_index_elem.
Qed.

Lemma first_filled_all_empty (self : TicTacToeGame) (combos : list (list coord)) :
  (forall rc, label_at self rc = ""%string) ->
  (forall combo, combo ∈ combos -> combo ≠ []) ->
  first_filled self combos = None.
Proof.
  intros Hl. induction combos as [|combo rest IH]; intros Hne; [done|].
  simpl. destruct combo as [|rc combo]; [by destruct (Hne [] ltac:(left))|].
  unfold filled_by. simpl. rewrite !Hl. simpl.
  apply IH. intros c Hc. apply Hne. by right.
Qed.

(** C9. After [reset_game], whatever the game was, every cell is
    unplayed, the winner flag and the stored combo are cleared and the
    winning combos are the ones the game had; on a well-formed game of
    size at least 1 the board is the freshly set-up one and
    [get_winner] reports a game in progress. *)
Theorem reset_game_clears (self : TicTacToeGame) :
  (forall m, m ∈ concat (_current_moves (reset_game self)) -> label m = ""%string) /\
  _has_winner (reset_game self) = false /\
  winner_combo (reset_game self) = [] /\
  _winning_combos (reset_game self) = _winning_combos self /\
  board_size (reset_game self) = board_size self /\
  (well_formed self -> 1 <= board_size self ->
     _current_moves (reset_game self) = setup_moves (board_size self) /\
     get_winner (reset_game self) = Ok (None, [])).
Proof.
  split; [apply reset_game_labels|]. do 4 (split; [done|]).
  intros Hwf Hn. split; [by apply reset_game_moves|].
  pose proof (reset_game_well_formed self Hwf) as Hwf'.
  rewrite (get_winner_well_formed _ Hwf').
  rewrite first_filled_all_empty.
  - assert (Hfull : board_full (reset_game self) = false); [|by rewrite Hfull].
    unfold board_full. rewrite (reset_game_moves self Hwf).
    unfold setup_moves, range. rewrite seqZ_cons by lia. done.
  - intros rc. apply label_at_all_empty, reset_game_labels.
  - intros combo Hcombo ->. simpl in Hcombo.
    pose proof (wf_combos _ Hwf) as H. rewrite get_winning_combos_setup in H.
    injection H as H. rewrite <- H in Hcombo.
    apply grid_lines_length in Hcombo. simpl in Hcombo. lia.
Qed.

(** The size matters for [get_winner]: a game of size 0 has no cell and
    two empty combos, and an empty combo passes the test for "X". *)
Remark get_winner_size_0 :
  exists g, init DEFAULT_PLAYERS 0 = Ok g /\
            get_winner (reset_game g) = Ok (Some "X"%string, []).
Proof. eexists. split; reflexivity. Qed.

Lemma reset_game_clears_witness :
  well_formed o_line_position /\
  1 <= board_size o_line_position /\
  _current_moves (reset_game o_line_position) = setup_moves (board_size o_line_position) /\
  get_winner (reset_game o_line_position) = Ok (None, []).
Proof.
  assert (Hwf : well_formed o_line_position) by (split; reflexivity).
  assert (Hn : 1 <= board_size o_line_position) by (simpl; lia).
  split; [done|]. split; [done|].
  destruct (reset_game_clears o_line_position) as (_ & _ & _ & _ & _ & H).
  exact (H Hwf Hn).
Defined.

(** ** The depth bound

    The quotient of two integers is rounded to binary64; for a board of
    at most [2^53] cells the rounding never crosses 1/2 or 1, and the
    truncated double of the quotient is the floor of the exact one. *)

Lemma quotient_log2_lt (a b : Z) :
  0 < a < b ->
  quotient_log2 a b < 0 /\
  b <= a * 2 ^ (- quotient_log2 a b) < 2 * b.
Proof.
  intros [Ha Hab]. unfold quotient_log2.
  pose proof (Z.log2_spec a Ha) as [Ha1 Ha2].
  pose proof (Z.log2_spec b ltac:(lia)) as [Hb1 Hb2].
  pose proof (Z.log2_le_mono a b ltac:(lia)) as Hmono.
  pose proof (Z.log2_nonneg a) as Hla.
  set (la := Z.log2 a) in *. set (lb := Z.log2 b) in *.
  rewrite Z.pow_succ_r in Ha2, Hb2 by lia.
  assert (HP : 0 < 2 ^ la) by (apply Z.pow_pos_nonneg; lia).
  destruct (Z.ltb_spec (a * 2 ^ lb) (b * 2 ^ la)) as [Ht|Ht].
  - replace (- (la - lb - 1)) with (Z.succ (lb - la)) by lia.
    rewrite Z.pow_succ_r by lia.
    assert (HS : 2 ^ lb = 2 ^ (lb - la) * 2 ^ la)
      by (rewrite <- Z.pow_add_r by lia; f_equal; lia).
    assert (HQ : 0 < 2 ^ (lb - la)) by (apply Z.pow_pos_nonneg; lia).
    set (P := 2 ^ la) in *. set (Q := 2 ^ (lb - la)) in *. set (S := 2 ^ lb) in *.
    split; [lia|]. nia.
  - assert (Hlt : la < lb).
    { destruct (decide (la = lb)) as [E|]; [|lia]. rewrite E in Ht. nia. }
    replace (- (la - lb)) with (lb - la) by lia.
    assert (HS : 2 ^ lb = 2 ^ (lb - la) * 2 ^ la)
      by (rewrite <- Z.pow_add_r by lia; f_equal; lia).
    assert (HQ : 0 < 2 ^ (lb - la)) by (apply Z.pow_pos_nonneg; lia).
    set (P := 2 ^ la) in *. set (Q := 2 ^ (lb - la)) in *. set (S := 2 ^ lb) in *.
    split; [lia|]. nia.
Qed.

Lemma round_half_even_bounds (num den L U : Z) :
  0 < den -> L * den <= num <= U * den ->
  L <= round_half_even num den <= U.
Proof.
  intros Hden [HL HU]. unfold round_half_even.
  pose proof (Z.div_mod num den ltac:(lia)) as Hdm.
  pose proof (Z.mod_pos_bound num den Hden) as Hr.
  set (q := num / den) in *. set (r := num mod den) in *.
  assert (L <= q) by nia.
  destruct (Z.ltb_spec (2 * r) den); [nia|].
  assert (q + 1 <= U) by nia.
  destruct (Z.ltb_spec den (2 * r)); [lia|].
  destruct (Z.even q); lia.
Qed.

Lemma py_truediv_below_one (a b : Z) :
  0 < a < b -> b <= 2 ^ 53 ->
  exists d,
    -53 <= d <= -1 /\
    b <= a * 2 ^ (- d) < 2 * b /\
    py_truediv a b = Ok (Finite (round_half_even (a * 2 ^ (52 - d)) b) (d - 52)) /\
    2 ^ 52 <= round_half_even (a * 2 ^ (52 - d)) b <= 2 ^ 53.
Proof.
  intros Hab Hb.
  destruct (quotient_log2_lt a b Hab) as (Hd & Hlo & Hhi).
  set (d := quotient_log2 a b) in *.
  assert (Hd53 : -53 <= d).
  { destruct (Z.le_gt_cases (-53) d) as [|Hlt]; [done|].
    assert (2 ^ 54 <= 2 ^ (- d)) by (apply Z.pow_le_mono_r; lia).
    assert (2 ^ 54 = 2 * 2 ^ 53) by reflexivity. nia. }
  assert (Hpow : 2 ^ (52 - d) = 2 ^ (- d) * 2 ^ 52)
    by (rewrite <- Z.pow_add_r by lia; f_equal; lia).
  assert (Hm : 2 ^ 52 <= round_half_even (a * 2 ^ (52 - d)) b <= 2 ^ 53).
  { apply round_half_even_bounds; [lia|]. rewrite Hpow.
    assert (2 ^ 53 = 2 * 2 ^ 52) by reflexivity.
    assert (0 < 2 ^ 52) by reflexivity. nia. }
  exists d. split; [lia|]. split; [lia|]. split; [|done].
  unfold py_truediv.
  destruct (Z.eqb_spec b 0); [lia|]. destruct (Z.eqb_spec a 0); [lia|].
  rewrite !Z.abs_eq by lia. fold d.
  replace (Z.max (d - 52) (-1074)) with (d - 52) by lia.
  replace (Z.max 0 (- (d - 52))) with (52 - d) by lia.
  replace (Z.max 0 (d - 52)) with 0 by lia.
  rewrite Z.pow_0_r, Z.mul_1_r.
  set (m := round_half_even (a * 2 ^ (52 - d)) b) in *.
  assert (Hlog : Z.log2 m <= 53).
  { pose proof (Z.log2_le_mono m (2 ^ 53) ltac:(lia)) as Hl.
    rewrite Z.log2_pow2 in Hl by lia. done. }
  destruct (Z.ltb_spec 0 m); [|assert (0 < 2 ^ 52) by reflexivity; lia].
  destruct (Z.leb_spec 1024 (Z.log2 m + (d - 52))); [lia|]. simpl.
  do 2 f_equal. rewrite !Z.sgn_pos by lia. lia.
Qed.

Lemma round_half_even_exact (q den : Z) :
  0 < den -> round_half_even (q * den) den = q.
Proof.
  intros Hden. unfold round_half_even.
  rewrite Z.div_mul, Z.mod_mul by lia.
  destruct (Z.ltb_spec (2 * 0) den); [done|lia].
Qed.

Lemma py_truediv_one (b : Z) : 0 < b -> py_truediv b b = Ok (Finite (2 ^ 52) (-52)).
Proof.
  intros Hb. unfold py_truediv.
  destruct (Z.eqb_spec b 0); [lia|].
  rewrite !Z.abs_eq by lia. unfold quotient_log2.
  rewrite Z.sub_diag, Z.ltb_irrefl.
  change (Z.max (0 - 52) (-1074)) with (-52).
  change (Z.max 0 (- -52)) with 52. change (Z.max 0 (-52)) with 0.
  rewrite Z.pow_0_r, Z.mul_1_r, (Z.mul_comm b), round_half_even_exact by done.
  rewrite Z.sgn_pos by done. done.
Qed.

Lemma ai_max_depth_value (max_cells cells_left : Z) :
  1 <= max_cells <= 2 ^ 53 ->
  0 <= cells_left <= max_cells ->
  ai_max_depth max_cells cells_left = Ok (2 + (max_cells - cells_left) * 2 / max_cells).
Proof.
  intros HM Hcl. unfold ai_max_depth.
  set (a := max_cells - cells_left). set (b := max_cells).
  assert (Ha : 0 <= a <= b) by (unfold a, b; lia).
  assert (Hb : 1 <= b <= 2 ^ 53) by done.
  clearbody a b. clear HM Hcl.
  destruct (decide (a = 0)) as [->|Ha0].
  { (* nothing filled *)
    unfold py_truediv. destruct (Z.eqb_spec b 0); [lia|]. done. }
  destruct (decide (a = b)) as [->|Hab].
  { (* everything filled: the quotient is exactly 1 *)
    rewrite py_truediv_one by lia.
    replace (b * 2 / b) with 2 by (rewrite Z.mul_comm, Z.div_mul; lia).
    reflexivity. }
  destruct (py_truediv_below_one a b ltac:(lia) ltac:(lia))
    as (d & Hd & (Hlo & Hhi) & -> & Hm).
  set (m := round_half_even (a * 2 ^ (52 - d)) b) in *.
  assert (H52 : 0 < 2 ^ 52) by reflexivity.
  assert (H53 : 2 ^ 53 = 2 * 2 ^ 52) by reflexivity.
  assert (Hlog : Z.log2 (Z.abs m) <= 53).
  { rewrite Z.abs_eq by lia.
    pose proof (Z.log2_le_mono m (2 ^ 53) ltac:(lia)) as Hl.
    rewrite Z.log2_pow2 in Hl by lia. done. }
  cbn [mbind result_bind float_times_2].
  destruct (Z.eqb_spec m 0); [lia|].
  destruct (Z.leb_spec 1024 (Z.log2 (Z.abs m) + (d - 52) + 1)); [lia|].
  cbn [negb andb py_int mbind result_bind].
  destruct (Z.leb_spec 0 (d - 52 + 1)); [lia|].
  replace (- (d - 52 + 1)) with (51 - d) by lia.
  assert (HT : 2 ^ (52 - d) = 2 * 2 ^ (51 - d))
    by (rewrite <- Z.pow_succ_r by lia; f_equal; lia).
  assert (HT' : 2 ^ (51 - d) = 2 ^ (- d) * 2 ^ 51)
    by (rewrite <- Z.pow_add_r by lia; f_equal; lia).
  assert (H51 : 2 ^ 52 = 2 * 2 ^ 51) by reflexivity.
  assert (HTpos : 0 < 2 ^ (51 - d)) by (apply Z.pow_pos_nonneg; lia).
  rewrite Z.quot_div_nonneg by lia.
  do 2 f_equal.
  destruct (Z.lt_ge_cases (a * 2) b) as [Hsmall|Hlarge].
  - (* less than half filled: the quotient stays below 1/2 *)
    rewrite (Z.div_small (a * 2)) by lia.
    assert (Hd2 : d <= -2).
    { destruct (decide (d = -1)) as [->|]; [|lia]. change (2 ^ (- -1)) with 2 in Hlo. lia. }
    assert (H4 : 2 ^ 2 <= 2 ^ (- d)) by (apply Z.pow_le_mono_r; lia).
    change (2 ^ 2) with 4 in H4.
    assert (HmT : m <= 2 ^ (51 - d) - 1).
    { apply (round_half_even_bounds _ b 0); [lia|]. rewrite HT. nia. }
    apply Z.div_small. lia.
  - (* at least half filled, not full: the quotient is in [1/2, 1) *)
    assert (Hd1 : d = -1).
    { destruct (decide (d = -1)) as [|]; [done|].
      assert (H4 : 2 ^ 2 <= 2 ^ (- d)) by (apply Z.pow_le_mono_r; lia).
      change (2 ^ 2) with 4 in H4. nia. }
    subst d. change (51 - -1) with 52 in *. change (52 - -1) with 53 in *.
    assert (HmU : m <= 2 ^ 53 - 1).
    { apply (round_half_even_bounds _ b 0); [lia|]. nia. }
    replace (a * 2 / b) with 1 by (apply (Z.div_unique (a * 2) b 1 (a * 2 - b)); lia).
    symmetry. apply (Z.div_unique m (2 ^ 52) 1 (m - 2 ^ 52)); lia.
Qed.



(** The values on the 3 x 3 board, for 9 down to 0 cells left. *)
Lemma ai_max_depth_3x3 :
  (fun cells_left => ai_max_depth 9 cells_left) <$> [9; 8; 7; 6; 5; 4; 3; 2; 1; 0]
  = Ok <$> [2; 2; 2; 2; 2; 3; 3; 3; 3; 4].
Proof. reflexivity. Qed.

(** The size bound cannot be dropped: on a board of [2^56] cells with
    [2^55 + 1] cells left the quotient [(2^55 - 1) / 2^56] rounds to
    1/2 and the depth is 3, the exact floor giving 2. *)
Remark ai_max_depth_rounding :
  ai_max_depth (2 ^ 56) (2 ^ 55 + 1) = Ok 3 /\
  2 + (2 ^ 56 - (2 ^ 55 + 1)) * 2 / 2 ^ 56 = 2.
Proof. split; reflexivity. Qed.

(** * Further properties *)

(** ** Turn order *)

Lemma next_player_in_cycle (players : list Player) (pos : nat) :
  (pos < length players)%nat ->
  exists p,
    players !! pos = Some p /\
    next_player (players, pos) = Ok (p, (players, (S pos) mod length players)%nat).
Proof.
  intros Hpos. unfold next_player. simpl.
  destruct players as [|p0 rest] eqn:E; [simpl in Hpos; lia|]. rewrite <- E in *.
  destruct (players !! pos) as [p|] eqn:Hp.
  2:{ apply lookup_ge_None in Hp. lia. }
  exists p. split; [done|]. do 2 f_equal.
  - by rewrite nth_lookup, Hp.
  - f_equal. destruct (Nat.ltb_spec (S pos) (length players)) as [Hlt|Hge].
    + by rewrite Nat.mod_small.
    + assert (S pos = length players) as -> by lia.
      rewrite Nat.Div0.mod_same. done.
Qed.

Lemma toggle_player_in_turn (players : list Player) (i : nat) (self : TicTacToeGame) :
  in_turn players i self ->
  exists self',
    toggle_player self = Ok self' /\
    in_turn players (S i mod length players) self' /\
    same_but_turn self self'.
Proof.
  intros (Hi & Hcur & Hps). unfold toggle_player. rewrite Hps.
  assert (Hlt : (S i mod length players < length players)%nat)
    by (apply Nat.mod_upper_bound; lia).
  destruct (next_player_in_cycle players _ Hlt) as (p & Hp & ->). simpl.
  eexists. split; [done|]. split; [|done]. done.
Qed.

Lemma toggles_in_turn (players : list Player) (k : nat) :
  forall (i : nat) (self : TicTacToeGame),
  in_turn players i self ->
  exists self',
    toggles k self = Ok self' /\
    in_turn players ((i + k) mod length players) self' /\
    same_but_turn self self'.
Proof.
  induction k as [|k IH]; intros i self Hin.
  - exists self. simpl. split; [done|]. split; [|done].
    destruct Hin as (Hi & ?). by rewrite Nat.add_0_r, Nat.mod_small.
  - simpl.
    destruct (toggle_player_in_turn players i self Hin) as (self1 & -> & Hin1 & Hsame1).
    simpl. destruct (IH _ self1 Hin1) as (self' & -> & Hin' & Hsame').
    exists self'. split; [done|]. split.
    + rewrite Nat.Div0.add_mod_idemp_l in Hin'.
      by replace (i + S k)%nat with (S i + k)%nat by lia.
    + destruct Hsame1 as (? & ? & ? & ? & ?), Hsame' as (? & ? & ? & ? & ?).
      repeat split; congruence.
Qed.

Lemma init_in_turn (players : list Player) (size : Z) (self : TicTacToeGame) :
  init players size = Ok self -> in_turn players 0 self.
Proof.
  destruct (decide (players = [])) as [->|Hne]; [done|].
  assert (Hlen : (0 < length players)%nat) by (destruct players; [done|simpl; lia]).
  unfold init.
  destruct (next_player_in_cycle players 0 Hlen) as (p & Hp & ->). simpl.
  unfold _setup_board. simpl. rewrite get_winning_combos_setup. simpl.
  intros [= <-]. done.
Qed.

(** X1. Without players the constructor raises [StopIteration].
    Otherwise the turn order is cyclic: [k] calls of [toggle_player]
    after construction succeed, leave the player [players[k mod len]]
    to move and change nothing else of the game. *)
Theorem toggle_player_cyclic (players : list Player) (size : Z) (self : TicTacToeGame)
    (k : nat) :
  init [] size = Raise StopIteration /\
  (init players size = Ok self ->
   exists self',
     toggles k self = Ok self' /\
     players !! (k mod length players)%nat = Some (current_player self') /\
     same_but_turn self self').
Proof.
  split; [done|]. intros Hinit.
  destruct (toggles_in_turn players k 0 self (init_in_turn _ _ _ Hinit))
    as (self' & Hk & (_ & Hcur & _) & Hsame).
  exists self'. done.
Qed.

Lemma toggle_player_cyclic_witness :
  init DEFAULT_PLAYERS 3 = Ok fresh_position /\
  exists self',
    toggles 5 fresh_position = Ok self' /\
    DEFAULT_PLAYERS !! (5 mod length DEFAULT_PLAYERS)%nat = Some (current_player self') /\
    same_but_turn fresh_position self'.
Proof.
  split; [reflexivity|].
  apply (proj2 (toggle_player_cyclic DEFAULT_PLAYERS 3 fresh_position 5)).
  reflexivity.
Defined.

(** ** Writing a cell and validating a move *)

Lemma cell_placed (self : TicTacToeGame) (r c r' c' : Z) (mark : string) :
  well_formed self ->
  0 <= r < board_size self -> 0 <= c < board_size self ->
  0 <= r' < board_size self -> 0 <= c' < board_size self ->
  cell (placed self (r, c) mark) r' c'
  = if decide ((r', c') = (r, c)) then Ok (mkMove r c mark) else cell self r' c'.
Proof.
  intros Hwf Hr Hc Hr' Hc'. unfold placed. simpl.
  destruct (wf_set_cell self Hwf r c (mkMove r c mark) Hr Hc) as (rw & Hi & ->).
  destruct (wf_lookup self Hwf r' c' Hr' Hc') as (rw' & s' & Hi' & Hj').
  pose proof (lookup_lt_Some _ _ _ Hi) as Hilt.
  assert (Hold : cell self r' c' = Ok (mkMove r' c' s')).
  { unfold cell. rewrite (py_index_lookup_Z _ _ _ (proj1 Hr') Hi'). simpl.
    by apply py_index_lookup_Z; [lia|]. }
  rewrite Hold. unfold cell. simpl.
  destruct (decide (r' = r)) as [->|Hne].
  - rewrite Hi in Hi'. injection Hi' as <-.
    rewrite (py_index_lookup_Z _ _ (<[Z.to_nat c := mkMove r c mark]> rw))
      by (lia || by apply list_lookup_insert_eq).
    simpl. destruct (decide (c' = c)) as [->|Hnc].
    + rewrite decide_True by done.
      apply py_index_lookup_Z; [lia|].
      apply list_lookup_insert_eq. by apply lookup_lt_Some in Hj'.
    + rewrite decide_False by congruence.
      apply py_index_lookup_Z; [lia|].
      rewrite list_lookup_insert_ne by lia. done.
  - rewrite decide_False by congruence.
    rewrite (py_index_lookup_Z _ _ rw'); [|lia|by rewrite list_lookup_insert_ne by lia].
    simpl. by apply py_index_lookup_Z; [lia|].
Qed.

Lemma placed_fields (self : TicTacToeGame) (rc : coord) (mark : string) :
  board_size (placed self rc mark) = board_size self /\
  _has_winner (placed self rc mark) = _has_winner self /\
  _winning_combos (placed self rc mark) = _winning_combos self /\
  current_player (placed self rc mark) = current_player self /\
  _players (placed self rc mark) = _players self /\
  winner_combo (placed self rc mark) = winner_combo self.
Proof.
  unfold placed, set_cell.
  destruct (py_index (_current_moves self) rc.1) as [rw|]; [|done]. simpl.
  destruct (py_setitem rw rc.2 _) as [rw'|]; [|done]. simpl.
  destruct (py_setitem (_current_moves self) rc.1 rw') as [b|]; done.
Qed.

Lemma placed_well_formed (self : TicTacToeGame) (r c : Z) (mark : string) :
  well_formed self ->
  0 <= r < board_size self -> 0 <= c < board_size self ->
  set_cell self r c (mkMove r c mark) = Ok (placed self (r, c) mark) /\
  well_formed (placed self (r, c) mark).
Proof.
  intros Hwf Hr Hc.
  destruct (place_well_formed self Hwf r c Hr Hc mark) as (g & Hset & Hwf' & _).
  unfold placed. simpl. by rewrite Hset.
Qed.

(** X2. On a well-formed game, once a mark is written on a cell of the
    board no move on that cell is valid, and the validity of a move on
    any other cell of the board is what it was. *)
Theorem played_cell_is_invalid (self : TicTacToeGame) (r c : Z) (mark : string)
    (move : Move) :
  well_formed self ->
  0 <= r < board_size self -> 0 <= c < board_size self ->
  mark ≠ ""%string ->
  0 <= row move < board_size self -> 0 <= col move < board_size self ->
  is_valid_move (placed self (r, c) mark) move
  = if decide ((row move, col move) = (r, c)) then Ok false
    else is_valid_move self move.
Proof.
  intros Hwf Hr Hc Hmark Hr' Hc'. unfold is_valid_move.
  rewrite (cell_placed self r c _ _ mark Hwf Hr Hc Hr' Hc').
  destruct (placed_fields self (r, c) mark) as (_ & -> & _).
  destruct (decide _) as [_|_]; [|done]. simpl.
  apply String.eqb_neq in Hmark. rewrite Hmark. by rewrite andb_false_r.
Qed.

Lemma played_cell_is_invalid_witness :
  is_valid_move (placed fresh_position (1, 1) "X") (mkMove 1 1 "O") = Ok false /\
  is_valid_move (placed fresh_position (1, 1) "X") (mkMove 0 2 "O")
  = is_valid_move fresh_position (mkMove 0 2 "O").
Proof.
  assert (Hwf : well_formed fresh_position) by (split; reflexivity).
  split.
  - apply (played_cell_is_invalid fresh_position 1 1 "X" (mkMove 1 1 "O") Hwf);
      simpl; (lia || done).
  - apply (played_cell_is_invalid fresh_position 1 1 "X" (mkMove 0 2 "O") Hwf);
      simpl; (lia || done).
Defined.

(** X3. After [reset_game] on a well-formed game every move on a cell
    of the board is valid, whatever was played and whether or not the
    game had been won. *)
Theorem reset_game_makes_moves_valid (self : TicTacToeGame) (move : Move) :
  well_formed self ->
  0 <= row move < board_size self -> 0 <= col move < board_size self ->
  is_valid_move (reset_game self) move = Ok true.
Proof.
  intros Hwf Hr Hc. unfold is_valid_move.
  pose proof (reset_game_well_formed self Hwf) as Hwf'.
  destruct (wf_cell (reset_game self) Hwf' (row move) (col move) Hr Hc) as (s & Hs).
  rewrite Hs. simpl.
  pose proof (label_at_all_empty (reset_game self) (row move, col move)
                (reset_game_labels self)) as Hl.
  unfold label_at in Hl. simpl in Hl. rewrite Hs in Hl. simpl in Hl. by subst s.
Qed.

Lemma reset_game_makes_moves_valid_witness :
  well_formed x_line_position /\
  is_valid_move (reset_game x_line_position) (mkMove 0 0 "X") = Ok true.
Proof.
  assert (Hwf : well_formed x_line_position) by (split; reflexivity).
  split; [done|].
  apply (reset_game_makes_moves_valid x_line_position (mkMove 0 0 "X") Hwf);
    simpl; lia.
Defined.

(** X4. The move [ai] returns is legal: on a well-formed game whose
    winner flag is not set, a cell returned by [ai] passes
    [is_valid_move]. *)
Theorem ai_move_is_valid (self : TicTacToeGame) (cells_left : Z) (rc : coord)
    (g : TicTacToeGame) (mark : string) :
  well_formed self ->
  _has_winner self = false ->
  ai self cells_left = Ok (Some rc, g) ->
  0 <= rc.1 < board_size self /\ 0 <= rc.2 < board_size self /\
  is_valid_move self (mkMove rc.1 rc.2 mark) = Ok true.
Proof.
  intros Hwf Hflag Hai.
  pose proof (ai_outcome self Hwf cells_left _ eq_refl) as Hout.
  rewrite Hai in Hout.
  destruct Hout as (_ & [(Hnone & _)|(d & rc0 & z & _ & [= <-] & Hbest)]); [done|].
  destruct Hbest as (Hcand & _). destruct rc as [r c].
  pose proof Hcand as (Hr & Hc & _). simpl in *.
  split; [done|]. split; [done|].
  unfold is_valid_move. simpl.
  rewrite (candidate_cell self r c Hwf Hcand). simpl. by rewrite Hflag.
Qed.

Lemma ai_move_is_valid_witness :
  well_formed missed_win_position /\
  _has_winner missed_win_position = false /\
  ai missed_win_position 4 = Ok (Some (2, 0), missed_win_position) /\
  is_valid_move missed_win_position (mkMove 2 0 "O") = Ok true.
Proof.
  assert (Hwf : well_formed missed_win_position) by (split; reflexivity).
  assert (Hai : ai missed_win_position 4 = Ok (Some (2, 0), missed_win_position))
    by (vm_compute; reflexivity).
  split; [done|]. split; [done|]. split; [done|].
  apply (ai_move_is_valid missed_win_position 4 (2, 0) missed_win_position "O" Hwf
           eq_refl Hai).
Defined.

(** ** Range of the heuristic *)

Lemma open_for_exclusive (self : TicTacToeGame) (combos : list (list coord)) :
  (length (List.filter (open_for self "O" "X") combos)
   + length (List.filter (open_for self "X" "O") combos) <= length combos)%nat.
Proof.
  induction combos as [|combo rest IH]; [done|]. cbn [List.filter].
  assert (Hex : open_for self "O" "X" combo && open_for self "X" "O" combo = false)
    by (unfold open_for; by destruct (occupies self "O" combo), (occupies self "X" combo)).
  destruct (open_for self "O" "X" combo), (open_for self "X" "O" combo);
    [done| | |]; cbn [length]; lia.
Qed.

(** X5. On a well-formed game the heuristic value lies between minus
    and plus the number of winning combos, [2 * board_size + 2] for a
    board of size at least 0: no combo is counted for both marks. *)
Theorem heuristic_evaluation_range (self : TicTacToeGame) :
  well_formed self ->
  exists h,
    heuristic_evaluation self = Ok h /\
    - Z.of_nat (length (_winning_combos self)) <= h
      <= Z.of_nat (length (_winning_combos self)) /\
    (0 <= board_size self ->
     Z.of_nat (length (_winning_combos self)) = 2 * board_size self + 2).
Proof.
  intros Hwf. exists (open_lines_balance self).
  split; [by apply heuristic_evaluation_value|]. split.
  - pose proof (open_for_exclusive self (_winning_combos self)).
    unfold open_lines_balance. lia.
  - intros Hn. pose proof (wf_combos _ Hwf) as H.
    rewrite get_winning_combos_setup in H. injection H as <-.
    unfold grid_lines, grid_rows, grid_columns.
    rewrite !List.length_app, !length_fmap, length_range. simpl. lia.
Qed.

Lemma heuristic_evaluation_range_witness :
  well_formed missed_win_position /\
  exists h,
    heuristic_evaluation missed_win_position = Ok h /\
    - Z.of_nat (length (_winning_combos missed_win_position)) <= h
      <= Z.of_nat (length (_winning_combos missed_win_position)) /\
    (0 <= board_size missed_win_position ->
     Z.of_nat (length (_winning_combos missed_win_position))
     = 2 * board_size missed_win_position + 2).
Proof.
  assert (Hwf : well_formed missed_win_position) by (split; reflexivity).
  split; [done|]. apply (heuristic_evaluation_range missed_win_position Hwf).
Defined.

(** ** The three outcomes *)

Lemma first_filled_None (self : TicTacToeGame) (combos : list (list coord)) :
  first_filled self combos = None <->
  forall combo, combo ∈ combos ->
    filled_by self "X" combo = false /\ filled_by self "O" combo = false.
Proof.
  induction combos as [|combo rest IH]; simpl.
  - split; [|done]. intros _ combo H. by apply not_elem_of_nil in H.
  - destruct (filled_by self "X" combo) eqn:Ex.
    { split; [done|]. intros H. destruct (H combo ltac:(left)). congruence. }
    destruct (filled_by self "O" combo) eqn:Eo.
    { split; [done|]. intros H. destruct (H combo ltac:(left)). congruence. }
    rewrite IH. split.
    + intros H c Hc. apply elem_of_cons in Hc as [->|Hc]; [done|by apply H].
    + intros H c Hc. apply H. by right.
Qed.

Lemma first_filled_Some (self : TicTacToeGame) (combos : list (list coord))
    (mark : string) (combo : list coord) :
  first_filled self combos = Some (mark, combo) ->
  combo ∈ combos /\
  ((mark = "X"%string /\ filled_by self "X" combo = true) \/
   (mark = "Y"%string /\ filled_by self "O" combo = true)).
Proof.
  induction combos as [|c rest IH]; [done|]. simpl.
  destruct (filled_by self "X" c) eqn:Ex; [intros [= <- <-]; split; [left|by left]|].
  destruct (filled_by self "O" c) eqn:Eo; [intros [= <- <-]; split; [left|by right]|].
  intros H. destruct (IH H). split; [by right|done].
Qed.

Lemma board_full_empty_cells (self : TicTacToeGame) :
  board_full self = true <-> empty_cells self = 0%nat.
Proof.
  unfold board_full, empty_cells.
  induction (concat (_current_moves self)) as [|m l IH]; [done|].
  simpl. rewrite filter_cons. destruct (decide (label m = ""%string)) as [E|E].
  - rewrite E. simpl. split; [done|]. intros H. discriminate.
  - apply String.eqb_neq in E. rewrite E. simpl. done.
Qed.

(** X6. On a well-formed game [get_winner] has exactly three kinds of
    results.  It reports a win, with a winning combo that one mark
    fills, exactly when some winning combo is filled by "X" or by "O";
    failing that it reports a tie with no combo exactly when no cell is
    unplayed, and a game in progress with no combo otherwise. *)
Theorem get_winner_outcomes (self : TicTacToeGame) :
  well_formed self ->
  let won := exists combo, combo ∈ _winning_combos self /\
               (filled_by self "X" combo = true \/ filled_by self "O" combo = true) in
  (won ->
   exists mark combo,
     get_winner self = Ok (Some mark, combo) /\ combo ∈ _winning_combos self /\
     ((mark = "X"%string /\ filled_by self "X" combo = true) \/
      (mark = "Y"%string /\ filled_by self "O" combo = true))) /\
  (~ won -> empty_cells self = 0%nat -> get_winner self = Ok (Some "TIE"%string, [])) /\
  (~ won -> empty_cells self ≠ 0%nat -> get_winner self = Ok (None, [])).
Proof.
  intros Hwf won. rewrite (get_winner_well_formed self Hwf).
  destruct (first_filled self (_winning_combos self)) as [[mark combo]|] eqn:Ef.
  - apply first_filled_Some in Ef as (Hin & Hfill).
    assert (Hwon : won) by (exists combo; split; [done|]; destruct Hfill as [[_ ?]|[_ ?]]; auto).
    split; [|done]. intros _. by exists mark, combo.
  - assert (Hnot : ~ won).
    { intros (combo & Hin & Hfill).
      destruct (proj1 (first_filled_None self _) Ef combo Hin) as (Hx & Ho).
      destruct Hfill; congruence. }
    split; [done|]. split; intros _ He.
    + apply board_full_empty_cells in He. by rewrite He.
    + destruct (board_full self) eqn:Efull; [|done].
      by apply board_full_empty_cells in Efull.
Qed.

Lemma get_winner_outcomes_witness :
  well_formed tie_position /\
  empty_cells tie_position = 0%nat /\
  get_winner tie_position = Ok (Some "TIE"%string, []) /\
  well_formed x_line_position /\
  exists mark combo, get_winner x_line_position = Ok (Some mark, combo).
Proof.
  assert (Hwf : well_formed tie_position) by (split; reflexivity).
  assert (Hwf' : well_formed x_line_position) by (split; reflexivity).
  split; [done|]. split; [reflexivity|].
  destruct (get_winner_outcomes tie_position Hwf) as (_ & Htie & _).
  destruct (get_winner_outcomes x_line_position Hwf') as (Hwin & _ & _).
  split.
  - apply Htie; [|reflexivity].
    intros (combo & Hin & Hfill).
    assert (Hall : forallb (fun combo => negb (filled_by tie_position "X" combo)
                                         && negb (filled_by tie_position "O" combo))
                     (_winning_combos tie_position) = true) by reflexivity.
    rewrite forallb_forall in Hall.
    apply list_elem_of_In, Hall, andb_true_iff in Hin as [H1 H2].
    destruct Hfill as [H|H]; rewrite H in *; done.
  - split; [done|].
    destruct Hwin as (mark & combo & H & _).
    + exists [(0, 0); (0, 1); (0, 2)]. split; [|by left].
      apply list_elem_of_In. simpl. by left.
    + by exists mark, combo.
Defined.

(** ** Pruning does not change the score *)

(** Case analysis on numbers and their comparisons. *)
Ltac num :=
  unfold window_sound, sane, finite, num_le, py_max, py_min in *;
  repeat match goal with x : number |- _ => destruct x end;
  simpl in *;
  repeat match goal with
         | |- context [?a <? ?b] => destruct (Z.ltb_spec a b); simpl in *
         | H : context [?a <? ?b] |- _ => destruct (Z.ltb_spec a b); simpl in *
         end;
  repeat split;
  try done; try (exfalso; lia); try (f_equal; lia);
  try (let E := fresh in intros E; inversion E; lia); eauto.

Lemma window_sound_exact (alpha beta : number) (v : Z) : window_sound alpha beta v v.
Proof. by unfold window_sound. Qed.

Lemma list_max_ge (l : list Z) (x : Z) : x ∈ l -> x <= list_max l.
Proof.
  destruct l as [|y l]; [by intros ?%not_elem_of_nil|]. simpl.
  revert x. induction l as [|z l IH]; intros x Hx; simpl.
  - apply list_elem_of_singleton in Hx. lia.
  - apply elem_of_cons in Hx as [->|Hx].
    + assert (y <= foldr Z.max y l) by (apply IH; left). lia.
    + apply elem_of_cons in Hx as [->|Hx]; [lia|].
      assert (x <= foldr Z.max y l) by (apply IH; by right). lia.
Qed.

Lemma list_max_in (l : list Z) : l ≠ [] -> list_max l ∈ l.
Proof.
  destruct l as [|y l]; [done|]. intros _. simpl.
  induction l as [|z l IH]; simpl; [left|].
  destruct (Z.max_spec z (foldr Z.max y l)) as [[_ ->]|[_ ->]].
  - apply elem_of_cons in IH as [->|IH]; [left|by do 2 right].
  - right; left.
Qed.

Lemma list_max_unique (l : list Z) (v : Z) :
  v ∈ l -> (forall x, x ∈ l -> x <= v) -> list_max l = v.
Proof.
  intros Hv Hall. pose proof (list_max_ge l v Hv).
  assert (Hne : l ≠ []) by (intros ->; by apply not_elem_of_nil in Hv).
  pose proof (Hall _ (list_max_in l Hne)). lia.
Qed.

Lemma list_min_le (l : list Z) (x : Z) : x ∈ l -> list_min l <= x.
Proof.
  destruct l as [|y l]; [by intros ?%not_elem_of_nil|]. simpl.
  revert x. induction l as [|z l IH]; intros x Hx; simpl.
  - apply list_elem_of_singleton in Hx. lia.
  - apply elem_of_cons in Hx as [->|Hx].
    + assert (foldr Z.min y l <= y) by (apply IH; left). lia.
    + apply elem_of_cons in Hx as [->|Hx]; [lia|].
      assert (foldr Z.min y l <= x) by (apply IH; by right). lia.
Qed.

Lemma list_min_in (l : list Z) : l ≠ [] -> list_min l ∈ l.
Proof.
  destruct l as [|y l]; [done|]. intros _. simpl.
  induction l as [|z l IH]; simpl; [left|].
  destruct (Z.min_spec z (foldr Z.min y l)) as [[_ ->]|[_ ->]].
  - right; left.
  - apply elem_of_cons in IH as [->|IH]; [left|by do 2 right].
Qed.

Lemma list_min_unique (l : list Z) (v : Z) :
  v ∈ l -> (forall x, x ∈ l -> v <= x) -> list_min l = v.
Proof.
  intros Hv Hall. pose proof (list_min_le l v Hv).
  assert (Hne : l ≠ []) by (intros ->; by apply not_elem_of_nil in Hv).
  pose proof (Hall _ (list_min_in l Hne)). lia.
Qed.

Lemma elem_of_scan_order (n : Z) (rc : coord) :
  rc ∈ scan_order n <-> 0 <= rc.1 < n /\ 0 <= rc.2 < n.
Proof.
  unfold scan_order. rewrite list_elem_of_bind. split.
  - intros (r & Hrc & Hr). apply list_elem_of_bind in Hrc as (c & Hrc & Hc).
    apply list_elem_of_singleton in Hrc as ->. simpl.
    by rewrite <- !elem_of_range.
  - intros (Hr & Hc). exists rc.1. rewrite elem_of_range. split; [|done].
    apply list_elem_of_bind. exists rc.2. rewrite elem_of_range. split; [|done].
    destruct rc. simpl. left.
Qed.

Lemma elem_of_candidates (self : TicTacToeGame) (rc : coord) :
  rc ∈ candidates self <-> candidate self rc.
Proof.
  unfold candidates, candidate. rewrite list_elem_of_filter, elem_of_scan_order. tauto.
Qed.

Lemma minimax_cell_skip
    (child : TicTacToeGame -> number -> number -> result (number * TicTacToeGame))
    (self : TicTacToeGame) (is_maximizing : bool) (r c : Z) (best alpha beta : number) :
  well_formed self ->
  0 <= r < board_size self -> 0 <= c < board_size self ->
  ~ candidate self (r, c) ->
  minimax_cell child is_maximizing r c (self, best, alpha, beta)
  = Ok ((self, best, alpha, beta), false).
Proof.
  intros Hwf Hr Hc Hn.
  destruct (not_candidate_cell self r c Hwf Hr Hc Hn) as (s & Hs & Es).
  unfold minimax_cell. rewrite Hs. simpl. by rewrite Es.
Qed.

Lemma minimax_cell_candidate
    (child : TicTacToeGame -> number -> number -> result (number * TicTacToeGame))
    (self : TicTacToeGame) (is_maximizing : bool) (r c : Z) (best alpha beta : number)
    (w : Z) :
  well_formed self ->
  candidate self (r, c) ->
  let mark := if is_maximizing then "O"%string else "X"%string in
  child (placed self (r, c) mark) alpha beta = Ok (Int w, placed self (r, c) mark) ->
  minimax_cell child is_maximizing r c (self, best, alpha, beta)
  = Ok (if is_maximizing
        then ((self, py_max best (Int w), py_max alpha (py_max best (Int w)), beta),
              num_le beta (py_max alpha (py_max best (Int w))))
        else ((self, py_min best (Int w), alpha, py_min beta (py_min best (Int w))),
              num_le (py_min beta (py_min best (Int w))) alpha)).
Proof.
  intros Hwf Hcand mark Hchild.
  pose proof Hcand as (Hr & Hc & _). simpl in Hr, Hc.
  pose proof (candidate_cell self r c Hwf Hcand) as Hcell.
  destruct (placed_well_formed self r c mark Hwf Hr Hc) as (Hset & Hwf').
  unfold minimax_cell. rewrite Hcell. simpl. fold mark.
  rewrite Hset. simpl. rewrite Hchild. simpl.
  rewrite (place_undo self Hwf r c Hr Hc mark _ Hcell Hset). simpl.
  by destruct is_maximizing.
Qed.

(** Facts on the window of a maximizing node. *)
Lemma max_step_break (alpha0 beta0 best alpha : number) (w : Z) :
  num_lt alpha beta0 = true -> alpha = py_max alpha0 best ->
  num_le beta0 (py_max alpha (py_max best (Int w))) = true ->
  num_le beta0 (Int w) = true /\ num_le beta0 (py_max best (Int w)) = true.
Proof. intros Hlt -> Hb. num. Qed.

Lemma max_step_open (alpha0 beta0 best alpha : number) (w : Z) :
  alpha = py_max alpha0 best -> best ≠ PosInf ->
  num_le beta0 (py_max alpha (py_max best (Int w))) = false ->
  num_lt (py_max alpha (py_max best (Int w))) beta0 = true /\
  py_max alpha (py_max best (Int w)) = py_max alpha0 (py_max best (Int w)) /\
  py_max best (Int w) ≠ PosInf.
Proof. intros -> Hb Hbrk. num. Qed.

Lemma max_step_low (alpha0 best alpha : number) (w : Z) :
  alpha = py_max alpha0 best -> num_le (Int w) alpha = true ->
  py_max alpha (py_max best (Int w)) = alpha.
Proof. intros -> Hw. num. Qed.

Lemma max_step_inside (alpha0 beta0 best alpha : number) (w : Z) :
  alpha = py_max alpha0 best ->
  num_le (Int w) alpha = false ->
  num_le beta0 (py_max alpha (py_max best (Int w))) = false ->
  num_lt alpha (Int w) = true /\ num_lt (Int w) beta0 = true /\
  py_max alpha (py_max best (Int w)) = Int w.
Proof. intros -> Hw Hbrk. num. Qed.

Lemma num_le_lift (alpha : number) (x w : Z) :
  num_le (Int x) alpha = true -> num_le (Int w) alpha = false ->
  num_le (Int x) (Int w) = true.
Proof. intros Hx Hw. num. Qed.

Lemma num_le_refl (a : number) : num_le a a = true.
Proof. num. Qed.

Lemma max_step_cut (beta0 best alpha : number) (w : Z) :
  num_le beta0 alpha = true -> finite best -> num_le beta0 best = true ->
  num_le beta0 (py_max alpha (py_max best (Int w))) = true /\
  finite (py_max best (Int w)) /\
  num_le beta0 (py_max best (Int w)) = true.
Proof. intros Ha Hf Hb. num. Qed.

Lemma max_end_open_low (alpha0 alpha : number) (v t : Z) :
  alpha = py_max alpha0 (Int v) -> num_le (Int t) alpha = true ->
  num_le (Int v) alpha0 = true -> num_le (Int t) alpha0 = true.
Proof. intros -> Ht Hv. num. Qed.

Lemma max_end_open_high (alpha0 beta0 alpha : number) (v : Z) :
  num_lt alpha beta0 = true -> alpha = py_max alpha0 (Int v) ->
  num_le beta0 (Int v) = true -> False.
Proof. intros Hlt -> Hv. num. Qed.

Lemma max_end_open_exact (alpha0 alpha : number) (v : Z) :
  alpha = py_max alpha0 (Int v) -> num_lt alpha0 (Int v) = true ->
  alpha = Int v /\ alpha ≠ alpha0.
Proof. intros -> Hv. num. Qed.

Lemma max_end_cut (alpha0 beta0 : number) (v x t : Z) :
  num_lt alpha0 beta0 = true -> num_le beta0 (Int v) = true ->
  num_le beta0 (Int x) = true -> x <= t ->
  window_sound alpha0 beta0 v t.
Proof. intros Hw Hv Hx Hxt. num. Qed.

Lemma num_le_Int (x v : Z) : num_le (Int x) (Int v) = true -> x <= v.
Proof. intros H. num. Qed.

Lemma max_init (alpha0 : number) : alpha0 = py_max alpha0 NegInf.
Proof. num. Qed.

Section MaxNode.
Context (self : TicTacToeGame) (Hwf : well_formed self).
Context (child : TicTacToeGame -> number -> number -> result (number * TicTacToeGame)).
Context (alpha0 beta0 : number) (Hwindow : num_lt alpha0 beta0 = true).
Context (V : coord -> Z) (r0 c0 : Z) (Hcand0 : candidate self (r0, c0)).
Context (Hchild_total : forall rc a b, candidate self rc ->
           exists w, child (placed self rc "O") a b = Ok (Int w, placed self rc "O")).
Context (Hchild_sound : forall rc a b, candidate self rc -> num_lt a b = true ->
           exists w, child (placed self rc "O") a b = Ok (Int w, placed self rc "O") /\
                     window_sound a b w (V rc)).

Lemma max_cell_sound (r c : Z) (st : search_state) :
  0 <= r < board_size self -> 0 <= c < board_size self ->
  max_inv self alpha0 beta0 V r0 c0 r c st ->
  match minimax_cell child true r c st with
  | Ok sb => if sb.2 : bool then max_cut self beta0 V sb.1
             else max_inv self alpha0 beta0 V r0 c0 r (c + 1) sb.1
  | Raise _ => False
  end.
Proof.
  intros Hr Hc Hinv. destruct st as [[[g best] alpha] beta].
  destruct (decide (candidate self (r, c))) as [Hcand|Hn].
  2:{ (* a played cell *)
    assert (g = self) as -> by (destruct Hinv as [(-> & _)|(-> & _)]; done).
    rewrite (minimax_cell_skip child self true r c best alpha beta Hwf Hr Hc Hn).
    cbn [fst snd].
    destruct Hinv as [(_ & -> & Hlt & Ha & Hb & Hfin & Hall & Hex)|Hcut];
      [left|by right].
    split; [done|]. split; [done|]. split; [done|]. split; [done|]. split; [done|].
    split; [|split; [|done]].
    - intros Hs. apply scanned_before_succ in Hs as [Hs|[= <- <-]]; [by apply Hfin|done].
    - intros rc Hrc Hs. apply scanned_before_succ in Hs as [Hs| ->]; [by apply Hall|done]. }
  destruct Hinv as [(-> & -> & Hlt & Ha & Hb & Hfin & Hall & Hex)
                   |(-> & -> & Hge & Hbf & Hgb & Hex)].
  - (* before a cut-off: the child is searched with an open window *)
    destruct (Hchild_sound (r, c) alpha beta0 Hcand Hlt) as (w & Hw & Hs1 & Hs2 & Hs3).
    rewrite (minimax_cell_candidate child self true r c best alpha beta0 w Hwf Hcand Hw).
    cbn [fst snd].
    destruct (num_le beta0 (py_max alpha (py_max best (Int w)))) eqn:Ebrk.
    + (* the window closes: the true score of this child reaches [beta0] *)
      destruct (max_step_break alpha0 beta0 best alpha w Hlt Ha Ebrk) as (Hwb & Hbb).
      split; [done|]. split; [done|]. split; [done|].
      split; [by apply py_max_finite|]. split; [done|].
      exists (r, c). split; [done|]. by apply Hs2.
    + destruct (max_step_open alpha0 beta0 best alpha w Ha Hb Ebrk) as (Hlt' & Ha' & Hb').
      left. split; [done|]. split; [done|]. split; [done|]. split; [done|].
      split; [done|]. split; [intros _; by apply py_max_finite|].
      destruct (num_le (Int w) alpha) eqn:Ew.
      * (* at or below [alpha]: [alpha] stays *)
        rewrite (max_step_low alpha0 best alpha w Ha Ew). split; [|done].
        intros rc Hrc Hs. apply scanned_before_succ in Hs as [Hs| ->]; [by apply Hall|].
        by apply Hs1.
      * (* inside the window: the value is exact and becomes [alpha] *)
        destruct (max_step_inside alpha0 beta0 best alpha w Ha Ew Ebrk)
          as (Hin1 & Hin2 & Hnew).
        rewrite Hnew. specialize (Hs3 Hin1 Hin2). subst w.
        split; [|right; by exists (r, c)].
        intros rc Hrc Hs. apply scanned_before_succ in Hs as [Hs| ->].
        -- by apply (num_le_lift alpha); [apply Hall|].
        -- apply num_le_refl.
  - (* after a cut-off: whatever the child returns, the loop breaks again *)
    destruct (Hchild_total (r, c) alpha beta0 Hcand) as (w & Hw).
    rewrite (minimax_cell_candidate child self true r c best alpha beta0 w Hwf Hcand Hw).
    cbn [fst snd].
    destruct (max_step_cut beta0 best alpha w Hge Hbf Hgb) as (Hbrk & Hf' & Hb').
    rewrite Hbrk. done.
Qed.

Lemma max_inv_next_row (r : Z) (st : search_state) :
  max_inv self alpha0 beta0 V r0 c0 r (Z.max 0 (board_size self)) st
  \/ max_cut self beta0 V st ->
  max_inv self alpha0 beta0 V r0 c0 (r + 1) 0 st.
Proof.
  destruct st as [[[g best] alpha] beta].
  intros [[(-> & -> & Hlt & Ha & Hb & Hfin & Hall & Hex)|Hcut]|Hcut]; [left|by right..].
  split; [done|]. split; [done|]. split; [done|]. split; [done|]. split; [done|].
  split; [|split; [|done]].
  - intros Hs. by apply Hfin, (scanned_before_next_row self r (r0, c0) Hcand0).
  - intros rc Hrc Hs. apply Hall; [done|]. by apply (scanned_before_next_row self r rc Hrc).
Qed.

Lemma max_row_sound (r : Z) (st : search_state) :
  0 <= r < board_size self ->
  max_inv self alpha0 beta0 V r0 c0 r 0 st ->
  match for_break (minimax_cell child true r) (range (board_size self)) st with
  | Ok st' => max_inv self alpha0 beta0 V r0 c0 (r + 1) 0 st'
  | Raise _ => False
  end.
Proof.
  intros Hr Hinv.
  pose proof (for_break_range (max_inv self alpha0 beta0 V r0 c0 r)
                (max_cut self beta0 V) (fun _ => False)
                (minimax_cell child true r) (board_size self) st Hinv
                (fun c st1 Hc => max_cell_sound r c st1 Hr Hc)) as Hrow.
  destruct (for_break _ _ st) as [st'|e]; [|done].
  by apply max_inv_next_row.
Qed.

Lemma max_node_sound :
  match for_each (fun r => for_break (minimax_cell child true r) (range (board_size self)))
                 (range (board_size self)) (self, NegInf, alpha0, beta0) with
  | Ok st =>
      exists v, st.1.1.1 = self /\ st.1.1.2 = Int v /\
                window_sound alpha0 beta0 v (list_max (V <$> candidates self))
  | Raise _ => False
  end.
Proof.
  assert (Hinit : max_inv self alpha0 beta0 V r0 c0 0 0 (self, NegInf, alpha0, beta0)).
  { left. split; [done|]. split; [done|]. split; [done|].
    split; [apply max_init|]. split; [done|]. split; [|split; [|by left]].
    - destruct Hcand0 as ((? & ?) & (? & ?) & _). unfold scanned_before. simpl in *. lia.
    - intros [r c] (Hr & Hc & _). unfold scanned_before. simpl in *. lia. }
  pose proof (for_each_range (fun r => max_inv self alpha0 beta0 V r0 c0 r 0)
                (fun _ => False)
                (fun r => for_break (minimax_cell child true r) (range (board_size self)))
                (board_size self) _ Hinit max_row_sound) as Hloop.
  destruct (for_each _ _ _) as [[[[g best] alpha] beta]|e]; [|done].
  assert (Hscan : forall rc, candidate self rc ->
            scanned_before (Z.max 0 (board_size self)) 0 rc).
  { intros [r c] (Hr & Hc & _). unfold scanned_before. simpl in *. lia. }
  assert (Hmem : forall rc, candidate self rc -> V rc ∈ V <$> candidates self).
  { intros rc Hrc. apply list_elem_of_fmap_2. by apply elem_of_candidates. }
  assert (Hne : V <$> candidates self ≠ []).
  { intros E. specialize (Hmem _ Hcand0). rewrite E in Hmem.
    by apply not_elem_of_nil in Hmem. }
  cbn [fst snd].
  destruct Hloop as [(-> & -> & Hlt & Ha & Hb & Hfin & Hall & Hex)
                    |(-> & -> & Hge & Hbf & Hgb & Hex)].
  - (* no cut-off: every candidate was searched with an open window *)
    destruct (Hfin (Hscan _ Hcand0)) as [v ->]. exists v.
    split; [done|]. split; [done|].
    assert (Hle : forall x, x ∈ V <$> candidates self ->
              num_le (Int x) alpha = true).
    { intros x Hx. apply list_elem_of_fmap in Hx as (rc & -> & Hrc).
      apply elem_of_candidates in Hrc. by apply Hall, Hscan. }
    pose proof (Hle _ (list_max_in _ Hne)) as Hmax.
    split; [|split].
    + by apply (max_end_open_low alpha0 alpha).
    + intros Hv. by destruct (max_end_open_high alpha0 beta0 alpha v).
    + intros Hv1 _.
      destruct (max_end_open_exact alpha0 alpha v Ha Hv1) as (Halpha & Hne0).
      destruct Hex as [Hex|(rc & Hrc & Hex)]; [done|].
      rewrite Halpha in Hex. injection Hex as Hex.
      symmetry. apply list_max_unique.
      * rewrite <- Hex. by apply Hmem.
      * intros x Hx. apply num_le_Int. rewrite <- Halpha. by apply Hle.
  - (* a cut-off: some true score reaches [beta0] *)
    destruct Hbf as [v ->]. exists v. split; [done|]. split; [done|].
    destruct Hex as (rc & Hrc & Hex).
    apply (max_end_cut alpha0 beta0 v (V rc)); [done..|].
    apply list_max_ge. by apply Hmem.
Qed.
End MaxNode.

(** Facts on the window of a minimizing node. *)
Lemma min_step_break (alpha0 beta0 best beta : number) (w : Z) :
  num_lt alpha0 beta = true -> beta = py_min beta0 best ->
  num_le (py_min beta (py_min best (Int w))) alpha0 = true ->
  num_le (Int w) alpha0 = true /\ num_le (py_min best (Int w)) alpha0 = true.
Proof. intros Hlt -> Hb. num. Qed.

Lemma min_step_open (alpha0 beta0 best beta : number) (w : Z) :
  beta = py_min beta0 best -> best ≠ NegInf ->
  num_le (py_min beta (py_min best (Int w))) alpha0 = false ->
  num_lt alpha0 (py_min beta (py_min best (Int w))) = true /\
  py_min beta (py_min best (Int w)) = py_min beta0 (py_min best (Int w)) /\
  py_min best (Int w) ≠ NegInf.
Proof. intros -> Hb Hbrk. num. Qed.

Lemma min_step_high (beta0 best beta : number) (w : Z) :
  beta = py_min beta0 best -> num_le beta (Int w) = true ->
  py_min beta (py_min best (Int w)) = beta.
Proof. intros -> Hw. num. Qed.

Lemma min_step_inside (alpha0 beta0 best beta : number) (w : Z) :
  beta = py_min beta0 best ->
  num_le beta (Int w) = false ->
  num_le (py_min beta (py_min best (Int w))) alpha0 = false ->
  num_lt alpha0 (Int w) = true /\ num_lt (Int w) beta = true /\
  py_min beta (py_min best (Int w)) = Int w.
Proof. intros -> Hw Hbrk. num. Qed.

Lemma num_le_drop (beta : number) (x w : Z) :
  num_le beta (Int x) = true -> num_le beta (Int w) = false ->
  num_le (Int w) (Int x) = true.
Proof. intros Hx Hw. num. Qed.

Lemma min_step_cut (alpha0 best beta : number) (w : Z) :
  num_le beta alpha0 = true -> finite best -> num_le best alpha0 = true ->
  num_le (py_min beta (py_min best (Int w))) alpha0 = true /\
  finite (py_min best (Int w)) /\
  num_le (py_min best (Int w)) alpha0 = true.
Proof. intros Ha Hf Hb. num. Qed.

Lemma min_end_open_high (beta0 beta : number) (v t : Z) :
  beta = py_min beta0 (Int v) -> num_le beta (Int t) = true ->
  num_le beta0 (Int v) = true -> num_le beta0 (Int t) = true.
Proof. intros -> Ht Hv. num. Qed.

Lemma min_end_open_low (alpha0 beta0 beta : number) (v : Z) :
  num_lt alpha0 beta = true -> beta = py_min beta0 (Int v) ->
  num_le (Int v) alpha0 = true -> False.
Proof. intros Hlt -> Hv. num. Qed.

Lemma min_end_open_exact (beta0 beta : number) (v : Z) :
  beta = py_min beta0 (Int v) -> num_lt (Int v) beta0 = true ->
  beta = Int v /\ beta ≠ beta0.
Proof. intros -> Hv. num. Qed.

Lemma min_end_cut (alpha0 beta0 : number) (v x t : Z) :
  num_lt alpha0 beta0 = true -> num_le (Int v) alpha0 = true ->
  num_le (Int x) alpha0 = true -> t <= x ->
  window_sound alpha0 beta0 v t.
Proof. intros Hw Hv Hx Hxt. num. Qed.

Lemma min_init (beta0 : number) : beta0 = py_min beta0 PosInf.
Proof. num. Qed.

Section MinNode.
Context (self : TicTacToeGame) (Hwf : well_formed self).
Context (child : TicTacToeGame -> number -> number -> result (number * TicTacToeGame)).
Context (alpha0 beta0 : number) (Hwindow : num_lt alpha0 beta0 = true).
Context (V : coord -> Z) (r0 c0 : Z) (Hcand0 : candidate self (r0, c0)).
Context (Hchild_total : forall rc a b, candidate self rc ->
           exists w, child (placed self rc "X") a b = Ok (Int w, placed self rc "X")).
Context (Hchild_sound : forall rc a b, candidate self rc -> num_lt a b = true ->
           exists w, child (placed self rc "X") a b = Ok (Int w, placed self rc "X") /\
                     window_sound a b w (V rc)).

Lemma min_cell_sound (r c : Z) (st : search_state) :
  0 <= r < board_size self -> 0 <= c < board_size self ->
  min_inv self alpha0 beta0 V r0 c0 r c st ->
  match minimax_cell child false r c st with
  | Ok sb => if sb.2 : bool then min_cut self alpha0 V sb.1
             else min_inv self alpha0 beta0 V r0 c0 r (c + 1) sb.1
  | Raise _ => False
  end.
Proof.
  intros Hr Hc Hinv. destruct st as [[[g best] alpha] beta].
  destruct (decide (candidate self (r, c))) as [Hcand|Hn].
  2:{ (* a played cell *)
    assert (g = self) as -> by (destruct Hinv as [(-> & _)|(-> & _)]; done).
    rewrite (minimax_cell_skip child self false r c best alpha beta Hwf Hr Hc Hn).
    cbn [fst snd].
    destruct Hinv as [(_ & -> & Hlt & Ha & Hb & Hfin & Hall & Hex)|Hcut];
      [left|by right].
    split; [done|]. split; [done|]. split; [done|]. split; [done|]. split; [done|].
    split; [|split; [|done]].
    - intros Hs. apply scanned_before_succ in Hs as [Hs|[= <- <-]]; [by apply Hfin|done].
    - intros rc Hrc Hs. apply scanned_before_succ in Hs as [Hs| ->]; [by apply Hall|done]. }
  destruct Hinv as [(-> & -> & Hlt & Ha & Hb & Hfin & Hall & Hex)
                   |(-> & -> & Hge & Hbf & Hgb & Hex)].
  - (* before a cut-off: the child is searched with an open window *)
    destruct (Hchild_sound (r, c) alpha0 beta Hcand Hlt) as (w & Hw & Hs1 & Hs2 & Hs3).
    rewrite (minimax_cell_candidate child self false r c best alpha0 beta w Hwf Hcand Hw).
    cbn [fst snd].
    destruct (num_le (py_min beta (py_min best (Int w))) alpha0) eqn:Ebrk.
    + (* the window closes: the true score of this child falls to [alpha0] *)
      destruct (min_step_break alpha0 beta0 best beta w Hlt Ha Ebrk) as (Hwb & Hbb).
      split; [done|]. split; [done|]. split; [done|].
      split; [by apply py_min_finite|]. split; [done|].
      exists (r, c). split; [done|]. by apply Hs1.
    + destruct (min_step_open alpha0 beta0 best beta w Ha Hb Ebrk) as (Hlt' & Ha' & Hb').
      left. split; [done|]. split; [done|]. split; [done|]. split; [done|].
      split; [done|]. split; [intros _; by apply py_min_finite|].
      destruct (num_le beta (Int w)) eqn:Ew.
      * (* at or above [beta]: [beta] stays *)
        rewrite (min_step_high beta0 best beta w Ha Ew). split; [|done].
        intros rc Hrc Hs. apply scanned_before_succ in Hs as [Hs| ->]; [by apply Hall|].
        by apply Hs2.
      * (* inside the window: the value is exact and becomes [beta] *)
        destruct (min_step_inside alpha0 beta0 best beta w Ha Ew Ebrk)
          as (Hin1 & Hin2 & Hnew).
        rewrite Hnew. specialize (Hs3 Hin1 Hin2). subst w.
        split; [|right; by exists (r, c)].
        intros rc Hrc Hs. apply scanned_before_succ in Hs as [Hs| ->].
        -- by apply (num_le_drop beta); [apply Hall|].
        -- apply num_le_refl.
  - (* after a cut-off: whatever the child returns, the loop breaks again *)
    destruct (Hchild_total (r, c) alpha0 beta Hcand) as (w & Hw).
    rewrite (minimax_cell_candidate child self false r c best alpha0 beta w Hwf Hcand Hw).
    cbn [fst snd].
    destruct (min_step_cut alpha0 best beta w Hge Hbf Hgb) as (Hbrk & Hf' & Hb').
    rewrite Hbrk. done.
Qed.

Lemma min_inv_next_row (r : Z) (st : search_state) :
  min_inv self alpha0 beta0 V r0 c0 r (Z.max 0 (board_size self)) st
  \/ min_cut self alpha0 V st ->
  min_inv self alpha0 beta0 V r0 c0 (r + 1) 0 st.
Proof.
  destruct st as [[[g best] alpha] beta].
  intros [[(-> & -> & Hlt & Ha & Hb & Hfin & Hall & Hex)|Hcut]|Hcut]; [left|by right..].
  split; [done|]. split; [done|]. split; [done|]. split; [done|]. split; [done|].
  split; [|split; [|done]].
  - intros Hs. by apply Hfin, (scanned_before_next_row self r (r0, c0) Hcand0).
  - intros rc Hrc Hs. apply Hall; [done|]. by apply (scanned_before_next_row self r rc Hrc).
Qed.

Lemma min_row_sound (r : Z) (st : search_state) :
  0 <= r < board_size self ->
  min_inv self alpha0 beta0 V r0 c0 r 0 st ->
  match for_break (minimax_cell child false r) (range (board_size self)) st with
  | Ok st' => min_inv self alpha0 beta0 V r0 c0 (r + 1) 0 st'
  | Raise _ => False
  end.
Proof.
  intros Hr Hinv.
  pose proof (for_break_range (min_inv self alpha0 beta0 V r0 c0 r)
                (min_cut self alpha0 V) (fun _ => False)
                (minimax_cell child false r) (board_size self) st Hinv
                (fun c st1 Hc => min_cell_sound r c st1 Hr Hc)) as Hrow.
  destruct (for_break _ _ st) as [st'|e]; [|done].
  by apply min_inv_next_row.
Qed.

Lemma min_node_sound :
  match for_each (fun r => for_break (minimax_cell child false r) (range (board_size self)))
                 (range (board_size self)) (self, PosInf, alpha0, beta0) with
  | Ok st =>
      exists v, st.1.1.1 = self /\ st.1.1.2 = Int v /\
                window_sound alpha0 beta0 v (list_min (V <$> candidates self))
  | Raise _ => False
  end.
Proof.
  assert (Hinit : min_inv self alpha0 beta0 V r0 c0 0 0 (self, PosInf, alpha0, beta0)).
  { left. split; [done|]. split; [done|]. split; [done|].
    split; [apply min_init|]. split; [done|]. split; [|split; [|by left]].
    - destruct Hcand0 as ((? & ?) & (? & ?) & _). unfold scanned_before. simpl in *. lia.
    - intros [r c] (Hr & Hc & _). unfold scanned_before. simpl in *. lia. }
  pose proof (for_each_range (fun r => min_inv self alpha0 beta0 V r0 c0 r 0)
                (fun _ => False)
                (fun r => for_break (minimax_cell child false r) (range (board_size self)))
                (board_size self) _ Hinit min_row_sound) as Hloop.
  destruct (for_each _ _ _) as [[[[g best] alpha] beta]|e]; [|done].
  assert (Hscan : forall rc, candidate self rc ->
            scanned_before (Z.max 0 (board_size self)) 0 rc).
  { intros [r c] (Hr & Hc & _). unfold scanned_before. simpl in *. lia. }
  assert (Hmem : forall rc, candidate self rc -> V rc ∈ V <$> candidates self).
  { intros rc Hrc. apply list_elem_of_fmap_2. by apply elem_of_candidates. }
  assert (Hne : V <$> candidates self ≠ []).
  { intros E. specialize (Hmem _ Hcand0). rewrite E in Hmem.
    by apply not_elem_of_nil in Hmem. }
  cbn [fst snd].
  destruct Hloop as [(-> & -> & Hlt & Ha & Hb & Hfin & Hall & Hex)
                    |(-> & -> & Hge & Hbf & Hgb & Hex)].
  - (* no cut-off: every candidate was searched with an open window *)
    destruct (Hfin (Hscan _ Hcand0)) as [v ->]. exists v.
    split; [done|]. split; [done|].
    assert (Hle : forall x, x ∈ V <$> candidates self ->
              num_le beta (Int x) = true).
    { intros x Hx. apply list_elem_of_fmap in Hx as (rc & -> & Hrc).
      apply elem_of_candidates in Hrc. by apply Hall, Hscan. }
    pose proof (Hle _ (list_min_in _ Hne)) as Hmin.
    split; [|split].
    + intros Hv. by destruct (min_end_open_low alpha0 beta0 beta v).
    + by apply (min_end_open_high beta0 beta).
    + intros _ Hv2.
      destruct (min_end_open_exact beta0 beta v Ha Hv2) as (Hbeta & Hne0).
      destruct Hex as [Hex|(rc & Hrc & Hex)]; [done|].
      rewrite Hbeta in Hex. injection Hex as Hex.
      symmetry. apply list_min_unique.
      * rewrite <- Hex. by apply Hmem.
      * intros x Hx. apply num_le_Int. rewrite <- Hbeta. by apply Hle.
  - (* a cut-off: some true score falls to [alpha0] *)
    destruct Hbf as [v ->]. exists v. split; [done|]. split; [done|].
    destruct Hex as (rc & Hrc & Hex).
    apply (min_end_cut alpha0 beta0 v (V rc)); [done..|].
    apply list_min_le. by apply Hmem.
Qed.
End MinNode.

(** A candidate cell with a mark placed on it: one unplayed cell less. *)
Lemma placed_candidate (self : TicTacToeGame) (rc : coord) (mark : string) :
  well_formed self -> candidate self rc -> mark ≠ ""%string ->
  well_formed (placed self rc mark) /\
  (empty_cells (placed self rc mark) + 1 = empty_cells self)%nat.
Proof.
  intros Hwf Hcand Hmark. destruct rc as [r c].
  pose proof Hcand as (Hr & Hc & _). simpl in Hr, Hc.
  destruct (placed_well_formed self r c mark Hwf Hr Hc) as (Hset & Hwf').
  split; [done|].
  apply (place_empty_cells self Hwf r c Hr Hc mark _ Hmark); [|done].
  by apply candidate_cell.
Qed.

(** The search with a window [alpha < beta] returns a value that is
    sound for the window with respect to the unpruned score. *)
Lemma minimax_fuel_sound (fuel : nat) :
  forall self, well_formed self -> (empty_cells self < fuel)%nat ->
  forall is_maximizing alpha beta max_depth depth,
  num_lt alpha beta = true ->
  exists v,
    minimax_fuel fuel self is_maximizing alpha beta max_depth depth = Ok (Int v, self) /\
    window_sound alpha beta v (plain_value fuel self is_maximizing max_depth depth).
Proof.
  induction fuel as [|fuel IH]; intros self Hwf Hlt im alpha beta md d Hwin; [lia|].
  cbn [minimax_fuel plain_value]. rewrite (get_winner_well_formed self Hwf).
  cbn [mbind result_bind].
  pose proof (heuristic_evaluation_value self Hwf) as Hh.
  destruct (first_filled self (_winning_combos self)) as [[mark combo]|] eqn:Ef.
  { (* a combo is filled *)
    cbn [fst]. rewrite bool_decide_eq_true_2, orb_true_r by done.
    destruct (winner_is (Some mark) "X"); [eexists; split; [done|apply window_sound_exact]|].
    destruct (winner_is (Some mark) "O"); [eexists; split; [done|apply window_sound_exact]|].
    destruct (winner_is (Some mark) "TIE"); [eexists; split; [done|apply window_sound_exact]|].
    rewrite Hh. simpl. eexists; split; [done|apply window_sound_exact]. }
  destruct (board_full self) eqn:Efull.
  { (* a tie *)
    cbn [fst]. rewrite bool_decide_eq_true_2, orb_true_r by done. simpl.
    eexists; split; [done|apply window_sound_exact]. }
  cbn [fst]. rewrite bool_decide_eq_false_2, orb_false_r by (intros H; by apply H).
  destruct (md =? d).
  { (* cut off by the depth bound *)
    simpl. rewrite Hh. simpl. eexists; split; [done|apply window_sound_exact]. }
  destruct (board_not_full self Hwf Efull) as (r0 & c0 & Hcand).
  set (child := fun s a b => minimax_fuel fuel s (negb im) a b md (d + 1)).
  destruct im; cbn [negb] in *.
  - (* the maximizing side *)
    set (V := fun rc => plain_value fuel (placed self rc "O") false md (d + 1)).
    assert (Htotal : forall rc a b, candidate self rc ->
              exists w, child (placed self rc "O") a b = Ok (Int w, placed self rc "O")).
    { intros rc a b Hrc.
      destruct (placed_candidate self rc "O" Hwf Hrc) as (Hwf' & Hcount); [done|].
      apply minimax_fuel_total; [done|lia]. }
    assert (Hsound : forall rc a b, candidate self rc -> num_lt a b = true ->
              exists w, child (placed self rc "O") a b = Ok (Int w, placed self rc "O") /\
                        window_sound a b w (V rc)).
    { intros rc a b Hrc Hab.
      destruct (placed_candidate self rc "O" Hwf Hrc) as (Hwf' & Hcount); [done|].
      apply IH; [done|lia|done]. }
    pose proof (max_node_sound self Hwf child alpha beta Hwin V r0 c0 Hcand
                  Htotal Hsound) as Hnode.
    destruct (for_each _ _ _) as [[[[g best] a] b]|e]; [|done].
    destruct Hnode as (v & Hg & Hbest & Hv). cbn [fst snd] in Hg, Hbest. subst g best.
    exists v. by split.
  - (* the minimizing side *)
    set (V := fun rc => plain_value fuel (placed self rc "X") true md (d + 1)).
    assert (Htotal : forall rc a b, candidate self rc ->
              exists w, child (placed self rc "X") a b = Ok (Int w, placed self rc "X")).
    { intros rc a b Hrc.
      destruct (placed_candidate self rc "X" Hwf Hrc) as (Hwf' & Hcount); [done|].
      apply minimax_fuel_total; [done|lia]. }
    assert (Hsound : forall rc a b, candidate self rc -> num_lt a b = true ->
              exists w, child (placed self rc "X") a b = Ok (Int w, placed self rc "X") /\
                        window_sound a b w (V rc)).
    { intros rc a b Hrc Hab.
      destruct (placed_candidate self rc "X" Hwf Hrc) as (Hwf' & Hcount); [done|].
      apply IH; [done|lia|done]. }
    pose proof (min_node_sound self Hwf child alpha beta Hwin V r0 c0 Hcand
                  Htotal Hsound) as Hnode.
    destruct (for_each _ _ _) as [[[[g best] a] b]|e]; [|done].
    destruct Hnode as (v & Hg & Hbest & Hv). cbn [fst snd] in Hg, Hbest. subst g best.
    exists v. by split.
Qed.

(** The unpruned score does not depend on the fuel once it exceeds the
    number of unplayed cells. *)
Lemma plain_value_fuel (fuel : nat) :
  forall fuel' self is_maximizing max_depth depth,
  well_formed self ->
  (empty_cells self < fuel)%nat -> (empty_cells self < fuel')%nat ->
  plain_value fuel self is_maximizing max_depth depth
  = plain_value fuel' self is_maximizing max_depth depth.
Proof.
  induction fuel as [|fuel IH]; intros [|fuel'] self im md d Hwf H1 H2; try lia.
  cbn [plain_value].
  destruct (get_winner self) as [[winner combo]|e]; [|done].
  destruct ((md =? d) || bool_decide (winner ≠ None)); [done|].
  cbv zeta.
  assert (Hext : forall mark, mark ≠ ""%string ->
            (fun rc => plain_value fuel (placed self rc mark) (negb im) md (d + 1))
              <$> candidates self
            = (fun rc => plain_value fuel' (placed self rc mark) (negb im) md (d + 1))
              <$> candidates self).
  { intros mark Hmark. apply Forall_fmap_ext_1, Forall_forall. intros rc Hrc.
    apply elem_of_candidates in Hrc.
    destruct (placed_candidate self rc mark Hwf Hrc Hmark) as (Hwf' & Hcount).
    apply IH; [done|lia..]. }
  destruct im; by rewrite Hext.
Qed.

(** The unpruned score of a position is its terminal score, or the best
    of the unpruned scores of the positions one move away. *)
Lemma plain_minimax_unfold (self : TicTacToeGame) (is_maximizing : bool)
    (max_depth depth : Z) :
  well_formed self ->
  plain_minimax self is_maximizing max_depth depth
  = match get_winner self with
    | Ok (winner, _) =>
        if (max_depth =? depth) || bool_decide (winner ≠ None) then
          if winner_is winner "X" then -10 + depth
          else if winner_is winner "O" then 10 - depth
          else if winner_is winner "TIE" then 0
          else match heuristic_evaluation self with Ok h => h | Raise _ => 0 end
        else
          let mark := if is_maximizing then "O"%string else "X"%string in
          let scores :=
            (fun rc => plain_minimax (placed self rc mark) (negb is_maximizing)
                                     max_depth (depth + 1))
              <$> candidates self in
          if is_maximizing then list_max scores else list_min scores
    | Raise _ => 0
    end.
Proof.
  intros Hwf. unfold plain_minimax at 1. cbn [plain_value].
  destruct (get_winner self) as [[winner combo]|e]; [|done].
  destruct ((max_depth =? depth) || bool_decide (winner ≠ None)); [done|].
  cbv zeta.
  assert (Hext : forall mark, mark ≠ ""%string ->
            (fun rc => plain_value (empty_cells self) (placed self rc mark)
                         (negb is_maximizing) max_depth (depth + 1))
              <$> candidates self
            = (fun rc => plain_minimax (placed self rc mark) (negb is_maximizing)
                           max_depth (depth + 1))
              <$> candidates self).
  { intros mark Hmark. apply Forall_fmap_ext_1, Forall_forall. intros rc Hrc.
    apply elem_of_candidates in Hrc.
    destruct (placed_candidate self rc mark Hwf Hrc Hmark) as (Hwf' & Hcount).
    unfold plain_minimax. apply plain_value_fuel; [done|lia..]. }
  destruct is_maximizing; by rewrite Hext.
Qed.

(** X7. On a well-formed game, [minimax] called with a window
    [alpha < beta] returns an integer [v] and the game unchanged, and
    [v] tells the unpruned score [t] of the position up to the window:
    if [v <= alpha] then [t <= alpha], if [beta <= v] then [beta <= t],
    and if [alpha < v < beta] then [v = t].  The [break], which leaves
    only the inner loop, so that the scan goes on in the next row with a
    closed window, does not change this. *)
Theorem minimax_window_sound (self : TicTacToeGame) (is_maximizing : bool)
    (alpha beta : number) (max_depth depth : Z) :
  well_formed self ->
  num_lt alpha beta = true ->
  exists v,
    minimax self is_maximizing alpha beta max_depth depth = Ok (Int v, self) /\
    window_sound alpha beta v (plain_minimax self is_maximizing max_depth depth).
Proof.
  intros Hwf Hwin. unfold minimax, plain_minimax.
  apply minimax_fuel_sound; [done|lia|done].
Qed.

Lemma minimax_window_sound_witness :
  well_formed missed_win_position /\
  num_lt (Int (-1)) (Int 1) = true /\
  exists v,
    minimax missed_win_position true (Int (-1)) (Int 1) 3 0
    = Ok (Int v, missed_win_position) /\
    window_sound (Int (-1)) (Int 1) v (plain_minimax missed_win_position true 3 0).
Proof.
  assert (Hwf : well_formed missed_win_position) by (split; reflexivity).
  split; [done|]. split; [reflexivity|].
  apply (minimax_window_sound missed_win_position true (Int (-1)) (Int 1) 3 0 Hwf).
  reflexivity.
Defined.

(** X8. The score [ai] computes for an unplayed cell, a search with the
    window from minus infinity to infinity, is the unpruned score of the
    position with "O" placed on the cell: the pruning changes no score
    that [ai] compares. *)
Theorem candidate_score_unpruned (self : TicTacToeGame) (max_depth : Z) (rc : coord) :
  well_formed self ->
  candidate self rc ->
  candidate_score self max_depth rc
  = Ok (Int (plain_minimax (placed self rc "O") false max_depth 0)).
Proof.
  intros Hwf Hcand. destruct rc as [r c].
  pose proof Hcand as (Hr & Hc & _). simpl in Hr, Hc.
  destruct (placed_well_formed self r c "O" Hwf Hr Hc) as (Hset & Hwf').
  unfold candidate_score. cbn [fst snd]. rewrite Hset. cbn [mbind result_bind].
  destruct (minimax_window_sound (placed self (r, c) "O") false NegInf PosInf max_depth 0
              Hwf' eq_refl) as (v & -> & _ & _ & Hv).
  cbn [mbind result_bind fst]. by rewrite (Hv eq_refl eq_refl).
Qed.

Lemma candidate_score_unpruned_witness :
  well_formed missed_win_position /\
  candidate missed_win_position (2, 1) /\
  candidate_score missed_win_position 3 (2, 1)
  = Ok (Int (plain_minimax (placed missed_win_position (2, 1) "O") false 3 0)).
Proof.
  assert (Hwf : well_formed missed_win_position) by (split; reflexivity).
  assert (Hcand : candidate missed_win_position (2, 1))
    by (split; [simpl; lia|split; [simpl; lia|reflexivity]]).
  split; [done|]. split; [done|].
  apply (candidate_score_unpruned missed_win_position 3 (2, 1) Hwf Hcand).
Defined.

(** ** The search of src/test.py *)

(** The loops of a node return an integer score when the searches of the
    positions one move away do. *)
Lemma node_total
    (child : TicTacToeGame -> number -> number -> result (number * TicTacToeGame))
    (self : TicTacToeGame) (is_maximizing : bool) (alpha beta : number) :
  well_formed self ->
  (exists rc, candidate self rc) ->
  (forall placed, well_formed placed ->
     (empty_cells placed + 1 = empty_cells self)%nat ->
     forall a b, exists z, child placed a b = Ok (Int z, placed)) ->
  exists z a b,
    for_each (fun r => for_break (minimax_cell child is_maximizing r)
                                 (range (board_size self)))
             (range (board_size self))
             (self, if is_maximizing then NegInf else PosInf, alpha, beta)
    = Ok (self, Int z, a, b).
Proof.
  intros Hwf ([r0 c0] & Hcand) Hchild. set (im := is_maximizing).
  set (InvC := fun (r c : Z) (st : search_state) =>
         let '(g, best, _, _) := st in
         g = self /\ sane im best /\ (scanned_before r c (r0, c0) -> finite best)).
  set (Brk := fun (st : search_state) =>
         let '(g, best, _, _) := st in g = self /\ finite best).
  assert (Hinit : InvC 0 0 (self, if im then NegInf else PosInf, alpha, beta)).
  { unfold InvC, sane, scanned_before. simpl.
    destruct Hcand as ((? & ?) & (? & ?) & _). simpl in *.
    split; [done|]. split; [by destruct im|]. lia. }
  assert (Hcell : forall r, 0 <= r < board_size self ->
            forall c st, 0 <= c < board_size self -> InvC r c st ->
            match minimax_cell child im r c st with
            | Ok sb => if sb.2 : bool then Brk sb.1 else InvC r (c + 1) sb.1
            | Raise e => False
            end).
  { intros r Hr c [[[g best] a] b] Hc (-> & Hsane & Hfin).
    destruct (minimax_cell_step child self im r c best a b Hwf Hr Hc Hchild Hsane)
      as (best' & a' & b' & brk & -> & Hsane' & Hkeep & Hnew & Hbrk).
    simpl. destruct brk; [by split; [|apply Hbrk]|].
    split; [done|]. split; [done|]. unfold scanned_before in *. simpl in *.
    intros [H|[-> H]]; [apply Hkeep, Hfin; by left|].
    destruct (decide (c0 = c)) as [->|]; [by apply Hnew|].
    apply Hkeep, Hfin. right. lia. }
  assert (Hrow : forall r st, 0 <= r < board_size self -> InvC r 0 st ->
            match for_break (minimax_cell child im r) (range (board_size self)) st with
            | Ok s' => InvC (r + 1) 0 s'
            | Raise e => False
            end).
  { intros r st Hr Hinv.
    pose proof (for_break_range (InvC r) Brk (fun _ => False)
                  (minimax_cell child im r) (board_size self) st Hinv (Hcell r Hr)) as Hfb.
    destruct (for_break (minimax_cell child im r) (range (board_size self)) st)
      as [[[[g best] a] b]|e]; [|done].
    destruct Hfb as [(-> & Hsane & Hfin)|(-> & Hfin)].
    - split; [done|]. split; [done|]. unfold scanned_before in *. simpl in *.
      destruct Hcand as (_ & (? & ?) & _). simpl in *.
      intros [Hv|[_ Hv]]; [|lia]. apply Hfin. lia.
    - split; [done|]. split; [by apply finite_sane|]. done. }
  pose proof (for_each_range (fun r => InvC r 0) (fun _ => False)
                (fun r => for_break (minimax_cell child im r) (range (board_size self)))
                (board_size self) _ Hinit Hrow) as Hloop.
  destruct (for_each _ _ _) as [[[[g best] a] b]|e]; [|done].
  destruct Hloop as (-> & _ & Hfin).
  destruct Hfin as [z ->]; [|eauto].
  unfold scanned_before. simpl. destruct Hcand as ((? & ?) & _). simpl in *. lia.
Qed.

(** [get_winner] of src/test.py on a well-formed game. *)
Lemma test_py_get_winner_well_formed (self : TicTacToeGame) :
  well_formed self ->
  test_py.get_winner self
  = Ok match first_filled self (_winning_combos self) with
       | Some (mark, _) => Some mark
       | None => if board_full self then Some "TIE"%string else None
       end.
Proof.
  intros Hwf. unfold test_py.get_winner.
  rewrite (scan_combos_inside self Hwf) by (by apply wf_combos_inside). simpl.
  destruct (first_filled self (_winning_combos self)) as [[mark combo]|]; [done|].
  by destruct (board_full self).
Qed.

(** The label a well-formed game reports sends [minimax] of src/test.py
    into a terminal branch, or the board has an unplayed cell. *)
Lemma test_py_get_winner_cases (self : TicTacToeGame) :
  well_formed self ->
  exists winner,
    test_py.get_winner self = Ok winner /\
    (winner_is winner "X" = true \/ winner_is winner "Y" = true \/
     winner_is winner "TIE" = true \/
     (winner = None /\ exists rc, candidate self rc)).
Proof.
  intros Hwf. rewrite (test_py_get_winner_well_formed self Hwf).
  destruct (first_filled self (_winning_combos self)) as [[mark combo]|] eqn:Ef.
  - exists (Some mark). split; [done|].
    apply first_filled_Some in Ef as (_ & [(-> & _)|(-> & _)]); auto.
  - destruct (board_full self) eqn:Efull.
    + exists (Some "TIE"%string). split; [done|]. auto.
    + exists None. split; [done|]. do 3 right. split; [done|].
      destruct (board_not_full self Hwf Efull) as (r & c & H). by exists (r, c).
Qed.

Lemma test_py_minimax_fuel_total (fuel : nat) :
  forall self, well_formed self -> (empty_cells self < fuel)%nat ->
  forall is_maximizing alpha beta depth,
  exists z,
    test_py.minimax_fuel fuel self is_maximizing alpha beta depth = Ok (Int z, self).
Proof.
  induction fuel as [|fuel IH]; intros self Hwf Hlt im alpha beta d; [lia|].
  cbn [test_py.minimax_fuel].
  destruct (test_py_get_winner_cases self Hwf) as (winner & -> & Hcases).
  cbn [mbind result_bind].
  destruct (winner_is winner "X"); [eauto|].
  destruct (winner_is winner "Y"); [eauto|].
  destruct (winner_is winner "TIE"); [eauto|].
  destruct Hcases as [?|[?|[?|(_ & Hcand)]]]; try done.
  set (child := fun s a b => test_py.minimax_fuel fuel s (negb im) a b (d + 1)).
  destruct (node_total child self im alpha beta Hwf Hcand) as (z & a & b & ->).
  { intros placed Hwf' Hcount a b. apply IH; [done|lia]. }
  simpl. eauto.
Qed.

Lemma test_py_minimax_fuel_sound (fuel : nat) :
  forall self, well_formed self -> (empty_cells self < fuel)%nat ->
  forall is_maximizing alpha beta depth,
  num_lt alpha beta = true ->
  exists v,
    test_py.minimax_fuel fuel self is_maximizing alpha beta depth = Ok (Int v, self) /\
    window_sound alpha beta v (test_py_plain_value fuel self is_maximizing depth).
Proof.
  induction fuel as [|fuel IH]; intros self Hwf Hlt im alpha beta d Hwin; [lia|].
  cbn [test_py.minimax_fuel test_py_plain_value].
  destruct (test_py_get_winner_cases self Hwf) as (winner & -> & Hcases).
  cbn [mbind result_bind].
  destruct (winner_is winner "X"); [eexists; split; [done|apply window_sound_exact]|].
  destruct (winner_is winner "Y"); [eexists; split; [done|apply window_sound_exact]|].
  destruct (winner_is winner "TIE"); [eexists; split; [done|apply window_sound_exact]|].
  destruct Hcases as [?|[?|[?|(_ & [r0 c0] & Hcand)]]]; try done.
  set (child := fun s a b => test_py.minimax_fuel fuel s (negb im) a b (d + 1)).
  destruct im; cbn [negb] in *.
  - set (V := fun rc => test_py_plain_value fuel (placed self rc "O") false (d + 1)).
    assert (Htotal : forall rc a b, candidate self rc ->
              exists w, child (placed self rc "O") a b = Ok (Int w, placed self rc "O")).
    { intros rc a b Hrc.
      destruct (placed_candidate self rc "O" Hwf Hrc) as (Hwf' & Hcount); [done|].
      apply test_py_minimax_fuel_total; [done|lia]. }
    assert (Hsound : forall rc a b, candidate self rc -> num_lt a b = true ->
              exists w, child (placed self rc "O") a b = Ok (Int w, placed self rc "O") /\
                        window_sound a b w (V rc)).
    { intros rc a b Hrc Hab.
      destruct (placed_candidate self rc "O" Hwf Hrc) as (Hwf' & Hcount); [done|].
      apply IH; [done|lia|done]. }
    pose proof (max_node_sound self Hwf child alpha beta Hwin V r0 c0 Hcand
                  Htotal Hsound) as Hnode.
    destruct (for_each _ _ _) as [[[[g best] a] b]|e]; [|done].
    destruct Hnode as (v & Hg & Hbest & Hv). cbn [fst snd] in Hg, Hbest. subst g best.
    exists v. by split.
  - set (V := fun rc => test_py_plain_value fuel (placed self rc "X") true (d + 1)).
    assert (Htotal : forall rc a b, candidate self rc ->
              exists w, child (placed self rc "X") a b = Ok (Int w, placed self rc "X")).
    { intros rc a b Hrc.
      destruct (placed_candidate self rc "X" Hwf Hrc) as (Hwf' & Hcount); [done|].
      apply test_py_minimax_fuel_total; [done|lia]. }
    assert (Hsound : forall rc a b, candidate self rc -> num_lt a b = true ->
              exists w, child (placed self rc "X") a b = Ok (Int w, placed self rc "X") /\
                        window_sound a b w (V rc)).
    { intros rc a b Hrc Hab.
      destruct (placed_candidate self rc "X" Hwf Hrc) as (Hwf' & Hcount); [done|].
      apply IH; [done|lia|done]. }
    pose proof (min_node_sound self Hwf child alpha beta Hwin V r0 c0 Hcand
                  Htotal Hsound) as Hnode.
    destruct (for_each _ _ _) as [[[[g best] a] b]|e]; [|done].
    destruct Hnode as (v & Hg & Hbest & Hv). cbn [fst snd] in Hg, Hbest. subst g best.
    exists v. by split.
Qed.

(** X9. [minimax] of src/test.py on a well-formed game returns an
    integer and the game unchanged for every window; for a window
    [alpha < beta] the value is sound for the window with respect to the
    unpruned score of the position, and with the window from minus
    infinity to infinity, the one [ai] passes, it is that score. *)
Theorem test_py_minimax_window_sound (self : TicTacToeGame) (is_maximizing : bool)
    (alpha beta : number) (depth : Z) :
  well_formed self ->
  exists v,
    test_py.minimax self is_maximizing alpha beta depth = Ok (Int v, self) /\
    (num_lt alpha beta = true ->
     window_sound alpha beta v (test_py_plain_minimax self is_maximizing depth)) /\
    (alpha = NegInf -> beta = PosInf ->
     v = test_py_plain_minimax self is_maximizing depth).
Proof.
  intros Hwf. unfold test_py.minimax, test_py_plain_minimax.
  destruct (num_lt alpha beta) eqn:Hwin.
  - destruct (test_py_minimax_fuel_sound (S (empty_cells self)) self Hwf (Nat.lt_succ_diag_r _)
                is_maximizing alpha beta depth Hwin) as (v & Hv & Hs).
    exists v. split; [done|]. split; [done|].
    intros -> ->. destruct Hs as (_ & _ & Hs). by apply Hs.
  - destruct (test_py_minimax_fuel_total (S (empty_cells self)) self Hwf (Nat.lt_succ_diag_r _)
                is_maximizing alpha beta depth) as (v & Hv).
    exists v. split; [done|]. split; [done|]. by intros -> ->.
Qed.

Lemma test_py_minimax_window_sound_witness :
  well_formed missed_win_position /\
  exists v,
    test_py.minimax missed_win_position true NegInf PosInf 0
    = Ok (Int v, missed_win_position) /\
    (num_lt NegInf PosInf = true ->
     window_sound NegInf PosInf v (test_py_plain_minimax missed_win_position true 0)) /\
    (NegInf = NegInf -> PosInf = PosInf ->
     v = test_py_plain_minimax missed_win_position true 0).
Proof.
  assert (Hwf : well_formed missed_win_position) by (split; reflexivity).
  split; [done|].
  apply (test_py_minimax_window_sound missed_win_position true NegInf PosInf 0 Hwf).
Defined.

(** * The window *)

(** ** Game objects with the same board *)

Lemma same_board_refl (g : TicTacToeGame) : same_board g g.
Proof. done. Qed.

Lemma same_board_sym (g g' : TicTacToeGame) : same_board g g' -> same_board g' g.
Proof. intros (? & ? & ?). done. Qed.

Lemma same_board_trans (g g' g'' : TicTacToeGame) :
  same_board g g' -> same_board g' g'' -> same_board g g''.
Proof. intros (? & ? & ?) (? & ? & ?). repeat split; congruence. Qed.

Lemma same_but_turn_board (g g' : TicTacToeGame) : same_but_turn g g' -> same_board g g'.
Proof. intros (? & ? & ? & ? & ?). done. Qed.

Lemma same_board_set_has_winner (g : TicTacToeGame) (flag : bool) :
  same_board g (gui.set_has_winner g flag).
Proof. done. Qed.

Section SameBoard.
Context (g g' : TicTacToeGame) (Hsame : same_board g g').

Lemma same_board_well_formed : well_formed g -> well_formed g'.
Proof.
  destruct Hsame as (Hn & Hb & Hc). intros [H1 H2].
  split; by rewrite ?Hn, ?Hb, ?Hc.
Qed.

Lemma same_board_cell (r c : Z) : cell g' r c = cell g r c.
Proof. destruct Hsame as (_ & Hb & _). unfold cell. by rewrite Hb. Qed.

Lemma same_board_label_at (rc : coord) : label_at g' rc = label_at g rc.
Proof. unfold label_at. by rewrite same_board_cell. Qed.

Lemma same_board_empty_cells : empty_cells g' = empty_cells g.
Proof. destruct Hsame as (_ & Hb & _). unfold empty_cells. by rewrite Hb. Qed.

Lemma same_board_board_full : board_full g' = board_full g.
Proof. destruct Hsame as (_ & Hb & _). unfold board_full. by rewrite Hb. Qed.

Lemma same_board_candidate (rc : coord) : candidate g' rc <-> candidate g rc.
Proof.
  destruct Hsame as (Hn & _). unfold candidate.
  by rewrite Hn, same_board_label_at.
Qed.

Lemma same_board_filled_by (mark : string) (combo : list coord) :
  filled_by g' mark combo = filled_by g mark combo.
Proof.
  unfold filled_by. induction combo as [|rc combo IH]; [done|].
  simpl. by rewrite IH, same_board_label_at.
Qed.

Lemma same_board_first_filled :
  first_filled g' (_winning_combos g') = first_filled g (_winning_combos g).
Proof.
  destruct Hsame as (_ & _ & ->).
  induction (_winning_combos g) as [|combo rest IH]; [done|].
  simpl. by rewrite !same_board_filled_by, IH.
Qed.

Lemma same_board_set_cell (r c : Z) (m : Move) (g1 : TicTacToeGame) :
  set_cell g r c m = Ok g1 ->
  exists g1', set_cell g' r c m = Ok g1' /\ same_board g1 g1'.
Proof.
  destruct Hsame as (Hn & Hb & Hc). unfold set_cell. rewrite Hb.
  destruct (py_index (_current_moves g) r) as [rw|]; [|done]. simpl.
  destruct (py_setitem rw c m) as [rw'|]; [|done]. simpl.
  destruct (py_setitem (_current_moves g) r rw') as [b|]; [|done]. simpl.
  intros [= <-]. eexists. split; [done|]. done.
Qed.
End SameBoard.

Lemma same_board_placed (g g' : TicTacToeGame) (rc : coord) (mark : string) :
  same_board g g' -> same_board (placed g rc mark) (placed g' rc mark).
Proof.
  intros Hsame. unfold placed.
  destruct (set_cell g rc.1 rc.2 _) as [g1|e] eqn:E.
  - destruct (same_board_set_cell g g' Hsame _ _ _ _ E) as (g1' & -> & H). done.
  - destruct (set_cell g' rc.1 rc.2 _) as [g1'|e'] eqn:E'; [|done].
    destruct (same_board_set_cell g' g (same_board_sym _ _ Hsame) _ _ _ _ E')
      as (g1 & E1 & _). congruence.
Qed.

(** ** Counting the cells *)

Lemma length_concat_uniform {A} (b : list (list A)) (k : nat) :
  (forall rw, rw ∈ b -> length rw = k) -> length (concat b) = (length b * k)%nat.
Proof.
  induction b as [|rw b IH]; intros H; [done|]. simpl.
  rewrite List.length_app, IH by (intros; apply H; by right).
  rewrite (H rw) by left. lia.
Qed.

Lemma wf_cells (self : TicTacToeGame) :
  well_formed self -> 0 <= board_size self ->
  Z.of_nat (length (concat (_current_moves self))) = board_size self ^ 2.
Proof.
  intros Hwf Hn.
  rewrite (length_concat_uniform _ (Z.to_nat (board_size self))).
  - rewrite (wf_length self Hwf). lia.
  - intros rw Hrw. apply list_elem_of_lookup in Hrw as (i & Hi).
    by apply (wf_row_length self Hwf i).
Qed.

Lemma empty_cells_bound (self : TicTacToeGame) :
  well_formed self -> 0 <= board_size self ->
  0 <= Z.of_nat (empty_cells self) <= board_size self ^ 2.
Proof.
  intros Hwf Hn. rewrite <- (wf_cells self Hwf Hn). unfold empty_cells.
  pose proof (length_filter (fun move => label move = ""%string)
                (concat (_current_moves self))). lia.
Qed.

Lemma empty_cells_all_empty (self : TicTacToeGame) :
  well_formed self -> 0 <= board_size self ->
  (forall m, m ∈ concat (_current_moves self) -> label m = ""%string) ->
  Z.of_nat (empty_cells self) = board_size self ^ 2.
Proof.
  intros Hwf Hn Hall. rewrite <- (wf_cells self Hwf Hn). unfold empty_cells.
  do 2 f_equal. induction (concat (_current_moves self)) as [|m l IH]; [done|].
  rewrite filter_cons_True by (apply Hall; left).
  f_equal. apply IH. intros m' Hm'. apply Hall. by right.
Qed.

(** ** A board without marks *)

Lemma init_moves (players : list Player) (size : Z) (self : TicTacToeGame) :
  init players size = Ok self ->
  _current_moves self = setup_moves size /\ _has_winner self = false.
Proof.
  unfold init. destruct (next_player (players, 0%nat)) as [[p ps]|e]; [|done].
  simpl. unfold _setup_board. simpl.
  rewrite get_winning_combos_setup. simpl. by intros [= <-].
Qed.

Lemma init_labels (players : list Player) (size : Z) (self : TicTacToeGame) (m : Move) :
  init players size = Ok self ->
  m ∈ concat (_current_moves self) -> label m = ""%string.
Proof.
  intros Hinit. destruct (init_well_formed _ _ _ Hinit) as (Hwf & Hn).
  destruct (init_moves _ _ _ Hinit) as (Hb & _).
  rewrite Hb, <- Hn, <- (reset_game_moves self Hwf). apply reset_game_labels.
Qed.

Lemma wf_combos_nonempty (self : TicTacToeGame) (combo : list coord) :
  well_formed self -> 1 <= board_size self ->
  combo ∈ _winning_combos self -> combo ≠ [].
Proof.
  intros Hwf Hn Hc. pose proof (wf_combos _ Hwf) as H.
  rewrite get_winning_combos_setup in H. injection H as H. rewrite <- H in Hc.
  apply grid_lines_length in Hc. intros ->. simpl in Hc. lia.
Qed.

Lemma unmarked_board (self : TicTacToeGame) :
  well_formed self -> 1 <= board_size self ->
  (forall m, m ∈ concat (_current_moves self) -> label m = ""%string) ->
  first_filled self (_winning_combos self) = None /\
  Z.of_nat (empty_cells self) = board_size self ^ 2 /\
  forall rc, label_at self rc = ""%string.
Proof.
  intros Hwf Hn Hall.
  assert (Hl : forall rc, label_at self rc = ""%string)
    by (intros rc; by apply label_at_all_empty).
  split; [|split; [|done]].
  - apply first_filled_all_empty; [done|].
    intros combo. by apply wf_combos_nonempty.
  - apply empty_cells_all_empty; [done|lia|done].
Qed.

(** ** The grid of buttons *)

Lemma create_buttons (l : list coord) :
  forall self : gui.TicTacToeBoard,
  let self' := foldl (fun s rc => gui.create_button s rc.1 rc.2) self l in
  gui._game self' = gui._game self /\
  gui._cells_left self' = gui._cells_left self /\
  gui.display self' = gui.display self /\
  (forall w, gui._cells self' !! w
             = if decide (w ∈ l) then Some w else gui._cells self !! w) /\
  (forall rc, gui._buttons self' !! rc
              = if decide (rc ∈ l) then Some rc else gui._buttons self !! rc) /\
  (forall w, gui.widgets self' !! w
             = if decide (w ∈ l) then Some blank_button else gui.widgets self !! w).
Proof.
  induction l as [|[r c] l IH]; intros self; simpl.
  - repeat split; intros; by rewrite decide_False by apply not_elem_of_nil.
  - destruct (IH (gui.create_button self r c)) as (Hg & Hn & Hd & Hc & Hb & Hw).
    split; [done|]. split; [done|]. split; [done|].
    split; [|split]; intros w.
    + rewrite Hc. simpl. destruct (decide (w ∈ l)) as [Hin|Hin].
      * rewrite decide_True by (by right). done.
      * destruct (decide (w = (r, c))) as [->|Hne].
        -- rewrite decide_True by left. by rewrite lookup_insert_eq.
        -- rewrite decide_False by (intros [?|?]%elem_of_cons; done).
           by rewrite lookup_insert_ne.
    + rewrite Hb. simpl. destruct (decide (w ∈ l)) as [Hin|Hin].
      * rewrite decide_True by (by right). done.
      * destruct (decide (w = (r, c))) as [->|Hne].
        -- rewrite decide_True by left. by rewrite lookup_insert_eq.
        -- rewrite decide_False by (intros [?|?]%elem_of_cons; done).
           by rewrite lookup_insert_ne.
    + rewrite Hw. simpl. destruct (decide (w ∈ l)) as [Hin|Hin].
      * rewrite decide_True by (by right). done.
      * destruct (decide (w = (r, c))) as [->|Hne].
        -- rewrite decide_True by left. by rewrite lookup_insert_eq.
        -- rewrite decide_False by (intros [?|?]%elem_of_cons; done).
           by rewrite lookup_insert_ne.
Qed.

Lemma create_buttons_row (row : Z) (cols : list Z) (self : gui.TicTacToeBoard) :
  foldl (fun s col => gui.create_button s row col) self cols
  = foldl (fun s rc => gui.create_button s rc.1 rc.2) self
          (cols ≫= fun c => [(row, c)]).
Proof.
  revert self. induction cols as [|c cols IH]; intros self; [done|].
  simpl. by rewrite IH.
Qed.

Lemma create_board_grid_scan (self : gui.TicTacToeBoard) :
  gui._create_board_grid self
  = foldl (fun s rc => gui.create_button s rc.1 rc.2) self
          (scan_order (board_size (gui._game self))).
Proof.
  unfold gui._create_board_grid, scan_order.
  set (n := board_size (gui._game self)).
  assert (Hn : board_size (gui._game self) = n) by done. clearbody n.
  generalize (range n) at 1 3. intros rows.
  revert self Hn. induction rows as [|r rows IH]; intros self Hn; [done|].
  cbn [foldl]. rewrite bind_cons, foldl_app, Hn, create_buttons_row.
  apply IH.
  by destruct (create_buttons (range n ≫= fun c => [(r, c)]) self) as (-> & _).
Qed.

Lemma create_board_grid_maps (self : gui.TicTacToeBoard) :
  let n := board_size (gui._game self) in
  let self' := gui._create_board_grid self in
  let on_grid := fun rc : coord => 0 <= rc.1 < n /\ 0 <= rc.2 < n in
  gui._game self' = gui._game self /\
  gui._cells_left self' = gui._cells_left self /\
  gui.display self' = gui.display self /\
  (forall w, on_grid w -> gui._cells self' !! w = Some w) /\
  (forall w, ~ on_grid w -> gui._cells self' !! w = gui._cells self !! w) /\
  (forall rc, on_grid rc -> gui._buttons self' !! rc = Some rc) /\
  (forall rc, ~ on_grid rc -> gui._buttons self' !! rc = gui._buttons self !! rc) /\
  (forall w, on_grid w -> gui.widgets self' !! w = Some blank_button).
Proof.
  intros n self' on_grid. unfold self'. rewrite create_board_grid_scan. fold n.
  destruct (create_buttons (scan_order n) self) as (Hg & Hn & Hd & Hc & Hb & Hw).
  split; [done|]. split; [done|]. split; [done|].
  repeat split; intros w Hon; rewrite ?Hc, ?Hb, ?Hw;
    solve [ rewrite decide_True by (by apply elem_of_scan_order); done
          | rewrite decide_False by (by rewrite elem_of_scan_order); done ].
Qed.

(** ** The layout of the window *)

Lemma label_at_placed (g : TicTacToeGame) (rc rc' : coord) (mark : string) :
  well_formed g ->
  0 <= rc.1 < board_size g -> 0 <= rc.2 < board_size g ->
  0 <= rc'.1 < board_size g -> 0 <= rc'.2 < board_size g ->
  label_at (placed g rc mark) rc' = if decide (rc' = rc) then mark else label_at g rc'.
Proof.
  intros Hwf Hr Hc Hr' Hc'. destruct rc as [r c], rc' as [r' c']. simpl in *.
  unfold label_at. simpl.
  rewrite (cell_placed g r c r' c' mark Hwf Hr Hc Hr' Hc').
  by destruct (decide _).
Qed.

Lemma grid_bound_inside (self : gui.TicTacToeBoard) (rc : coord) (w : Z * Z) :
  grid_bound self -> gui._buttons self !! rc = Some w ->
  0 <= rc.1 < board_size (gui._game self) /\ 0 <= rc.2 < board_size (gui._game self).
Proof. intros (_ & Hdom) Hb. apply Hdom. by exists w. Qed.

Lemma grid_bound_button (self : gui.TicTacToeBoard) (rc : coord) :
  grid_bound self ->
  0 <= rc.1 < board_size (gui._game self) -> 0 <= rc.2 < board_size (gui._game self) ->
  exists w, gui._buttons self !! rc = Some w /\ gui._cells self !! w = Some rc.
Proof.
  intros (Hinv & Hdom) Hr Hc. destruct (proj2 (Hdom rc)) as (w & Hw); [done|].
  exists w. split; [done|]. by apply Hinv.
Qed.

Lemma grid_bound_cell (self : gui.TicTacToeBoard) (w : Z * Z) (rc : coord) :
  grid_bound self -> gui._cells self !! w = Some rc ->
  gui._buttons self !! rc = Some w /\
  0 <= rc.1 < board_size (gui._game self) /\ 0 <= rc.2 < board_size (gui._game self).
Proof.
  intros Hgrid Hc. pose proof Hgrid as (Hinv & _).
  apply Hinv in Hc. split; [done|]. by apply (grid_bound_inside self rc w).
Qed.

Lemma layout_game (self : gui.TicTacToeBoard) (g' : TicTacToeGame) :
  layout self -> same_board (gui._game self) g' -> layout (gui.set_game self g').
Proof.
  intros (Hwf & Hn & (Hinv & Hdom) & Hmir) Hsame.
  pose proof Hsame as (Hsize & _).
  split; [by apply (same_board_well_formed (gui._game self))|].
  split; [simpl; by rewrite Hsize|].
  split; [split; [done|]; intros rc; simpl; rewrite Hsize; apply Hdom|].
  intros rc w Hb. destruct (Hmir rc w Hb) as (b & Hw & Ht).
  exists b. split; [done|]. simpl.
  by rewrite (same_board_label_at _ _ Hsame).
Qed.

Lemma layout_mark (self : gui.TicTacToeBoard) (rc : coord) (w : Z * Z)
    (mark col : string) (g' : TicTacToeGame) :
  layout self -> gui._buttons self !! rc = Some w ->
  same_board (placed (gui._game self) rc mark) g' ->
  layout (gui.set_game (gui._update_button self w mark col) g').
Proof.
  intros (Hwf & Hn & Hgrid & Hmir) Hb Hsame.
  pose proof Hgrid as (Hinv & Hdom).
  destruct (grid_bound_inside self rc w Hgrid Hb) as (Hr & Hc).
  destruct (placed_fields (gui._game self) rc mark) as (Hsize & _).
  pose proof Hsame as (Hsize' & _).
  assert (Hwf' : well_formed (placed (gui._game self) rc mark)).
  { destruct rc as [r c]. by apply placed_well_formed. }
  split; [by apply (same_board_well_formed _ _ Hsame)|].
  split; [simpl; by rewrite Hsize', Hsize|].
  split; [split; [done|]; intros rc'; simpl; rewrite Hsize', Hsize; apply Hdom|].
  intros rc' w' Hb'. simpl in Hb'. simpl.
  destruct (Hmir rc' w' Hb') as (b & Hw & Ht).
  destruct (grid_bound_inside self rc' w' Hgrid Hb') as (Hr' & Hc').
  rewrite (same_board_label_at _ _ Hsame),
    (label_at_placed _ rc rc' mark Hwf Hr Hc Hr' Hc').
  destruct (decide (w' = w)) as [->|Hne].
  - assert (rc' = rc) as ->.
    { apply Hinv in Hb, Hb'. congruence. }
    rewrite decide_True by done.
    exists (gui.config_fg col (gui.config_text mark b)).
    split; [|done]. by rewrite !lookup_alter_eq, Hw.
  - rewrite decide_False by (intros ->; congruence).
    exists b. split; [|done]. by rewrite !lookup_alter_ne.
Qed.

Lemma highlight_cells_text (self : gui.TicTacToeBoard) (combo : list coord) (w : Z * Z) :
  gui.text <$> gui.widgets (gui._highlight_cells self combo) !! w
  = gui.text <$> gui.widgets self !! w.
Proof.
  unfold gui._highlight_cells. simpl.
  apply (map_fold_weak_ind
           (fun r (_ : gmap (Z * Z) coord) =>
              gui.text <$> r !! w = gui.text <$> gui.widgets self !! w)); [done|].
  intros button coordinates m r _ IH.
  destruct (bool_decide (coordinates ∈ combo)); [|done].
  destruct (decide (button = w)) as [->|Hne].
  - rewrite lookup_alter_eq, <- IH. by destruct (r !! w).
  - by rewrite lookup_alter_ne.
Qed.

Lemma layout_highlight_cells (self : gui.TicTacToeBoard) (combo : list coord) :
  layout self -> layout (gui._highlight_cells self combo).
Proof.
  intros (Hwf & Hn & Hgrid & Hmir). split; [done|]. split; [done|]. split; [done|].
  intros rc w Hb. destruct (Hmir rc w Hb) as (b & Hw & Ht).
  pose proof (highlight_cells_text self combo w) as Htext.
  rewrite Hw in Htext.
  destruct (gui.widgets (gui._highlight_cells self combo) !! w) as [b'|]; [|done].
  exists b'. split; [done|]. simpl in Htext. injection Htext as ->. done.
Qed.

Lemma layout_handle_game_end (self : gui.TicTacToeBoard) (winner : option string)
    (combo : list coord) :
  layout self -> layout (gui._handle_game_end self winner combo).
Proof.
  intros Hlay. unfold gui._handle_game_end.
  destruct (winner_is winner "TIE"); [done|].
  apply (layout_highlight_cells
           (gui.set_game self (gui.set_has_winner (gui._game self) true)) combo).
  by apply layout_game.
Qed.

Lemma fresh_window (game : TicTacToeGame) (size : Z) :
  well_formed game -> board_size game = size -> 1 <= size ->
  _has_winner game = false ->
  in_turn DEFAULT_PLAYERS 0 game ->
  (forall m, m ∈ concat (_current_moves game) -> label m = ""%string) ->
  consistent (gui.__init__ game size) /\
  gui._cells_left (gui.__init__ game size) = size ^ 2 /\
  gui.display (gui.__init__ game size) = gui.mkLabel "Ready?" None /\
  gui._game (gui.__init__ game size) = game.
Proof.
  intros Hwf Hsize Hn Hflag Hturn Hall. unfold gui.__init__.
  set (self := gui.mkBoard ∅ (size ^ 2) ∅ game (gui.mkLabel "Ready?" None) ∅).
  destruct (create_board_grid_maps self)
    as (Hg & Hcl & Hd & Hc1 & Hc2 & Hb1 & Hb2 & Hw).
  simpl in Hg, Hcl, Hd, Hc1, Hc2, Hb1, Hb2, Hw.
  destruct (unmarked_board game Hwf ltac:(lia) Hall) as (Hff & Hcount & Hl).
  split; [|done]. split; rewrite ?Hg; try done.
  - lia.
  - by exists 0%nat.
  - rewrite Hcl, Hcount. by rewrite Hsize.
  - split.
    + intros rc w.
      destruct (decide (0 <= rc.1 < board_size game /\ 0 <= rc.2 < board_size game))
        as [Hon|Hoff].
      * rewrite (Hb1 rc Hon). split.
        -- intros [= <-]. by apply Hc1.
        -- destruct (decide (0 <= w.1 < board_size game /\ 0 <= w.2 < board_size game))
             as [Hon'|Hoff'].
           ++ rewrite (Hc1 w Hon'). by intros [= ->].
           ++ by rewrite (Hc2 w Hoff').
      * rewrite (Hb2 rc Hoff). split; [done|].
        destruct (decide (0 <= w.1 < board_size game /\ 0 <= w.2 < board_size game))
          as [Hon'|Hoff'].
        -- rewrite (Hc1 w Hon'). by intros [= ->].
        -- by rewrite (Hc2 w Hoff').
    + intros rc. rewrite Hg.
      destruct (decide (0 <= rc.1 < board_size game /\ 0 <= rc.2 < board_size game))
        as [Hon|Hoff].
      * rewrite (Hb1 rc Hon). split; [done|]. by eexists.
      * rewrite (Hb2 rc Hoff). split; [by intros [? ?]|]. intros (? & ?). by destruct Hoff.
  - intros rc w Hb. rewrite Hg, Hl.
    destruct (decide (0 <= rc.1 < board_size game /\ 0 <= rc.2 < board_size game))
      as [Hon|Hoff].
    + rewrite (Hb1 rc Hon) in Hb. injection Hb as <-.
      exists blank_button. split; [by apply Hw|done].
    + by rewrite (Hb2 rc Hoff) in Hb.
Qed.

(** ** The handlers, step by step *)

Lemma in_turn_X (g : TicTacToeGame) :
  in_turn DEFAULT_PLAYERS 0 g -> current_player g = mkPlayer "X" "blue".
Proof. intros (_ & [= <-] & _). done. Qed.

Lemma in_turn_O (g : TicTacToeGame) :
  in_turn DEFAULT_PLAYERS 1 g -> current_player g = mkPlayer "O" "green".
Proof. intros (_ & [= <-] & _). done. Qed.

Lemma in_turn_default (g : TicTacToeGame) (i : nat) :
  in_turn DEFAULT_PLAYERS i g -> i = 0%nat \/ i = 1%nat.
Proof. intros (Hi & _). simpl in Hi. lia. Qed.

Lemma in_turn_same (players : list Player) (i : nat) (g g' : TicTacToeGame) :
  current_player g' = current_player g -> _players g' = _players g ->
  in_turn players i g -> in_turn players i g'.
Proof. intros Hc Hp (? & ? & ?). unfold in_turn. by rewrite Hc, Hp. Qed.

Lemma in_turn_placed (players : list Player) (i : nat) (g : TicTacToeGame)
    (rc : coord) (mark : string) :
  in_turn players i g -> in_turn players i (placed g rc mark).
Proof.
  destruct (placed_fields g rc mark) as (_ & _ & _ & Hc & Hp & _).
  by apply in_turn_same.
Qed.

Lemma toggle_default (g : TicTacToeGame) (i : nat) :
  in_turn DEFAULT_PLAYERS i g ->
  exists g', toggle_player g = Ok g' /\
             in_turn DEFAULT_PLAYERS (1 - i) g' /\ same_but_turn g g'.
Proof.
  intros Hin. destruct (toggle_player_in_turn _ _ _ Hin) as (g' & Ht & Hin' & Hsame).
  exists g'. split; [done|]. split; [|done].
  by destruct (in_turn_default g i Hin) as [-> | ->].
Qed.

Lemma is_valid_move_inside (g : TicTacToeGame) (rc : coord) (mark : string) :
  well_formed g ->
  0 <= rc.1 < board_size g -> 0 <= rc.2 < board_size g ->
  is_valid_move g (mkMove rc.1 rc.2 mark)
  = Ok (negb (_has_winner g) && String.eqb (label_at g rc) "").
Proof.
  intros Hwf Hr Hc. unfold is_valid_move, label_at. simpl.
  by destruct (wf_cell g Hwf _ _ Hr Hc) as (s & ->).
Qed.

(** What [get_winner] returns after a move. *)
Lemma get_winner_truth (g : TicTacToeGame) :
  well_formed g ->
  exists winner combo,
    get_winner g = Ok (winner, combo) /\
    (gui.truth winner = true ->
     (exists mark, first_filled g (_winning_combos g) = Some (mark, combo) /\
                   winner = Some mark /\ winner_is winner "TIE" = false) \/
     (first_filled g (_winning_combos g) = None /\ board_full g = true /\
      winner = Some "TIE"%string /\ combo = [])) /\
    (gui.truth winner = false ->
     first_filled g (_winning_combos g) = None /\ board_full g = false /\
     winner = None /\ combo = []).
Proof.
  intros Hwf. rewrite (get_winner_well_formed g Hwf).
  destruct (first_filled g (_winning_combos g)) as [[mark combo]|] eqn:Ef.
  - exists (Some mark), combo. split; [done|].
    apply first_filled_Some in Ef as (_ & [(-> & _)|(-> & _)]);
      (split; [intros _; left; by eexists|done]).
  - destruct (board_full g) eqn:Efull.
    + exists (Some "TIE"%string), []. split; [done|]. split; [by right|done].
    + exists None, []. split; [done|]. split; [done|]. done.
Qed.

Lemma update_button_mark (self : gui.TicTacToeBoard) (w : Z * Z) (rc : coord)
    (mark col : string) :
  well_formed (gui._game self) ->
  0 <= rc.1 < board_size (gui._game self) -> 0 <= rc.2 < board_size (gui._game self) ->
  (game ← gui.engine (set_cell (gui._game (gui._update_button self w mark col))
                               rc.1 rc.2 (mkMove rc.1 rc.2 mark));
   gui.Done (gui.set_game (gui._update_button self w mark col) game))
  = gui.Done (marked self w rc mark col).
Proof.
  intros Hwf Hr Hc. destruct rc as [r c]. simpl in Hr, Hc. cbn [fst snd].
  change (gui._game (gui._update_button self w mark col)) with (gui._game self).
  destruct (placed_well_formed (gui._game self) r c mark Hwf Hr Hc) as (-> & _).
  done.
Qed.

Lemma handle_ai_move_run (s : gui.TicTacToeBoard) :
  layout s ->
  gui._cells_left s = Z.of_nat (empty_cells (gui._game s)) ->
  board_size (gui._game s) ^ 2 <= 2 ^ 53 ->
  in_turn DEFAULT_PLAYERS 1 (gui._game s) ->
  board_full (gui._game s) = false ->
  exists rc0 w0,
    candidate (gui._game s) rc0 /\
    ai (gui._game s) (gui._cells_left s) = Ok (Some rc0, gui._game s) /\
    gui._buttons s !! rc0 = Some w0 /\
    let s3 := marked s w0 rc0 "O" "green" in
    exists winner combo,
      get_winner (gui._game s3) = Ok (winner, combo) /\
      if gui.truth winner
      then gui._handle_ai_move s = gui.Done (gui._handle_game_end s3 winner combo)
      else exists g4,
             toggle_player (gui._game s3) = Ok g4 /\
             in_turn DEFAULT_PLAYERS 0 g4 /\ same_but_turn (gui._game s3) g4 /\
             gui._handle_ai_move s
             = gui.Done (gui._update_display (gui.set_game s3 g4) "X's turn" "black").
Proof.
  intros Hlay Hcl Hbig Hturn Hfull.
  pose proof Hlay as (Hwf & Hn & Hgrid & Hmir).
  destruct (board_not_full _ Hwf Hfull) as (r1 & c1 & Hcand1).
  pose proof (ai_outcome (gui._game s) Hwf (gui._cells_left s) _ eq_refl) as Hout.
  rewrite ai_max_depth_value in Hout.
  2:{ nia. }
  2:{ rewrite Hcl. apply empty_cells_bound; [done|lia]. }
  destruct (ai (gui._game s) (gui._cells_left s)) as [[mv g']|e] eqn:Hai.
  2:{ by destruct Hout as (Hout & _). }
  destruct Hout as (-> & [(-> & Hnone)|(d & rc0 & z & _ & -> & Hbest)]).
  { by destruct (Hnone (r1, c1)). }
  destruct Hbest as (Hcand0 & _).
  pose proof Hcand0 as (Hr0 & Hc0 & _).
  destruct (grid_bound_button s rc0 Hgrid Hr0 Hc0) as (w0 & Hb0 & _).
  exists rc0, w0. split; [done|]. split; [done|]. split; [done|].
  intros s3.
  assert (Hlay3 : layout s3)
    by apply (layout_mark s rc0 w0 "O" "green" _ Hlay Hb0 (same_board_refl _)).
  destruct (get_winner_truth (gui._game s3) (proj1 Hlay3))
    as (winner & combo & Hgw & _).
  exists winner, combo. split; [done|].
  pose proof (in_turn_O _ Hturn) as Hcur.
  assert (Hstep : gui._handle_ai_move s
            = '(winner, winner_combo) ← gui.engine (get_winner (gui._game s3));
              if gui.truth winner
              then gui.Done (gui._handle_game_end s3 winner winner_combo)
              else game ← gui.engine (toggle_player (gui._game s3));
                   gui.Done (gui._update_display (gui.set_game s3 game)
                     (player_label (current_player game) +:+ "'s turn") "black")).
  { subst s3. unfold gui._handle_ai_move, marked. rewrite Hai.
    cbn [gui.engine mbind gui.outcome_bind].
    destruct rc0 as [r0 c0]. destruct s as [cells cl buttons g disp ws].
    unfold gui.set_game, gui._update_button, gui.set_widgets, gui.getitem in *.
    cbn [gui._buttons gui._cells gui._cells_left gui._game gui.display gui.widgets
         fst snd] in *.
    rewrite Hb0. cbn [mbind gui.outcome_bind].
    rewrite Hcur. cbn [player_label color].
    destruct (placed_well_formed g r0 c0 "O" Hwf Hr0 Hc0) as (Hset & _).
    rewrite Hset. done. }
  rewrite Hstep, Hgw. cbn [gui.engine mbind gui.outcome_bind].
  destruct (gui.truth winner); [done|].
  assert (Hturn3 : in_turn DEFAULT_PLAYERS 1 (gui._game s3))
    by (by apply in_turn_placed).
  destruct (toggle_default _ _ Hturn3) as (g4 & Ht & Hin4 & Hsame4).
  exists g4. split; [done|]. split; [done|]. split; [done|].
  rewrite Ht. cbn [gui.engine mbind gui.outcome_bind].
  by rewrite (in_turn_X _ Hin4).
Qed.

Lemma candidate_not_full (g : TicTacToeGame) (rc : coord) :
  well_formed g -> candidate g rc -> empty_cells g ≠ 0%nat.
Proof. intros Hwf Hcand Hzero. by apply (no_candidate_when_full g rc Hwf Hzero). Qed.

Lemma consistent_layout (self : gui.TicTacToeBoard) : consistent self -> layout self.
Proof. intros [? ? ? ? ? ? ? ?]. done. Qed.

(** A press that is not a valid move changes nothing. *)
Lemma play_invalid (self : gui.TicTacToeBoard) (btn : Z * Z) (rc : coord) :
  layout self -> gui._cells self !! btn = Some rc ->
  _has_winner (gui._game self) = true \/ label_at (gui._game self) rc ≠ ""%string ->
  gui.play self btn = gui.Done self.
Proof.
  intros (Hwf & Hn & Hgrid & Hmir) Hc Hno.
  destruct (grid_bound_cell self btn rc Hgrid Hc) as (_ & Hr & Hcol).
  unfold gui.play, gui.getitem. rewrite Hc. destruct rc as [r c].
  cbn [mbind gui.outcome_bind].
  rewrite (is_valid_move_inside (gui._game self) (r, c) _ Hwf Hr Hcol).
  cbn [gui.engine mbind gui.outcome_bind].
  destruct Hno as [-> | Hl]; [done|].
  apply String.eqb_neq in Hl. rewrite Hl. by rewrite andb_false_r.
Qed.

(** A press that is a valid move, up to the reply. *)
Lemma play_run (self : gui.TicTacToeBoard) (btn : Z * Z) (rc : coord) :
  consistent self ->
  gui._cells self !! btn = Some rc ->
  _has_winner (gui._game self) = false ->
  label_at (gui._game self) rc = ""%string ->
  let s1 := gui.set_cells_left (marked self btn rc "X" "blue") (gui._cells_left self - 1) in
  candidate (gui._game self) rc /\
  in_turn DEFAULT_PLAYERS 0 (gui._game self) /\
  exists winner combo,
    get_winner (gui._game s1) = Ok (winner, combo) /\
    if gui.truth winner
    then gui.play self btn = gui.Done (gui._handle_game_end s1 winner combo)
    else exists g2,
           toggle_player (gui._game s1) = Ok g2 /\
           in_turn DEFAULT_PLAYERS 1 g2 /\ same_but_turn (gui._game s1) g2 /\
           gui.play self btn
           = (s3 ← gui._handle_ai_move
                     (gui._update_display (gui.set_game s1 g2) "O's turn" "black");
              gui.Done (gui.set_cells_left s3 (gui._cells_left s3 - 1))).
Proof.
  intros Hcs Hc Hflag Hl s1. pose proof (consistent_layout _ Hcs) as Hlay.
  pose proof Hlay as (Hwf & Hn & Hgrid & Hmir).
  destruct (grid_bound_cell self btn rc Hgrid Hc) as (Hb & Hr & Hcol).
  assert (Hcand : candidate (gui._game self) rc) by done.
  pose proof (cs_turn _ Hcs Hflag (candidate_not_full _ _ Hwf Hcand)) as Hturn.
  split; [done|]. split; [done|].
  assert (Hlay1 : layout s1)
    by apply (layout_mark self rc btn "X" "blue" _ Hlay Hb (same_board_refl _)).
  destruct (get_winner_truth (gui._game s1) (proj1 Hlay1))
    as (winner & combo & Hgw & _).
  exists winner, combo. split; [done|].
  pose proof (in_turn_X _ Hturn) as Hcur.
  assert (Hstep : gui.play self btn
            = '(winner, winner_combo) ← gui.engine (get_winner (gui._game s1));
              if gui.truth winner
              then gui.Done (gui._handle_game_end s1 winner winner_combo)
              else game ← gui.engine (toggle_player (gui._game s1));
                   s3 ← gui._handle_ai_move
                          (gui._update_display (gui.set_game s1 game)
                             (player_label (current_player game) +:+ "'s turn") "black");
                   gui.Done (gui.set_cells_left s3 (gui._cells_left s3 - 1))).
  { subst s1. unfold gui.play, marked, gui.getitem. rewrite Hc.
    destruct rc as [r c]. cbn [mbind gui.outcome_bind].
    rewrite Hcur. cbn [player_label color].
    rewrite (is_valid_move_inside (gui._game self) (r, c) _ Hwf Hr Hcol).
    rewrite Hflag, Hl. cbn [gui.engine mbind gui.outcome_bind negb andb String.eqb].
    destruct self as [cells cl buttons g disp ws].
    unfold gui.set_game, gui._update_button, gui.set_widgets, gui.set_cells_left in *.
    cbn [gui._buttons gui._cells gui._cells_left gui._game gui.display gui.widgets
         fst snd] in *.
    destruct (placed_well_formed g r c "X" Hwf Hr Hcol) as (Hset & _).
    rewrite Hset. done. }
  rewrite Hstep, Hgw. cbn [gui.engine mbind gui.outcome_bind].
  destruct (gui.truth winner); [done|].
  assert (Hturn1 : in_turn DEFAULT_PLAYERS 0 (gui._game s1))
    by (by apply in_turn_placed).
  destruct (toggle_default _ _ Hturn1) as (g2 & Ht & Hin2 & Hsame2).
  exists g2. split; [done|]. split; [done|]. split; [done|].
  rewrite Ht. cbn [gui.engine mbind gui.outcome_bind].
  by rewrite (in_turn_O _ Hin2).
Qed.

Lemma get_winner_facts (g : TicTacToeGame) (winner : option string) (combo : list coord) :
  well_formed g -> get_winner g = Ok (winner, combo) ->
  (gui.truth winner = true ->
   (exists mark, first_filled g (_winning_combos g) = Some (mark, combo) /\
                 winner = Some mark /\ winner_is winner "TIE" = false) \/
   (first_filled g (_winning_combos g) = None /\ board_full g = true /\
    winner = Some "TIE"%string /\ combo = [])) /\
  (gui.truth winner = false ->
   first_filled g (_winning_combos g) = None /\ board_full g = false /\
   winner = None /\ combo = []).
Proof.
  intros Hwf Hgw. destruct (get_winner_truth g Hwf) as (w & c & Hgw' & H).
  rewrite Hgw in Hgw'. by injection Hgw' as <- <-.
Qed.

(** ** The handlers keep the window consistent *)

Lemma handle_game_end_frame (s : gui.TicTacToeBoard) (winner : option string)
    (combo : list coord) :
  gui._cells (gui._handle_game_end s winner combo) = gui._cells s /\
  gui._buttons (gui._handle_game_end s winner combo) = gui._buttons s /\
  gui._cells_left (gui._handle_game_end s winner combo) = gui._cells_left s /\
  same_board (gui._game s) (gui._game (gui._handle_game_end s winner combo)) /\
  current_player (gui._game (gui._handle_game_end s winner combo))
  = current_player (gui._game s) /\
  _players (gui._game (gui._handle_game_end s winner combo)) = _players (gui._game s) /\
  _has_winner (gui._game (gui._handle_game_end s winner combo))
  = (if winner_is winner "TIE" then _has_winner (gui._game s) else true).
Proof. unfold gui._handle_game_end. by destruct (winner_is winner "TIE"). Qed.

Lemma handle_game_end_consistent (s : gui.TicTacToeBoard) (winner : option string)
    (combo : list coord) :
  layout s ->
  (exists i, in_turn DEFAULT_PLAYERS i (gui._game s)) ->
  gui._cells_left s = Z.of_nat (empty_cells (gui._game s)) ->
  _has_winner (gui._game s) = false ->
  get_winner (gui._game s) = Ok (winner, combo) ->
  gui.truth winner = true ->
  consistent (gui._handle_game_end s winner combo).
Proof.
  intros Hlay (i & Hin) Hcl Hflag Hgw Htruth.
  pose proof (layout_handle_game_end s winner combo Hlay) as (Hwf' & Hn' & Hgrid' & Hmir').
  destruct (handle_game_end_frame s winner combo)
    as (_ & _ & Hcl' & Hsame & Hcur & Hps & Hflag').
  destruct (proj1 (get_winner_facts _ _ _ (proj1 Hlay) Hgw) Htruth)
    as [(mark & Hff & -> & Htie)|(Hff & Hfull & -> & ->)].
  - rewrite Htie in Hflag'.
    split; try done.
    + exists i. by apply (in_turn_same _ _ (gui._game s)).
    + by rewrite Hcl', (same_board_empty_cells _ _ Hsame).
    + intros H. congruence.
    + intros H. congruence.
  - split; try done.
    + exists i. by apply (in_turn_same _ _ (gui._game s)).
    + intros _ Hne. apply board_full_empty_cells in Hfull. by destruct Hne.
Qed.

Lemma play_goes_on_consistent (s3 : gui.TicTacToeBoard) (g4 : TicTacToeGame)
    (msg col : string) (n : Z) :
  layout s3 ->
  _has_winner (gui._game s3) = false ->
  first_filled (gui._game s3) (_winning_combos (gui._game s3)) = None ->
  same_but_turn (gui._game s3) g4 ->
  in_turn DEFAULT_PLAYERS 0 g4 ->
  n = Z.of_nat (empty_cells (gui._game s3)) ->
  consistent (gui.set_cells_left (gui._update_display (gui.set_game s3 g4) msg col) n).
Proof.
  intros Hlay Hflag Hff Hsame Hin ->.
  pose proof (same_but_turn_board _ _ Hsame) as Hboard.
  pose proof (layout_game s3 g4 Hlay Hboard) as (Hwf' & Hn' & Hgrid' & Hmir').
  split; try done.
  - by exists 0%nat.
  - simpl. by rewrite (same_board_empty_cells _ _ Hboard).
  - intros _. simpl. by rewrite (same_board_first_filled _ _ Hboard).
Qed.

(** A press on a button of the grid returns and keeps the window
    consistent. *)
Lemma play_step (self : gui.TicTacToeBoard) (button : Z * Z) :
  consistent self ->
  board_size (gui._game self) ^ 2 <= 2 ^ 53 ->
  is_Some (gui._cells self !! button) ->
  exists self',
    gui.play self button = gui.Done self' /\
    consistent self' /\
    gui._cells self' = gui._cells self /\
    gui._buttons self' = gui._buttons self.
Proof.
  intros Hcs Hbig (rc & Hc). pose proof (consistent_layout _ Hcs) as Hlay.
  pose proof Hlay as (Hwf & Hn & Hgrid & Hmir).
  destruct (_has_winner (gui._game self)) eqn:Hflag.
  { exists self. split; [|done]. apply (play_invalid self button rc Hlay Hc). by left. }
  destruct (decide (label_at (gui._game self) rc = ""%string)) as [Hl|Hl].
  2:{ exists self. split; [|done]. apply (play_invalid self button rc Hlay Hc). by right. }
  destruct (play_run self button rc Hcs Hc Hflag Hl)
    as (Hcand & Hturn & winner & combo & Hgw & Hplay).
  destruct (grid_bound_cell self button rc Hgrid Hc) as (Hb & Hr & Hcol).
  set (s1 := gui.set_cells_left (marked self button rc "X" "blue")
                                (gui._cells_left self - 1)) in *.
  assert (Hlay1 : layout s1)
    by apply (layout_mark self rc button "X" "blue" _ Hlay Hb (same_board_refl _)).
  destruct (placed_candidate (gui._game self) rc "X" Hwf Hcand) as (Hwf1 & Hcount1);
    [done|].
  assert (Hcl1 : gui._cells_left s1 = Z.of_nat (empty_cells (gui._game s1))).
  { simpl. rewrite (cs_cells_left _ Hcs). lia. }
  assert (Hflag1 : _has_winner (gui._game s1) = false).
  { simpl. by destruct (placed_fields (gui._game self) rc "X") as (_ & -> & _). }
  assert (Hturn1 : in_turn DEFAULT_PLAYERS 0 (gui._game s1))
    by (by apply in_turn_placed).
  destruct (gui.truth winner) eqn:Htruth.
  { (* the game ends with the press *)
    eexists. split; [done|].
    split; [apply handle_game_end_consistent; eauto|].
    by destruct (handle_game_end_frame s1 winner combo) as (-> & -> & _). }
  destruct Hplay as (g2 & Ht & Hin2 & Hsame2 & Hplay).
  destruct (proj2 (get_winner_facts _ _ _ Hwf1 Hgw) Htruth) as (Hff1 & Hfull1 & _).
  pose proof (same_but_turn_board _ _ Hsame2) as Hboard2.
  set (s2 := gui._update_display (gui.set_game s1 g2) "O's turn" "black") in *.
  assert (Hlay2 : layout s2) by apply (layout_game s1 g2 Hlay1 Hboard2).
  assert (Hcl2 : gui._cells_left s2 = Z.of_nat (empty_cells (gui._game s2))).
  { simpl. rewrite (same_board_empty_cells _ _ Hboard2).
    simpl in Hcl1. done. }
  assert (Hbig2 : board_size (gui._game s2) ^ 2 <= 2 ^ 53).
  { destruct Hboard2 as (Hsz & _). simpl. rewrite Hsz. simpl.
    by destruct (placed_fields (gui._game self) rc "X") as (-> & _). }
  assert (Hfull2 : board_full (gui._game s2) = false).
  { simpl. by rewrite (same_board_board_full _ _ Hboard2). }
  destruct (handle_ai_move_run s2 Hlay2 Hcl2 Hbig2 Hin2 Hfull2)
    as (rc0 & w0 & Hcand0 & Hai & Hb0 & winner' & combo' & Hgw' & Hmove).
  set (s3 := marked s2 w0 rc0 "O" "green") in *.
  assert (Hlay3 : layout s3)
    by apply (layout_mark s2 rc0 w0 "O" "green" _ Hlay2 Hb0 (same_board_refl _)).
  destruct (placed_candidate (gui._game s2) rc0 "O" (proj1 Hlay2) Hcand0)
    as (Hwf3 & Hcount3); [done|].
  assert (Hflag3 : _has_winner (gui._game s3) = false).
  { simpl. destruct (placed_fields g2 rc0 "O") as (_ & -> & _).
    destruct Hsame2 as (_ & _ & -> & _). done. }
  assert (Hcl3 : gui._cells_left s3 - 1 = Z.of_nat (empty_cells (gui._game s3))).
  { change (gui._cells_left s3) with (gui._cells_left s2). rewrite Hcl2.
    change (gui._game s3) with (placed (gui._game s2) rc0 "O"). lia. }
  destruct (gui.truth winner') eqn:Htruth'.
  - (* the game ends with the reply *)
    rewrite Hplay, Hmove. cbn [mbind gui.outcome_bind].
    eexists. split; [done|].
    destruct (handle_game_end_frame s3 winner' combo') as (Hc' & Hb' & Hcl' & _).
    split.
    + replace (gui.set_cells_left (gui._handle_game_end s3 winner' combo')
                 (gui._cells_left (gui._handle_game_end s3 winner' combo') - 1))
        with (gui._handle_game_end (gui.set_cells_left s3 (gui._cells_left s3 - 1))
                winner' combo')
        by (rewrite Hcl'; unfold gui._handle_game_end;
            by destruct (winner_is winner' "TIE")).
      apply handle_game_end_consistent; try done.
      exists 1%nat. by apply in_turn_placed.
    + simpl. by rewrite Hc', Hb'.
  - (* the game goes on *)
    destruct Hmove as (g4 & Ht4 & Hin4 & Hsame4 & Hmove).
    rewrite Hplay, Hmove. cbn [mbind gui.outcome_bind].
    eexists. split; [done|]. split; [|done].
    destruct (proj2 (get_winner_facts _ _ _ Hwf3 Hgw') Htruth') as (Hff3 & _).
    by apply play_goes_on_consistent.
Qed.

Lemma grid_bound_size (s s' : gui.TicTacToeBoard) :
  grid_bound s -> grid_bound s' -> gui._buttons s' = gui._buttons s ->
  1 <= board_size (gui._game s) -> 1 <= board_size (gui._game s') ->
  board_size (gui._game s') = board_size (gui._game s).
Proof.
  intros (_ & Hdom) (_ & Hdom') Hb Hn Hn'.
  pose proof (Hdom (board_size (gui._game s) - 1, 0)) as H1.
  pose proof (Hdom' (board_size (gui._game s) - 1, 0)) as H1'.
  pose proof (Hdom (board_size (gui._game s') - 1, 0)) as H2.
  pose proof (Hdom' (board_size (gui._game s') - 1, 0)) as H2'.
  rewrite Hb in H1', H2'. simpl in *.
  assert (board_size (gui._game s) - 1 < board_size (gui._game s'))
    by (apply H1', H1; lia).
  assert (board_size (gui._game s') - 1 < board_size (gui._game s))
    by (apply H2, H2'; lia).
  lia.
Qed.

Lemma reset_widgets (cells : gmap (Z * Z) coord) (ws : gmap (Z * Z) gui.Button)
    (w : Z * Z) :
  map_fold (fun (button : Z * Z) (_ : coord) ws' =>
              alter (gui.config_fg "black") button
                (alter (gui.config_text "") button
                   (alter (gui.config_highlightbackground "lightblue") button ws')))
           ws cells !! w
  = match cells !! w with
    | Some _ => (fun _ => blank_button) <$> ws !! w
    | None => ws !! w
    end.
Proof.
  revert w.
  apply (map_fold_weak_ind
           (fun r (m : gmap (Z * Z) coord) =>
              forall w, r !! w = match m !! w with
                                 | Some _ => (fun _ => blank_button) <$> ws !! w
                                 | None => ws !! w
                                 end)); [done|].
  intros button coordinates m r Hnone IH w.
  destruct (decide (button = w)) as [->|Hne].
  - rewrite lookup_insert_eq, !lookup_alter_eq, IH, Hnone. by destruct (ws !! w).
  - rewrite lookup_insert_ne, !lookup_alter_ne by done. apply IH.
Qed.

(** "Play Again" returns and leaves the window of a fresh game. *)
Lemma reset_board_step (self : gui.TicTacToeBoard) :
  consistent self ->
  exists self',
    gui.reset_board self = gui.Done self' /\
    consistent self' /\
    gui._cells self' = gui._cells self /\
    gui._buttons self' = gui._buttons self /\
    _current_moves (gui._game self') = setup_moves (board_size (gui._game self)) /\
    _has_winner (gui._game self') = false /\
    winner_combo (gui._game self') = [] /\
    current_player (gui._game self') = mkPlayer "X" "blue" /\
    gui._cells_left self' = board_size (gui._game self) ^ 2 /\
    gui.display self' = gui.mkLabel "Ready?" (Some "black") /\
    (forall rc w, gui._buttons self !! rc = Some w ->
                  gui.widgets self' !! w = Some blank_button).
Proof.
  intros Hcs. pose proof (consistent_layout _ Hcs) as (Hwf & Hn & Hgrid & Hmir).
  destruct (cs_players _ Hcs) as (i & Hin).
  set (g := gui._game self) in *.
  pose proof (reset_game_well_formed g Hwf) as Hwfr.
  assert (Hinr : in_turn DEFAULT_PLAYERS i (reset_game g)) by done.
  assert (Hg' : exists g', same_but_turn (reset_game g) g' /\
                           in_turn DEFAULT_PLAYERS 0 g' /\
                           gui.reset_board self
                           = gui.Done
                               (gui.set_widgets
                                  (gui.set_cells_left
                                     (gui.set_game
                                        (gui._update_display
                                           (gui.set_game self (reset_game g))
                                           "Ready?" "black") g')
                                     (board_size g ^ 2))
                                  (map_fold
                                     (fun (button : Z * Z) (_ : coord) ws' =>
                                        alter (gui.config_fg "black") button
                                          (alter (gui.config_text "") button
                                             (alter (gui.config_highlightbackground
                                                       "lightblue") button ws')))
                                     (gui.widgets self) (gui._cells self)))).
  { unfold gui.reset_board.
    change (current_player (gui._game (gui._update_display
              (gui.set_game self (reset_game (gui._game self))) "Ready?" "black")))
      with (current_player g).
    destruct (in_turn_default _ _ Hin) as [-> | ->].
    - exists (reset_game g). split; [done|]. split; [done|].
      by rewrite (in_turn_X _ Hin).
    - destruct (toggle_default _ _ Hinr) as (g' & Ht & Hin' & Hsame).
      exists g'. split; [done|]. split; [done|].
      rewrite (in_turn_O _ Hin). cbn [player_label String.eqb Ascii.eqb Bool.eqb].
      change (gui._game (gui._update_display
                (gui.set_game self (reset_game (gui._game self))) "Ready?" "black"))
        with (reset_game g).
      rewrite Ht. cbn [gui.engine mbind gui.outcome_bind].
      destruct Hsame as (Hs & _).
      unfold gui.set_widgets, gui.set_cells_left, gui.set_game, gui._update_display,
        gui.set_display.
      cbn [gui._game gui._cells gui._cells_left gui._buttons gui.display gui.widgets].
      by rewrite Hs. }
  destruct Hg' as (g' & Hsame & Hin' & ->).
  pose proof (same_but_turn_board _ _ Hsame) as Hboard.
  pose proof Hsame as (Hsize & Hmoves & Hflag & Hcombo & _).
  pose proof (same_board_well_formed _ _ Hboard Hwfr) as Hwf'.
  assert (Hall : forall m, m ∈ concat (_current_moves g') -> label m = ""%string).
  { intros m. rewrite Hmoves. apply reset_game_labels. }
  assert (Hsize' : board_size g' = board_size g) by done.
  destruct (unmarked_board g' Hwf' ltac:(lia) Hall) as (Hff & Hcount & Hl).
  assert (Hblank : forall rc w, gui._buttons self !! rc = Some w ->
            map_fold
              (fun (button : Z * Z) (_ : coord) ws' =>
                 alter (gui.config_fg "black") button
                   (alter (gui.config_text "") button
                      (alter (gui.config_highlightbackground "lightblue") button ws')))
              (gui.widgets self) (gui._cells self) !! w = Some blank_button).
  { intros rc w Hb. rewrite reset_widgets.
    destruct Hgrid as (Hinv & _). rewrite (proj1 (Hinv rc w) Hb).
    destruct (Hmir rc w Hb) as (b & -> & _). done. }
  eexists. split; [done|]. simpl.
  split.
  2:{ split; [done|]. split; [done|].
      split; [by rewrite Hmoves, (reset_game_moves g Hwf)|].
      split; [by rewrite Hflag|]. split; [by rewrite Hcombo|].
      split; [by apply in_turn_X|]. split; [done|]. split; [done|]. exact Hblank. }
  split; simpl; try done.
  - lia.
  - by exists 0%nat.
  - by rewrite Hcount, Hsize'.
  - destruct Hgrid as (Hinv & Hdom). split; [done|].
    intros rc. simpl. rewrite Hsize'. apply Hdom.
  - intros rc w Hb. simpl in Hb. simpl. exists blank_button.
    split; [by apply (Hblank rc)|]. by rewrite Hl.
Qed.

(** A press when the game is over, or on a played cell, changes
    nothing. *)
Lemma play_ignored (self : gui.TicTacToeBoard) (button : Z * Z) (rc : coord) :
  consistent self ->
  gui._cells self !! button = Some rc ->
  game_over self \/ label_at (gui._game self) rc ≠ ""%string ->
  gui.play self button = gui.Done self.
Proof.
  intros Hcs Hc Hover. pose proof (consistent_layout _ Hcs) as Hlay.
  pose proof Hlay as (Hwf & Hn & Hgrid & Hmir).
  apply (play_invalid self button rc Hlay Hc).
  destruct Hover as [[Hflag|Hzero]|Hl]; [by left| |by right].
  right. intros Hl.
  destruct (grid_bound_cell self button rc Hgrid Hc) as (_ & Hr & Hcol).
  by apply (no_candidate_when_full (gui._game self) rc Hwf Hzero).
Qed.

Lemma init_default (size : Z) : exists game, init DEFAULT_PLAYERS size = Ok game.
Proof.
  unfold init. simpl. unfold _setup_board. simpl.
  rewrite get_winning_combos_setup. by eexists.
Qed.

Lemma init_window (size : Z) (game : TicTacToeGame) :
  1 <= size -> init DEFAULT_PLAYERS size = Ok game ->
  consistent (gui.__init__ game size) /\
  gui._cells_left (gui.__init__ game size) = size ^ 2 /\
  gui.display (gui.__init__ game size) = gui.mkLabel "Ready?" None /\
  gui._game (gui.__init__ game size) = game.
Proof.
  intros Hn Hinit. destruct (init_well_formed _ _ _ Hinit) as (Hwf & Hsize).
  destruct (init_moves _ _ _ Hinit) as (_ & Hflag).
  apply fresh_window; try done.
  - by apply (init_in_turn _ size).
  - intros m. by apply (init_labels _ _ _ _ Hinit).
Qed.

(** The handlers run one after the other. *)
Lemma mainloop_run (events : list gui.event) :
  forall self : gui.TicTacToeBoard,
  consistent self ->
  board_size (gui._game self) ^ 2 <= 2 ^ 53 ->
  Forall (deliverable self) events ->
  exists self',
    gui.mainloop events self = gui.Done self' /\
    consistent self' /\
    gui._cells self' = gui._cells self /\
    gui._buttons self' = gui._buttons self /\
    board_size (gui._game self') = board_size (gui._game self).
Proof.
  induction events as [|e events IH]; intros self Hcs Hbig Hev.
  { exists self. done. }
  apply Forall_cons in Hev as (He & Hev).
  assert (Hstep : exists s1, gui.handle self e = gui.Done s1 /\ consistent s1 /\
                             gui._cells s1 = gui._cells self /\
                             gui._buttons s1 = gui._buttons self).
  { destruct e as [button|]; simpl in *.
    - by apply play_step.
    - destruct (reset_board_step self Hcs) as (s1 & H1 & H2 & H3 & H4 & _).
      by exists s1. }
  destruct Hstep as (s1 & Hrun & Hcs1 & Hc1 & Hb1).
  assert (Hsize : board_size (gui._game s1) = board_size (gui._game self)).
  { apply grid_bound_size; try done; by apply consistent_layout. }
  destruct (IH s1 Hcs1) as (s' & Hloop & Hcs' & Hc' & Hb' & Hsize').
  { by rewrite Hsize. }
  { eapply Forall_impl; [exact Hev|]. intros [button|]; simpl; [|done].
    by rewrite Hc1. }
  exists s'. cbn [gui.mainloop]. rewrite Hrun. cbn [mbind gui.outcome_bind].
  split; [done|]. split; [done|]. split; [congruence|]. split; congruence.
Qed.

(** ** What a press does *)

Lemma filled_by_placed_other (g : TicTacToeGame) (rc : coord) (mark other : string)
    (combo : list coord) :
  well_formed g ->
  0 <= rc.1 < board_size g -> 0 <= rc.2 < board_size g ->
  (forall rc', rc' ∈ combo -> 0 <= rc'.1 < board_size g /\ 0 <= rc'.2 < board_size g) ->
  mark ≠ other ->
  filled_by (placed g rc mark) other combo = true -> filled_by g other combo = true.
Proof.
  intros Hwf Hr Hc Hin Hne. unfold filled_by. rewrite !forallb_forall.
  intros H rc' Hrc'. specialize (H rc' Hrc').
  apply list_elem_of_In in Hrc'. destruct (Hin rc' Hrc') as (Hr' & Hc').
  rewrite (label_at_placed g rc rc' mark Hwf Hr Hc Hr' Hc') in H.
  destruct (decide (rc' = rc)); [|done].
  apply String.eqb_eq in H. done.
Qed.

(** A mark placed on a board without a filled combo can only fill a
    combo of its own. *)
Lemma first_filled_placed (g : TicTacToeGame) (rc : coord) (mark other : string)
    (winner : string) (combo : list coord) :
  well_formed g -> candidate g rc ->
  (mark = "X"%string /\ other = "O"%string) \/ (mark = "O"%string /\ other = "X"%string) ->
  first_filled g (_winning_combos g) = None ->
  first_filled (placed g rc mark) (_winning_combos (placed g rc mark))
  = Some (winner, combo) ->
  winner = (if String.eqb mark "X" then "X" else "Y")%string /\
  filled_by (placed g rc mark) mark combo = true.
Proof.
  intros Hwf (Hr & Hc & _) Hmark Hnone Hsome.
  destruct (placed_fields g rc mark) as (_ & _ & Hcombos & _).
  rewrite Hcombos in Hsome.
  apply first_filled_Some in Hsome as (Hin & Hcases).
  pose proof (proj1 (first_filled_None g _) Hnone combo Hin) as (HX & HO).
  assert (Hinside : forall rc', rc' ∈ combo ->
            0 <= rc'.1 < board_size g /\ 0 <= rc'.2 < board_size g).
  { intros rc' Hrc'. by apply (wf_combos_inside g Hwf combo). }
  destruct Hmark as [(-> & ->)|(-> & ->)], Hcases as [(-> & Hf)|(-> & Hf)];
    try done.
  - apply (filled_by_placed_other g rc "X" "O" combo Hwf Hr Hc Hinside) in Hf; [|done].
    congruence.
  - apply (filled_by_placed_other g rc "O" "X" combo Hwf Hr Hc Hinside) in Hf; [|done].
    congruence.
Qed.

Lemma highlight_cells_lookup (self : gui.TicTacToeBoard) (combo : list coord) (w : Z * Z) :
  gui.widgets (gui._highlight_cells self combo) !! w
  = match gui._cells self !! w with
    | Some rc => if bool_decide (rc ∈ combo)
                 then gui.config_highlightbackground "red" <$> gui.widgets self !! w
                 else gui.widgets self !! w
    | None => gui.widgets self !! w
    end.
Proof.
  unfold gui._highlight_cells. cbn [gui.widgets gui.set_widgets]. revert w.
  apply (map_fold_weak_ind
           (fun r (m : gmap (Z * Z) coord) =>
              forall w, r !! w
                        = match m !! w with
                          | Some rc => if bool_decide (rc ∈ combo)
                                       then gui.config_highlightbackground "red"
                                              <$> gui.widgets self !! w
                                       else gui.widgets self !! w
                          | None => gui.widgets self !! w
                          end)); [done|].
  intros button coordinates m r Hnone IH w.
  destruct (decide (button = w)) as [->|Hne].
  - rewrite lookup_insert_eq. pose proof (IH w) as Hw. rewrite Hnone in Hw.
    destruct (bool_decide (coordinates ∈ combo)); [|done].
    by rewrite lookup_alter_eq, Hw.
  - rewrite lookup_insert_ne by done.
    destruct (bool_decide (coordinates ∈ combo)); [|apply IH].
    rewrite lookup_alter_ne by done. apply IH.
Qed.

Lemma handle_game_end_win (s : gui.TicTacToeBoard) (mark : string) (combo : list coord) :
  layout s -> mark = "X"%string \/ mark = "Y"%string ->
  _has_winner (gui._game (gui._handle_game_end s (Some mark) combo)) = true /\
  gui.display (gui._handle_game_end s (Some mark) combo)
  = gui.mkLabel (won_message mark)
                (Some (if String.eqb mark "X" then "red" else "green")%string) /\
  highlighted (gui._handle_game_end s (Some mark) combo) combo.
Proof.
  intros (Hwf & Hn & (Hinv & Hdom) & Hmir) Hmark.
  assert (Hend : gui._handle_game_end s (Some mark) combo
                 = gui._update_display
                     (gui._highlight_cells
                        (gui.set_game s (gui.set_has_winner (gui._game s) true)) combo)
                     (won_message mark)
                     (if String.eqb mark "X" then "red" else "green")%string)
    by (by destruct Hmark as [-> | ->]).
  rewrite Hend. split; [done|]. split; [done|].
  intros rc w Hrc Hb. cbn [gui._buttons gui._update_display gui.set_display] in Hb.
  change (gui._buttons (gui._highlight_cells
            (gui.set_game s (gui.set_has_winner (gui._game s) true)) combo))
    with (gui._buttons s) in Hb.
  destruct (Hmir rc w Hb) as (b & Hw & _).
  exists (gui.config_highlightbackground "red" b). split; [|done].
  change (gui.widgets (gui._update_display
            (gui._highlight_cells
               (gui.set_game s (gui.set_has_winner (gui._game s) true)) combo) _ _))
    with (gui.widgets (gui._highlight_cells
            (gui.set_game s (gui.set_has_winner (gui._game s) true)) combo)).
  rewrite highlight_cells_lookup. cbn [gui._cells gui.set_game gui.widgets].
  rewrite (proj1 (Hinv rc w) Hb), bool_decide_eq_true_2 by done.
  by rewrite Hw.
Qed.

(** A press on an unplayed cell while the game is on: the cell takes
    "X"; then the game is over, or [ai] answers with a cell that takes
    "O" and the game is over or "X" is to move again. *)
Lemma play_press (self : gui.TicTacToeBoard) (button : Z * Z) (rc : coord) :
  consistent self ->
  board_size (gui._game self) ^ 2 <= 2 ^ 53 ->
  gui._cells self !! button = Some rc ->
  ~ game_over self ->
  label_at (gui._game self) rc = ""%string ->
  let g1 := placed (gui._game self) rc "X" in
  exists self',
    gui.play self button = gui.Done self' /\
    ((exists combo,
        first_filled g1 (_winning_combos g1) = Some ("X"%string, combo) /\
        filled_by g1 "X" combo = true /\
        same_board g1 (gui._game self') /\
        _has_winner (gui._game self') = true /\
        gui.display self' = gui.mkLabel (won_message "X") (Some "red"%string) /\
        highlighted self' combo) \/
     (first_filled g1 (_winning_combos g1) = None /\
      empty_cells g1 = 0%nat /\
      same_board g1 (gui._game self') /\
      _has_winner (gui._game self') = false /\
      gui.display self' = gui.mkLabel "Tied game!" (Some "red"%string)) \/
     (exists g2 rc0,
        same_but_turn g1 g2 /\
        ai g2 (Z.of_nat (empty_cells g1)) = Ok (Some rc0, g2) /\
        candidate g1 rc0 /\
        let g3 := placed g2 rc0 "O" in
        same_board g3 (gui._game self') /\
        ((exists combo,
            first_filled g3 (_winning_combos g3) = Some ("Y"%string, combo) /\
            filled_by g3 "O" combo = true /\
            _has_winner (gui._game self') = true /\
            gui.display self' = gui.mkLabel (won_message "Y") (Some "green"%string) /\
            highlighted self' combo) \/
         (first_filled g3 (_winning_combos g3) = None /\
          empty_cells g3 = 0%nat /\
          _has_winner (gui._game self') = false /\
          gui.display self' = gui.mkLabel "Tied game!" (Some "red"%string)) \/
         (first_filled g3 (_winning_combos g3) = None /\
          empty_cells g3 ≠ 0%nat /\
          _has_winner (gui._game self') = false /\
          current_player (gui._game self') = mkPlayer "X" "blue" /\
          gui.display self' = gui.mkLabel "X's turn" (Some "black"%string))))).
Proof.
  intros Hcs Hbig Hc Hon Hl g1. pose proof (consistent_layout _ Hcs) as Hlay.
  pose proof Hlay as (Hwf & Hn & Hgrid & Hmir).
  assert (Hflag : _has_winner (gui._game self) = false).
  { destruct (_has_winner (gui._game self)) eqn:E; [|done]. destruct Hon. by left. }
  pose proof (cs_no_line _ Hcs Hflag) as Hnone.
  destruct (play_run self button rc Hcs Hc Hflag Hl)
    as (Hcand & Hturn & winner & combo & Hgw & Hplay).
  destruct (grid_bound_cell self button rc Hgrid Hc) as (Hb & Hr & Hcol).
  set (s1 := gui.set_cells_left (marked self button rc "X" "blue")
                                (gui._cells_left self - 1)) in *.
  assert (Hlay1 : layout s1)
    by apply (layout_mark self rc button "X" "blue" _ Hlay Hb (same_board_refl _)).
  destruct (placed_candidate (gui._game self) rc "X" Hwf Hcand) as (Hwf1 & Hcount1);
    [done|].
  change (gui._game s1) with g1 in *.
  assert (Hcl1 : gui._cells_left s1 = Z.of_nat (empty_cells g1)).
  { change (gui._cells_left s1) with (gui._cells_left self - 1).
    rewrite (cs_cells_left _ Hcs). unfold g1. lia. }
  assert (Hflag1 : _has_winner g1 = false).
  { unfold g1. by destruct (placed_fields (gui._game self) rc "X") as (_ & -> & _). }
  destruct (gui.truth winner) eqn:Htruth.
  { (* the game ends with the press *)
    exists (gui._handle_game_end s1 winner combo). split; [done|].
    destruct (handle_game_end_frame s1 winner combo)
      as (_ & _ & _ & Hsame & _ & _ & Hflag').
    destruct (proj1 (get_winner_facts _ _ _ Hwf1 Hgw) Htruth)
      as [(mark & Hff & -> & Htie)|(Hff & Hfull & -> & ->)].
    - left. exists combo.
      destruct (first_filled_placed (gui._game self) rc "X" "O" mark combo Hwf Hcand
                  ltac:(by left) Hnone Hff) as (-> & Hfilled).
      destruct (handle_game_end_win s1 "X" combo Hlay1 ltac:(by left))
        as (Hw & Hd & Hh).
      done.
    - right. left. apply board_full_empty_cells in Hfull.
      split; [done|]. split; [done|]. split; [done|]. split; [|done].
      by rewrite Hflag'. }
  destruct Hplay as (g2 & Ht & Hin2 & Hsame2 & Hplay).
  destruct (proj2 (get_winner_facts _ _ _ Hwf1 Hgw) Htruth) as (Hff1 & Hfull1 & _).
  pose proof (same_but_turn_board _ _ Hsame2) as Hboard2.
  set (s2 := gui._update_display (gui.set_game s1 g2) "O's turn" "black") in *.
  assert (Hlay2 : layout s2) by apply (layout_game s1 g2 Hlay1 Hboard2).
  change (gui._game s2) with g2 in *.
  assert (Hcl2 : gui._cells_left s2 = Z.of_nat (empty_cells g2)).
  { rewrite (same_board_empty_cells _ _ Hboard2). done. }
  assert (Hbig2 : board_size g2 ^ 2 <= 2 ^ 53).
  { destruct Hboard2 as (-> & _). unfold g1.
    by destruct (placed_fields (gui._game self) rc "X") as (-> & _). }
  assert (Hfull2 : board_full g2 = false)
    by (by rewrite (same_board_board_full _ _ Hboard2)).
  destruct (handle_ai_move_run s2 Hlay2 Hcl2 Hbig2 Hin2 Hfull2)
    as (rc0 & w0 & Hcand0 & Hai & Hb0 & winner' & combo' & Hgw' & Hmove).
  set (s3 := marked s2 w0 rc0 "O" "green") in *.
  assert (Hlay3 : layout s3)
    by apply (layout_mark s2 rc0 w0 "O" "green" _ Hlay2 Hb0 (same_board_refl _)).
  destruct (placed_candidate g2 rc0 "O" (proj1 Hlay2) Hcand0)
    as (Hwf3 & Hcount3); [done|].
  change (gui._game s3) with (placed g2 rc0 "O") in *.
  assert (Hnone2 : first_filled g2 (_winning_combos g2) = None)
    by (by rewrite (same_board_first_filled _ _ Hboard2)).
  assert (Hflag3 : _has_winner (placed g2 rc0 "O") = false).
  { destruct (placed_fields g2 rc0 "O") as (_ & -> & _).
    destruct Hsame2 as (_ & _ & -> & _). done. }
  assert (Hreply : exists self',
            gui.play self button = gui.Done self' /\
            same_board (placed g2 rc0 "O") (gui._game self') /\
            ((exists combo,
                first_filled (placed g2 rc0 "O") (_winning_combos (placed g2 rc0 "O"))
                = Some ("Y"%string, combo) /\
                filled_by (placed g2 rc0 "O") "O" combo = true /\
                _has_winner (gui._game self') = true /\
                gui.display self' = gui.mkLabel (won_message "Y") (Some "green"%string) /\
                highlighted self' combo) \/
             (first_filled (placed g2 rc0 "O") (_winning_combos (placed g2 rc0 "O")) = None /\
              empty_cells (placed g2 rc0 "O") = 0%nat /\
              _has_winner (gui._game self') = false /\
              gui.display self' = gui.mkLabel "Tied game!" (Some "red"%string)) \/
             (first_filled (placed g2 rc0 "O") (_winning_combos (placed g2 rc0 "O")) = None /\
              empty_cells (placed g2 rc0 "O") ≠ 0%nat /\
              _has_winner (gui._game self') = false /\
              current_player (gui._game self') = mkPlayer "X" "blue" /\
              gui.display self' = gui.mkLabel "X's turn" (Some "black"%string)))).
  { destruct (gui.truth winner') eqn:Htruth'.
    - (* the game ends with the reply *)
      rewrite Hplay, Hmove. cbn [mbind gui.outcome_bind].
      eexists. split; [done|].
      destruct (handle_game_end_frame s3 winner' combo')
        as (_ & _ & _ & Hsame & _ & _ & Hflag').
      split; [done|].
      destruct (proj1 (get_winner_facts _ _ _ Hwf3 Hgw') Htruth')
        as [(mark & Hff & -> & Htie)|(Hff & Hfull & -> & ->)].
      + left. exists combo'.
        destruct (first_filled_placed g2 rc0 "O" "X" mark combo' (proj1 Hlay2) Hcand0
                    ltac:(by right) Hnone2 Hff) as (-> & Hfilled).
        destruct (handle_game_end_win s3 "Y" combo' Hlay3 ltac:(by right))
          as (Hw & Hd & Hh).
        done.
      + right. left. apply board_full_empty_cells in Hfull.
        split; [done|]. split; [done|]. split; [|done].
        cbn [gui._game gui.set_cells_left]. by rewrite Hflag'.
    - (* the game goes on *)
      destruct Hmove as (g4 & Ht4 & Hin4 & Hsame4 & Hmove).
      rewrite Hplay, Hmove. cbn [mbind gui.outcome_bind].
      eexists. split; [done|].
      destruct (proj2 (get_winner_facts _ _ _ Hwf3 Hgw') Htruth') as (Hff3 & Hfull3 & _).
      split; [by apply same_but_turn_board|].
      right. right. split; [done|]. split.
      { intros Hz. apply board_full_empty_cells in Hz. congruence. }
      split; [|split; [by apply in_turn_X|done]].
      cbn [gui._game gui.set_cells_left gui._update_display gui.set_display gui.set_game].
      destruct Hsame4 as (_ & _ & -> & _). done. }
  destruct Hreply as (self' & Hrun & Hsame' & Hcases).
  exists self'. split; [done|]. right. right.
  exists g2, rc0. split; [done|]. split; [by rewrite <- Hcl1|].
  split; [by apply (same_board_candidate _ _ Hboard2)|]. done.
Qed.

(** ** The window from its creation on *)

Lemma main_opening_window : gui.main = gui.Done opening_window.
Proof.
  unfold gui.main. cbv zeta.
  change (init DEFAULT_PLAYERS 3) with (init DEFAULT_PLAYERS BOARD_SIZE).
  rewrite init_fresh_position. reflexivity.
Qed.

Lemma opening_window_consistent : consistent opening_window.
Proof. apply (init_window 3 fresh_position); [lia|apply init_fresh_position]. Qed.

Lemma opening_window_cells (rc : coord) :
  0 <= rc.1 < 3 -> 0 <= rc.2 < 3 -> gui._cells opening_window !! rc = Some rc.
Proof.
  intros Hr Hc. unfold opening_window, gui.__init__.
  by apply create_board_grid_maps.
Qed.

Lemma opening_window_game : gui._game opening_window = fresh_position.
Proof. apply (init_window 3 fresh_position); [lia|apply init_fresh_position]. Qed.

Lemma opening_window_size : board_size (gui._game opening_window) ^ 2 <= 2 ^ 53.
Proof. rewrite opening_window_game. by vm_compute. Qed.

Lemma pressed_window_run :
  gui.play opening_window (1, 1) = gui.Done pressed_window /\
  consistent pressed_window /\
  gui._cells pressed_window = gui._cells opening_window.
Proof.
  destruct (play_step opening_window (1, 1) opening_window_consistent
              opening_window_size)
    as (s & Hrun & Hcs & Hc & _).
  - exists (1, 1). apply opening_window_cells; cbn [fst snd]; lia.
  - unfold pressed_window. rewrite Hrun. cbv iota.
    split; [reflexivity|]. split; [exact Hcs|exact Hc].
Qed.

Lemma pressed_window_middle : label_at (gui._game pressed_window) (1, 1) = "X"%string.
Proof. vm_compute. reflexivity. Qed.

(** X10. For every size of at least 1 the constructors of the game and
    of the window, called as [main] calls them, raise nothing and give
    a consistent window: the count of cells left is the number of cells,
    no winner is flagged, every button is blank like its cell, the two
    dictionaries are inverse to each other, and "X" is to move. *)
Theorem window_init_consistent (size : Z) :
  1 <= size ->
  exists game,
    init DEFAULT_PLAYERS size = Ok game /\
    consistent (gui.__init__ game size) /\
    gui._cells_left (gui.__init__ game size) = size ^ 2 /\
    gui.display (gui.__init__ game size) = gui.mkLabel "Ready?" None /\
    ~ game_over (gui.__init__ game size) /\
    current_player (gui._game (gui.__init__ game size)) = mkPlayer "X" "blue".
Proof.
  intros Hn. destruct (init_default size) as (game & Hinit).
  exists game. split; [done|].
  destruct (init_window size game Hn Hinit) as (Hcs & Hcl & Hd & Hg).
  split; [done|]. split; [done|]. split; [done|].
  pose proof (cs_cells_left _ Hcs) as Hcount. rewrite Hcl, Hg in Hcount.
  unfold game_over. rewrite Hg. split.
  - intros [Hflag|Hzero].
    + destruct (init_moves _ _ _ Hinit) as (_ & Hf). congruence.
    + rewrite Hzero in Hcount. simpl in Hcount. nia.
  - apply in_turn_X. by apply (init_in_turn _ size).
Qed.

Lemma window_init_consistent_witness :
  1 <= 3 /\
  exists game,
    init DEFAULT_PLAYERS 3 = Ok game /\
    consistent (gui.__init__ game 3) /\
    gui._cells_left (gui.__init__ game 3) = 3 ^ 2 /\
    gui.display (gui.__init__ game 3) = gui.mkLabel "Ready?" None /\
    ~ game_over (gui.__init__ game 3) /\
    current_player (gui._game (gui.__init__ game 3)) = mkPlayer "X" "blue".
Proof.
  assert (H : 1 <= 3) by lia.
  split; [done|]. apply (window_init_consistent 3 H).
Defined.

(** X11. A press on a button of the grid never raises and keeps the
    window consistent, on a board of at most [2^53] cells: the count of
    cells left stays the number of unplayed cells, every button keeps
    showing its cell, and [ai] is asked only when a cell is left, so
    that it returns a cell.  The two dictionaries stay as they are. *)
Theorem play_keeps_consistent (self : gui.TicTacToeBoard) (button : Z * Z) :
  consistent self ->
  board_size (gui._game self) ^ 2 <= 2 ^ 53 ->
  is_Some (gui._cells self !! button) ->
  exists self',
    gui.play self button = gui.Done self' /\
    consistent self' /\
    gui._cells self' = gui._cells self /\
    gui._buttons self' = gui._buttons self.
Proof. apply play_step. Qed.

Lemma play_keeps_consistent_witness :
  consistent opening_window /\
  board_size (gui._game opening_window) ^ 2 <= 2 ^ 53 /\
  is_Some (gui._cells opening_window !! (1, 1)) /\
  exists self',
    gui.play opening_window (1, 1) = gui.Done self' /\
    consistent self' /\
    gui._cells self' = gui._cells opening_window /\
    gui._buttons self' = gui._buttons opening_window.
Proof.
  assert (H3 : is_Some (gui._cells opening_window !! (1, 1))).
  { exists (1, 1). apply opening_window_cells; cbn [fst snd]; lia. }
  split; [apply opening_window_consistent|].
  split; [apply opening_window_size|]. split; [exact H3|].
  apply (play_keeps_consistent opening_window (1, 1) opening_window_consistent
           opening_window_size H3).
Defined.

(** X12. A press on the button of an unplayed cell while the game is on
    writes "X" on the cell.  If that fills a combo, it is a combo of
    "X": the winner is flagged, the display reads [Player "X" won!] in
    red and the buttons of the combo are red.  If it fills the board,
    the display reads "Tied game!" and no winner is flagged.  Otherwise
    [ai] is called with the number of unplayed cells and the cell it
    returns takes "O"; if that fills a combo, it is a combo of "O", the
    winner is flagged and the display reads [Player "Y" won!] in green;
    if it fills the board the game is tied; else "X" is to move again
    and the display says so. *)
Theorem play_outcomes (self : gui.TicTacToeBoard) (button : Z * Z) (rc : coord) :
  consistent self ->
  board_size (gui._game self) ^ 2 <= 2 ^ 53 ->
  gui._cells self !! button = Some rc ->
  ~ game_over self ->
  label_at (gui._game self) rc = ""%string ->
  let g1 := placed (gui._game self) rc "X" in
  exists self',
    gui.play self button = gui.Done self' /\
    ((exists combo,
        first_filled g1 (_winning_combos g1) = Some ("X"%string, combo) /\
        filled_by g1 "X" combo = true /\
        same_board g1 (gui._game self') /\
        _has_winner (gui._game self') = true /\
        gui.display self' = gui.mkLabel (won_message "X") (Some "red"%string) /\
        highlighted self' combo) \/
     (first_filled g1 (_winning_combos g1) = None /\
      empty_cells g1 = 0%nat /\
      same_board g1 (gui._game self') /\
      _has_winner (gui._game self') = false /\
      gui.display self' = gui.mkLabel "Tied game!" (Some "red"%string)) \/
     (exists g2 rc0,
        same_but_turn g1 g2 /\
        ai g2 (Z.of_nat (empty_cells g1)) = Ok (Some rc0, g2) /\
        candidate g1 rc0 /\
        let g3 := placed g2 rc0 "O" in
        same_board g3 (gui._game self') /\
        ((exists combo,
            first_filled g3 (_winning_combos g3) = Some ("Y"%string, combo) /\
            filled_by g3 "O" combo = true /\
            _has_winner (gui._game self') = true /\
            gui.display self' = gui.mkLabel (won_message "Y") (Some "green"%string) /\
            highlighted self' combo) \/
         (first_filled g3 (_winning_combos g3) = None /\
          empty_cells g3 = 0%nat /\
          _has_winner (gui._game self') = false /\
          gui.display self' = gui.mkLabel "Tied game!" (Some "red"%string)) \/
         (first_filled g3 (_winning_combos g3) = None /\
          empty_cells g3 ≠ 0%nat /\
          _has_winner (gui._game self') = false /\
          current_player (gui._game self') = mkPlayer "X" "blue" /\
          gui.display self' = gui.mkLabel "X's turn" (Some "black"%string))))).
Proof. apply play_press. Qed.

Lemma play_outcomes_witness :
  consistent opening_window /\
  board_size (gui._game opening_window) ^ 2 <= 2 ^ 53 /\
  gui._cells opening_window !! (1, 1) = Some (1, 1) /\
  ~ game_over opening_window /\
  label_at (gui._game opening_window) (1, 1) = ""%string /\
  exists self', gui.play opening_window (1, 1) = gui.Done self'.
Proof.
  assert (H3 : gui._cells opening_window !! (1, 1) = Some (1, 1))
    by (apply opening_window_cells; cbn [fst snd]; lia).
  assert (H4 : ~ game_over opening_window).
  { unfold game_over. rewrite opening_window_game.
    intros [H|H]; vm_compute in H; discriminate. }
  assert (H5 : label_at (gui._game opening_window) (1, 1) = ""%string)
    by (rewrite opening_window_game; reflexivity).
  split; [apply opening_window_consistent|].
  split; [apply opening_window_size|]. split; [exact H3|]. split; [exact H4|].
  split; [exact H5|].
  destruct (play_outcomes opening_window (1, 1) (1, 1) opening_window_consistent
              opening_window_size H3 H4 H5) as (self' & Hrun & _).
  by exists self'.
Defined.

(** X13. A press on a button of the grid when a winner is flagged or no
    cell is left, or on the button of a played cell, changes nothing of
    the window. *)
Theorem play_ignores_press (self : gui.TicTacToeBoard) (button : Z * Z) (rc : coord) :
  consistent self ->
  gui._cells self !! button = Some rc ->
  game_over self \/ label_at (gui._game self) rc ≠ ""%string ->
  gui.play self button = gui.Done self.
Proof. apply play_ignored. Qed.

Lemma play_ignores_press_witness :
  consistent pressed_window /\
  gui._cells pressed_window !! (1, 1) = Some (1, 1) /\
  label_at (gui._game pressed_window) (1, 1) ≠ ""%string /\
  gui.play pressed_window (1, 1) = gui.Done pressed_window.
Proof.
  destruct pressed_window_run as (_ & Hcs & Hcells).
  assert (H2 : gui._cells pressed_window !! (1, 1) = Some (1, 1)).
  { rewrite Hcells. apply opening_window_cells; cbn [fst snd]; lia. }
  assert (H3 : label_at (gui._game pressed_window) (1, 1) ≠ ""%string)
    by (rewrite pressed_window_middle; discriminate).
  split; [exact Hcs|]. split; [exact H2|]. split; [exact H3|].
  apply (play_ignores_press pressed_window (1, 1) (1, 1) Hcs H2). by right.
Defined.

(** X14. "Play Again" never raises on a consistent window and leaves
    the window of a fresh game: the board is the freshly set-up one, the
    winner flag and the stored combo are cleared, every cell counts as
    left, "X" is to move whoever moved last, every button is blank and
    the display reads "Ready?". *)
Theorem reset_board_fresh (self : gui.TicTacToeBoard) :
  consistent self ->
  exists self',
    gui.reset_board self = gui.Done self' /\
    consistent self' /\
    gui._cells self' = gui._cells self /\
    gui._buttons self' = gui._buttons self /\
    _current_moves (gui._game self') = setup_moves (board_size (gui._game self)) /\
    _has_winner (gui._game self') = false /\
    winner_combo (gui._game self') = [] /\
    current_player (gui._game self') = mkPlayer "X" "blue" /\
    gui._cells_left self' = board_size (gui._game self) ^ 2 /\
    gui.display self' = gui.mkLabel "Ready?" (Some "black"%string) /\
    (forall rc w, gui._buttons self !! rc = Some w ->
                  gui.widgets self' !! w = Some blank_button).
Proof. apply reset_board_step. Qed.

Lemma reset_board_fresh_witness :
  consistent pressed_window /\
  exists self',
    gui.reset_board pressed_window = gui.Done self' /\
    consistent self' /\
    _current_moves (gui._game self')
    = setup_moves (board_size (gui._game pressed_window)) /\
    gui._cells_left self' = board_size (gui._game pressed_window) ^ 2.
Proof.
  destruct pressed_window_run as (_ & Hcs & _).
  split; [exact Hcs|].
  destruct (reset_board_fresh pressed_window Hcs)
    as (self' & H1 & H2 & _ & _ & H5 & _ & _ & _ & H9 & _).
  exists self'. split; [exact H1|]. split; [exact H2|]. split; [exact H5|exact H9].
Defined.

(** X15. From the window that the constructors give for a size of at
    least 1 and at most [2^53] cells, no sequence of presses on buttons
    of the grid and of "Play Again" makes a handler raise, and the
    window stays consistent after every event. *)
Theorem mainloop_never_raises (size : Z) (events : list gui.event) :
  1 <= size -> size ^ 2 <= 2 ^ 53 ->
  exists game,
    init DEFAULT_PLAYERS size = Ok game /\
    (Forall (deliverable (gui.__init__ game size)) events ->
     exists self',
       gui.mainloop events (gui.__init__ game size) = gui.Done self' /\
       consistent self').
Proof.
  intros Hn Hbig. destruct (init_default size) as (game & Hinit).
  exists game. split; [done|]. intros Hev.
  destruct (init_window size game Hn Hinit) as (Hcs & _ & _ & Hg).
  destruct (init_well_formed _ _ _ Hinit) as (_ & Hsize).
  destruct (mainloop_run events (gui.__init__ game size) Hcs) as (self' & Hrun & Hcs' & _).
  - by rewrite Hg, Hsize.
  - done.
  - by exists self'.
Qed.

Lemma mainloop_never_raises_witness :
  1 <= 3 /\ 3 ^ 2 <= 2 ^ 53 /\
  Forall (deliverable opening_window)
         [gui.ButtonPress (1, 1); gui.PlayAgain; gui.ButtonPress (0, 0)] /\
  exists self',
    gui.mainloop [gui.ButtonPress (1, 1); gui.PlayAgain; gui.ButtonPress (0, 0)]
                 opening_window = gui.Done self' /\
    consistent self'.
Proof.
  assert (H1 : 1 <= 3) by lia.
  assert (H2 : 3 ^ 2 <= 2 ^ 53) by (vm_compute; discriminate).
  assert (H3 : Forall (deliverable opening_window)
                 [gui.ButtonPress (1, 1); gui.PlayAgain; gui.ButtonPress (0, 0)]).
  { repeat apply Forall_cons_2; try apply Forall_nil_2; try exact I;
      eexists; apply opening_window_cells; cbn [fst snd]; lia. }
  split; [exact H1|]. split; [exact H2|]. split; [exact H3|].
  destruct (mainloop_never_raises 3 [gui.ButtonPress (1, 1); gui.PlayAgain;
                                     gui.ButtonPress (0, 0)] H1 H2)
    as (game & Hinit & Hloop).
  change (init DEFAULT_PLAYERS 3) with (init DEFAULT_PLAYERS BOARD_SIZE) in Hinit.
  rewrite init_fresh_position in Hinit. injection Hinit as <-.
  exact (Hloop H3).
Defined.

(** ** The marks on the board *)

Lemma length_filter_insert_same {A} (P : A -> Prop) `{forall x, Decision (P x)}
    (l : list A) (j : nat) (x y : A) :
  l !! j = Some y -> (P x <-> P y) ->
  length (filter P (<[j := x]> l)) = length (filter P l).
Proof.
  revert j. induction l as [|z l IH]; intros j Hj Hxy; [done|].
  destruct j as [|j]; simpl in *.
  - injection Hj as ->. rewrite !filter_cons.
    destruct (decide (P x)), (decide (P y)); tauto.
  - rewrite !filter_cons. destruct (decide (P z)); simpl; by rewrite (IH j).
Qed.

Lemma length_filter_insert_new {A} (P : A -> Prop) `{forall x, Decision (P x)}
    (l : list A) (j : nat) (x y : A) :
  l !! j = Some y -> ~ P y -> P x ->
  length (filter P (<[j := x]> l)) = S (length (filter P l)).
Proof.
  revert j. induction l as [|z l IH]; intros j Hj Hy Hx; [done|].
  destruct j as [|j]; simpl in *.
  - injection Hj as ->. by rewrite filter_cons_True, filter_cons_False.
  - rewrite !filter_cons. destruct (decide (P z)); simpl; by rewrite (IH j).
Qed.

Lemma count_marks_placed (g : TicTacToeGame) (rc : coord) (mark mark' : string) :
  well_formed g -> candidate g rc -> mark' ≠ ""%string ->
  count_marks (placed g rc mark) mark'
  = (count_marks g mark' + if String.eqb mark mark' then 1 else 0)%nat.
Proof.
  intros Hwf Hcand Hne. destruct rc as [r c].
  pose proof Hcand as (Hr & Hc & _). simpl in Hr, Hc.
  pose proof (candidate_cell g r c Hwf Hcand) as Hcell.
  destruct (wf_lookup g Hwf r c Hr Hc) as (rw & s0 & Hi & Hj).
  assert (s0 = ""%string) as ->.
  { unfold cell in Hcell.
    rewrite (py_index_lookup_Z _ _ _ (proj1 Hr) Hi) in Hcell. simpl in Hcell.
    rewrite (py_index_lookup_Z _ _ _ (proj1 Hc) Hj) in Hcell. by injection Hcell. }
  destruct (wf_set_cell g Hwf r c (mkMove r c mark) Hr Hc) as (rw' & Hi' & Hs').
  rewrite Hi in Hi'. injection Hi' as <-.
  unfold placed. cbn [fst snd]. rewrite Hs'. unfold count_marks. simpl.
  pose proof (length_filter_concat_insert (fun move => label move = mark')
                _ _ _ (<[Z.to_nat c := mkMove r c mark]> rw) Hi) as H1.
  destruct (String.eqb_spec mark mark') as [->|Hm].
  - rewrite (length_filter_insert_new (fun move => label move = mark')
               rw (Z.to_nat c) (mkMove r c mark') _ Hj) in H1 by (simpl; congruence).
    lia.
  - rewrite (length_filter_insert_same (fun move => label move = mark')
               rw (Z.to_nat c) (mkMove r c mark) _ Hj) in H1
      by (simpl; split; congruence).
    lia.
Qed.

Lemma same_board_count_marks (g g' : TicTacToeGame) (mark : string) :
  same_board g g' -> count_marks g' mark = count_marks g mark.
Proof. intros (_ & Hb & _). unfold count_marks. by rewrite Hb. Qed.

Lemma same_board_balanced (g g' : TicTacToeGame) :
  same_board g g' -> balanced g -> balanced g'.
Proof.
  intros Hsame (Hl & Hcount). pose proof Hsame as (Hn & _). split.
  - intros rc. rewrite Hn, (same_board_label_at _ _ Hsame). apply Hl.
  - by rewrite !(same_board_count_marks _ _ _ Hsame).
Qed.

Lemma count_marks_unmarked (g : TicTacToeGame) (mark : string) :
  (forall m, m ∈ concat (_current_moves g) -> label m = ""%string) ->
  mark ≠ ""%string -> count_marks g mark = 0%nat.
Proof.
  intros Hall Hne. unfold count_marks.
  induction (concat (_current_moves g)) as [|m l IH]; [done|].
  rewrite filter_cons_False.
  - apply IH. intros m' Hm'. apply Hall. by right.
  - rewrite (Hall m) by left. congruence.
Qed.

Lemma balanced_unmarked (g : TicTacToeGame) :
  (forall m, m ∈ concat (_current_moves g) -> label m = ""%string) ->
  balanced g /\ count_marks g "X" = count_marks g "O".
Proof.
  intros Hall. unfold balanced.
  rewrite !(count_marks_unmarked g _ Hall) by done.
  split; [|done]. split; [|lia].
  intros rc _ _. left. by apply label_at_all_empty.
Qed.

(** A mark placed by the player whose turn it is. *)
Lemma balanced_placed_X (g : TicTacToeGame) (rc : coord) :
  well_formed g -> candidate g rc -> balanced g ->
  count_marks g "X" = count_marks g "O" ->
  balanced (placed g rc "X") /\
  count_marks (placed g rc "X") "X" = S (count_marks (placed g rc "X") "O").
Proof.
  intros Hwf Hcand (Hl & _) Heq. pose proof Hcand as (Hr & Hc & _).
  unfold balanced. rewrite !(count_marks_placed g rc "X") by done.
  cbn [String.eqb Ascii.eqb Bool.eqb].
  split; [|lia]. split; [|lia].
  intros rc'. destruct (placed_fields g rc "X") as (-> & _). intros Hr' Hc'.
  rewrite (label_at_placed g rc rc' "X" Hwf Hr Hc Hr' Hc').
  destruct (decide (rc' = rc)); [auto|by apply Hl].
Qed.

Lemma balanced_placed_O (g : TicTacToeGame) (rc : coord) :
  well_formed g -> candidate g rc -> balanced g ->
  count_marks g "X" = S (count_marks g "O") ->
  balanced (placed g rc "O") /\
  count_marks (placed g rc "O") "X" = count_marks (placed g rc "O") "O".
Proof.
  intros Hwf Hcand (Hl & _) Heq. pose proof Hcand as (Hr & Hc & _).
  unfold balanced. rewrite !(count_marks_placed g rc "O") by done.
  cbn [String.eqb Ascii.eqb Bool.eqb].
  split; [|lia]. split; [|lia].
  intros rc'. destruct (placed_fields g rc "O") as (-> & _). intros Hr' Hc'.
  rewrite (label_at_placed g rc rc' "O" Hwf Hr Hc Hr' Hc').
  destruct (decide (rc' = rc)); [auto|by apply Hl].
Qed.

Lemma play_fair (self self' : gui.TicTacToeBoard) (button : Z * Z) :
  consistent self ->
  board_size (gui._game self) ^ 2 <= 2 ^ 53 ->
  is_Some (gui._cells self !! button) ->
  fair self ->
  gui.play self button = gui.Done self' -> fair self'.
Proof.
  intros Hcs Hbig (rc & Hc) (Hbal & Hon) Hrun.
  pose proof (consistent_layout _ Hcs) as (Hwf & Hn & Hgrid & Hmir).
  destruct (grid_bound_cell self button rc Hgrid Hc) as (_ & Hr & Hcol).
  destruct (decide (game_over self \/ label_at (gui._game self) rc ≠ ""%string))
    as [Hig|Hval].
  { rewrite (play_ignored self button rc Hcs Hc Hig) in Hrun.
    injection Hrun as <-. done. }
  assert (Hgo : ~ game_over self) by tauto.
  assert (Hl : label_at (gui._game self) rc = ""%string).
  { destruct (decide (label_at (gui._game self) rc = ""%string)); tauto. }
  assert (Hcand : candidate (gui._game self) rc) by done.
  destruct (balanced_placed_X _ rc Hwf Hcand Hbal (Hon Hgo)) as (Hbal1 & Hcount1).
  destruct (placed_candidate (gui._game self) rc "X" Hwf Hcand) as (Hwf1 & _); [done|].
  destruct (play_press self button rc Hcs Hbig Hc Hgo Hl) as (s' & Hrun' & Hcases).
  rewrite Hrun in Hrun'. injection Hrun' as <-.
  destruct Hcases as [(combo & _ & _ & Hsame & Hflag & _)
                     |[(_ & Hzero & Hsame & _)
                      |(g2 & rc0 & Hsame2 & _ & Hcand0 & Hsame & Hcases)]].
  - split; [by apply (same_board_balanced _ _ Hsame)|].
    intros Hgo'. destruct Hgo'. by left.
  - split; [by apply (same_board_balanced _ _ Hsame)|].
    intros Hgo'. destruct Hgo'. right.
    by rewrite (same_board_empty_cells _ _ Hsame).
  - pose proof (same_but_turn_board _ _ Hsame2) as Hboard2.
    assert (Hbal3 : balanced (placed g2 rc0 "O") /\
                    count_marks (placed g2 rc0 "O") "X"
                    = count_marks (placed g2 rc0 "O") "O").
    { apply balanced_placed_O.
      - by apply (same_board_well_formed _ _ Hboard2).
      - by apply (same_board_candidate _ _ Hboard2).
      - by apply (same_board_balanced _ _ Hboard2).
      - by rewrite !(same_board_count_marks _ _ _ Hboard2). }
    destruct Hbal3 as (Hbal3 & Hcount3).
    split; [by apply (same_board_balanced _ _ Hsame)|].
    intros _. by rewrite !(same_board_count_marks _ _ _ Hsame).
Qed.

Lemma reset_board_fair (self self' : gui.TicTacToeBoard) :
  consistent self -> gui.reset_board self = gui.Done self' -> fair self'.
Proof.
  intros Hcs Hrun.
  destruct (reset_board_step self Hcs) as (s' & Hrun' & _ & _ & _ & Hmoves & _).
  rewrite Hrun in Hrun'. injection Hrun' as <-.
  pose proof (consistent_layout _ Hcs) as (Hwf & _).
  assert (Hall : forall m, m ∈ concat (_current_moves (gui._game self')) ->
                           label m = ""%string).
  { intros m. rewrite Hmoves, <- (reset_game_moves _ Hwf). apply reset_game_labels. }
  destruct (balanced_unmarked _ Hall). by split.
Qed.

Lemma init_fair (size : Z) (game : TicTacToeGame) :
  1 <= size -> init DEFAULT_PLAYERS size = Ok game -> fair (gui.__init__ game size).
Proof.
  intros Hn Hinit. destruct (init_window size game Hn Hinit) as (_ & _ & _ & Hg).
  unfold fair. rewrite Hg.
  destruct (balanced_unmarked game) as (Hbal & Hcount); [|by split].
  intros m. by apply (init_labels _ _ _ _ Hinit).
Qed.

(** A property that every handler keeps holds after every sequence of
    events. *)
Lemma mainloop_invariant (Q : gui.TicTacToeBoard -> Prop) :
  (forall s s' e, consistent s -> board_size (gui._game s) ^ 2 <= 2 ^ 53 ->
                  deliverable s e -> Q s -> gui.handle s e = gui.Done s' -> Q s') ->
  forall (events : list gui.event) (self : gui.TicTacToeBoard),
  consistent self ->
  board_size (gui._game self) ^ 2 <= 2 ^ 53 ->
  Q self ->
  Forall (deliverable self) events ->
  exists self',
    gui.mainloop events self = gui.Done self' /\ consistent self' /\ Q self'.
Proof.
  intros HQ events. induction events as [|e events IH]; intros self Hcs Hbig Hq Hev.
  { exists self. done. }
  apply Forall_cons in Hev as (He & Hev).
  destruct (mainloop_run [e] self Hcs Hbig) as (s1 & Hrun & Hcs1 & Hc1 & _ & Hsize).
  { by apply Forall_singleton. }
  cbn [gui.mainloop] in Hrun.
  destruct (gui.handle self e) as [s1'|] eqn:Hh; [|done].
  cbn [mbind gui.outcome_bind] in Hrun. injection Hrun as ->.
  destruct (IH s1 Hcs1) as (s' & Hloop & Hcs' & Hq').
  - by rewrite Hsize.
  - by apply (HQ self s1 e).
  - eapply Forall_impl; [exact Hev|]. intros [button|]; simpl; [|done].
    by rewrite Hc1.
  - exists s'. cbn [gui.mainloop]. rewrite Hh. cbn [mbind gui.outcome_bind]. done.
Qed.

(** X16. In every window reached from the constructors by presses on
    grid buttons and "Play Again", on a board of size at least 1 and at
    most [2^53] cells, every cell is unplayed or carries "X" or "O",
    "X" has been placed as often as "O" or once more, and as long as the
    game is on both have been placed equally often and "X" is to
    move. *)
Theorem marks_stay_balanced (size : Z) (events : list gui.event) :
  1 <= size -> size ^ 2 <= 2 ^ 53 ->
  exists game,
    init DEFAULT_PLAYERS size = Ok game /\
    (Forall (deliverable (gui.__init__ game size)) events ->
     exists self',
       gui.mainloop events (gui.__init__ game size) = gui.Done self' /\
       balanced (gui._game self') /\
       (~ game_over self' ->
        count_marks (gui._game self') "X" = count_marks (gui._game self') "O" /\
        current_player (gui._game self') = mkPlayer "X" "blue")).
Proof.
  intros Hn Hbig. destruct (init_default size) as (game & Hinit).
  exists game. split; [done|]. intros Hev.
  destruct (init_window size game Hn Hinit) as (Hcs & _ & _ & Hg).
  destruct (init_well_formed _ _ _ Hinit) as (_ & Hsize).
  destruct (mainloop_invariant fair) with (events := events)
    (self := gui.__init__ game size) as (self' & Hrun & Hcs' & Hbal & Hon); try done.
  - intros s s' [button|] Hcs0 Hbig0 He Hq Hh; simpl in *.
    + by apply (play_fair s s' button).
    + by apply (reset_board_fair s).
  - by rewrite Hg, Hsize.
  - by apply init_fair.
  - exists self'. split; [done|]. split; [done|].
    intros Hgo. split; [by apply Hon|].
    apply in_turn_X, (cs_turn _ Hcs').
    + destruct (_has_winner (gui._game self')) eqn:E; [|done]. destruct Hgo. by left.
    + intros Hz. destruct Hgo. by right.
Qed.

Lemma marks_stay_balanced_witness :
  1 <= 3 /\ 3 ^ 2 <= 2 ^ 53 /\
  Forall (deliverable opening_window) [gui.ButtonPress (1, 1); gui.ButtonPress (0, 0)] /\
  exists self',
    gui.mainloop [gui.ButtonPress (1, 1); gui.ButtonPress (0, 0)] opening_window
    = gui.Done self' /\
    balanced (gui._game self') /\
    (~ game_over self' ->
     count_marks (gui._game self') "X" = count_marks (gui._game self') "O" /\
     current_player (gui._game self') = mkPlayer "X" "blue").
Proof.
  assert (H1 : 1 <= 3) by lia.
  assert (H2 : 3 ^ 2 <= 2 ^ 53) by (vm_compute; discriminate).
  assert (H3 : Forall (deliverable opening_window)
                 [gui.ButtonPress (1, 1); gui.ButtonPress (0, 0)]).
  { repeat apply Forall_cons_2; try apply Forall_nil_2;
      eexists; apply opening_window_cells; cbn [fst snd]; lia. }
  split; [exact H1|]. split; [exact H2|]. split; [exact H3|].
  destruct (marks_stay_balanced 3 [gui.ButtonPress (1, 1); gui.ButtonPress (0, 0)] H1 H2)
    as (game & Hinit & Hloop).
  change (init DEFAULT_PLAYERS 3) with (init DEFAULT_PLAYERS BOARD_SIZE) in Hinit.
  rewrite init_fresh_position in Hinit. injection Hinit as <-.
  exact (Hloop H3).
Defined.
